(** * The WebSocket handler of the polling service (src/websocket/handler.js)

    A shallow embedding of the connection registry ([clients]), the
    subscription index ([pollSubscriptions]), the message router
    ([handleMessage]), the broadcast engine ([broadcastPollUpdate]) and the
    liveness sweeper ([cleanupInactiveConnections]), followed by the
    properties the specification states about them.

    Modelling choices.
    - The three module-level [Map]s are finite maps ([gmap]); a subscriber
      [Set] is a [gset].  Every loop of the handler that iterates one of them
      deletes at most the entry it is visiting, so the iteration order of the
      JavaScript collections is not observable in the resulting state and a
      fold over the entries is faithful.
    - The objects created by the 'connection' callback (the socket [ws], the
      record [clientInfo], the ping timer) are shared between the callback's
      closures and the [clients] map.  They live in a heap ([conns]), indexed
      by the order of acceptance; [clients] maps an id to a heap index.
    - [new Date()] and [Date.now()] are an explicit [now] (milliseconds),
      [Math.random().toString(36)] an explicit string, [jwt.verify] a
      function parameter.
    - An exception is an [Outcome]: [Thrown] carries the state reached when
      it was raised (mutations are not rolled back). *)

From Stdlib Require Import ZArith Lia Ascii.
From stdpp Require Import base gmap sets list strings fin_maps countable.

#[local] Set Warnings "-clear-no-such-hyp".

Open Scope Z_scope.

(** ** JSON values as the router sees them *)

(** A value produced by [JSON.parse].  Objects and arrays are compared by
    reference when used as [Map] keys, so they are represented by their
    identity.  Numbers are the integral ones. *)
Inductive JsVal :=
| JUndefined
| JNull
| JBool (b : bool)
| JNum (z : Z)
| JStr (s : string)
| JObj (ref : nat).

#[global] Instance JsVal_eq_dec : EqDecision JsVal.
Proof. solve_decision. Defined.

Definition JsVal_to_sum (v : JsVal) : unit + unit + bool + Z + string + nat :=
  match v with
  | JUndefined => inl (inl (inl (inl (inl tt))))
  | JNull => inl (inl (inl (inl (inr tt))))
  | JBool b => inl (inl (inl (inr b)))
  | JNum z => inl (inl (inr z))
  | JStr s => inl (inr s)
  | JObj r => inr r
  end.

Definition JsVal_of_sum (x : unit + unit + bool + Z + string + nat) : JsVal :=
  match x with
  | inl (inl (inl (inl (inl _)))) => JUndefined
  | inl (inl (inl (inl (inr _)))) => JNull
  | inl (inl (inl (inr b))) => JBool b
  | inl (inl (inr z)) => JNum z
  | inl (inr s) => JStr s
  | inr r => JObj r
  end.

#[global] Instance JsVal_countable : Countable JsVal.
Proof. apply (inj_countable' JsVal_to_sum JsVal_of_sum). by intros []. Defined.

(** [!v] is false exactly on the truthy values. *)
Definition truthy (v : JsVal) : bool :=
  match v with
  | JUndefined | JNull => false
  | JBool b => b
  | JNum z => negb (z =? 0)
  | JStr s => negb (String.eqb s "")
  | JObj _ => true
  end.

(** The result of [JSON.parse(message)] followed by the destructuring
    [const { type, pollId, token } = data]: the parse throws, or it yields
    [null] (on which the destructuring throws), or it yields a value whose
    three properties are read ([JUndefined] for an absent one). *)
Inductive Parsed :=
| ParseError
| PNull
| PData (type pollId token : JsVal).

(** ** Outbound frames *)

Record Stats := {
  totalClients : nat;
  statsAuthenticatedClients : nat;
  activeClients : nat;
  totalSubscriptions : nat;
  activePolls : nat;
  statsTimestamp : Z
}.

Inductive Frame :=
| FConnected (clientId : string)
| FAuthenticated (userId : JsVal)
| FAuthError (message : string)
| FSubscribed (pollId : JsVal)
| FUnsubscribed (pollId : JsVal)
| FPollUpdate (pollId : JsVal) (poll : string) (timestamp : Z)
| FPong (timestamp : Z)
| FStats (data : Stats)
| FError (message : string).

Definition is_pollUpdate (f : Frame) : bool :=
  match f with FPollUpdate _ _ _ => true | _ => false end.

(** ** Sockets, client records, the heap and the three maps *)

Inductive ReadyState := CONNECTING | OPEN | CLOSING | CLOSED.

#[global] Instance ReadyState_eq_dec : EqDecision ReadyState.
Proof. solve_decision. Defined.

(** The transport.  [sendThrows] is set by the environment (a dead
    transport whose [send] raises); [sent] lists the frames [send] accepted,
    oldest first; [closeCall] is the code and reason of a [ws.close]. *)
Record WebSocket := {
  readyState : ReadyState;
  sendThrows : bool;
  sent : list Frame;
  pings : nat;
  closeCall : option (Z * string)
}.

Record ClientInfo := {
  id : string;
  ip : string;
  userAgent : string;
  connectedAt : Z;
  authenticated : bool;
  userId : JsVal;
  lastPing : Z;
  lastActivity : option Z;
  authenticatedAt : option Z
}.

(** What one 'connection' callback allocates. [clientInfo.ws] is the [ws] of
    the same callback and is never reassigned, so the two share an index. *)
Record Connection := {
  ws : WebSocket;
  info : ClientInfo;
  pingInterval : bool
}.

Record State := {
  conns : list Connection;
  clients : gmap string nat;
  pollSubscriptions : gmap JsVal (gset string);
  authenticatedClients : gmap string (JsVal * Z)
}.

Definition initial : State :=
  {| conns := []; clients := ∅; pollSubscriptions := ∅;
     authenticatedClients := ∅ |}.

Inductive Outcome :=
| Returned (st : State)
| Thrown (st : State).

Definition state_of (o : Outcome) : State :=
  match o with Returned st | Thrown st => st end.

Definition bind (o : Outcome) (k : State → Outcome) : Outcome :=
  match o with
  | Returned st => k st
  | Thrown st => Thrown st
  end.

Definition try_catch (o : Outcome) (handler : State → Outcome) : Outcome :=
  match o with
  | Returned st => Returned st
  | Thrown st => handler st
  end.

Notation "o >>> k" := (bind o k) (at level 61, left associativity).

(** *** Field updates *)

Definition set_conns (f : list Connection → list Connection) (st : State) : State :=
  {| conns := f (conns st); clients := clients st;
     pollSubscriptions := pollSubscriptions st;
     authenticatedClients := authenticatedClients st |}.

Definition set_clients (f : gmap string nat → gmap string nat) (st : State) : State :=
  {| conns := conns st; clients := f (clients st);
     pollSubscriptions := pollSubscriptions st;
     authenticatedClients := authenticatedClients st |}.

Definition set_pollSubscriptions
    (f : gmap JsVal (gset string) → gmap JsVal (gset string)) (st : State) : State :=
  {| conns := conns st; clients := clients st;
     pollSubscriptions := f (pollSubscriptions st);
     authenticatedClients := authenticatedClients st |}.

Definition set_authenticatedClients
    (f : gmap string (JsVal * Z) → gmap string (JsVal * Z)) (st : State) : State :=
  {| conns := conns st; clients := clients st;
     pollSubscriptions := pollSubscriptions st;
     authenticatedClients := f (authenticatedClients st) |}.

Definition with_ws (f : WebSocket → WebSocket) (c : Connection) : Connection :=
  {| ws := f (ws c); info := info c; pingInterval := pingInterval c |}.

Definition with_info (f : ClientInfo → ClientInfo) (c : Connection) : Connection :=
  {| ws := ws c; info := f (info c); pingInterval := pingInterval c |}.

(** Mutation of the heap object at index [n]. *)
Definition update_conn (n : nat) (f : Connection → Connection) (st : State) : State :=
  set_conns (λ h, match h !! n with
                  | Some c => <[n := f c]> h
                  | None => h
                  end) st.

(** [clients.get(clientId)]: the record the registry holds for the id. *)
Definition clientInfo_of (st : State) (clientId : string) : option ClientInfo :=
  n ← clients st !! clientId; info <$> conns st !! n.

(** The frames the socket of connection [n] has accepted so far. *)
Definition sent_of (st : State) (n : nat) : list Frame :=
  match conns st !! n with
  | Some c => sent (ws c)
  | None => []
  end.

(** The subscriber set of a topic, empty for a topic without an entry. *)
Definition subscribers_of (st : State) (pollId : JsVal) : gset string :=
  default ∅ (pollSubscriptions st !! pollId).

(** ** The transport *)

Definition push_frames (l : list Frame) (c : Connection) : Connection :=
  with_ws (λ w,
    {| readyState := readyState w; sendThrows := sendThrows w;
       sent := sent w ++ l; pings := pings w; closeCall := closeCall w |}) c.

(** [ws.send(frame)]: raises on a dead transport, otherwise hands the frame
    to the socket. *)
Definition ws_send (n : nat) (frame : Frame) (st : State) : Outcome :=
  match conns st !! n with
  | Some c =>
      if sendThrows (ws c) then Thrown st
      else Returned (update_conn n (push_frames [frame]) st)
  | None => Thrown st
  end.

Definition closing (code : Z) (reason : string) (w : WebSocket) : WebSocket :=
  {| readyState := CLOSING; sendThrows := sendThrows w; sent := sent w;
     pings := pings w; closeCall := Some (code, reason) |}.

(** [ws.close(code, reason)] starts the closing handshake. *)
Definition ws_close (n : nat) (code : Z) (reason : string) (st : State) : State :=
  update_conn n (with_ws (closing code reason)) st.

(** [ws.ping()] *)
Definition ws_ping (n : nat) (st : State) : State :=
  update_conn n (with_ws (λ w,
    {| readyState := readyState w; sendThrows := sendThrows w; sent := sent w;
       pings := S (pings w); closeCall := closeCall w |})) st.

(** The environment's hold on a socket: the state of the transport and
    whether a write to it fails. *)
Definition transport_change (n : nat) (rs : ReadyState) (throws : bool)
    (st : State) : State :=
  update_conn n (with_ws (λ w,
    {| readyState := rs; sendThrows := throws; sent := sent w;
       pings := pings w; closeCall := closeCall w |})) st.

(** ** generateClientId *)

Definition digit36 (d : Z) : ascii :=
  match String.get (Z.to_nat d) "0123456789abcdefghijklmnopqrstuvwxyz" with
  | Some c => c
  | None => "0"%char
  end.

Fixpoint toString36_digits (fuel : nat) (n : Z) (acc : string) : string :=
  match fuel with
  | O => acc
  | S fuel' =>
      let acc' := String (digit36 (n mod 36)) acc in
      if n / 36 =? 0 then acc' else toString36_digits fuel' (n / 36) acc'
  end.

(** [n.toString(36)] for an integer [n]. *)
Definition toString36 (n : Z) : string :=
  if n <? 0
  then String "-"%char (toString36_digits (S (Z.to_nat (Z.log2 (- n)))) (- n) "")
  else toString36_digits (S (Z.to_nat (Z.log2 n))) n "".

(** [s.substring(2)] *)
Definition substring2 (s : string) : string :=
  String.substring 2 (String.length s - 2) s.

(** [Math.random().toString(36).substring(2) + Date.now().toString(36)];
    [random36] is the string [Math.random().toString(36)]. *)
Definition generateClientId (random36 : string) (now : Z) : string :=
  substring2 random36 +:+ toString36 now.

(** ** Subscription index *)

Definition subscribeToPoll (clientId : string) (pollId : JsVal) (st : State) : State :=
  let st1 :=
    if decide (is_Some (pollSubscriptions st !! pollId)) then st
    else set_pollSubscriptions <[pollId := ∅]> st in
  set_pollSubscriptions (alter (λ subscribers, {[clientId]} ∪ subscribers) pollId) st1.

Definition unsubscribeFromPoll (clientId : string) (pollId : JsVal) (st : State) : State :=
  match pollSubscriptions st !! pollId with
  | Some _ =>
      let st1 :=
        set_pollSubscriptions (alter (λ subscribers, subscribers ∖ {[clientId]}) pollId) st in
      match pollSubscriptions st1 !! pollId with
      | Some subscribers =>
          if decide (size subscribers = 0%nat)
          then set_pollSubscriptions (delete pollId) st1
          else st1
      | None => st1
      end
  | None => st
  end.

(** One turn of the loop of [removeFromPollSubscriptions]: [subscribers] is
    the set the entry held when the loop reached it, which is the object
    the live map still holds under [pollId]. *)
Definition removeFromPoll_step (clientId : string) (pollId : JsVal)
    (subscribers : gset string) (m : gmap JsVal (gset string))
    : gmap JsVal (gset string) :=
  let m1 := alter (λ s, s ∖ {[clientId]}) pollId m in
  if decide (size (subscribers ∖ {[clientId]}) = 0%nat)
  then delete pollId m1
  else m1.

Definition removeFromPollSubscriptions (clientId : string) (st : State) : State :=
  set_pollSubscriptions
    (λ m, map_fold (removeFromPoll_step clientId) m m) st.

(** ** Registry helpers *)

Definition set_lastActivity (now : Z) (i : ClientInfo) : ClientInfo :=
  {| id := id i; ip := ip i; userAgent := userAgent i;
     connectedAt := connectedAt i; authenticated := authenticated i;
     userId := userId i; lastPing := lastPing i;
     lastActivity := Some now; authenticatedAt := authenticatedAt i |}.

Definition set_lastPing (now : Z) (i : ClientInfo) : ClientInfo :=
  {| id := id i; ip := ip i; userAgent := userAgent i;
     connectedAt := connectedAt i; authenticated := authenticated i;
     userId := userId i; lastPing := now;
     lastActivity := lastActivity i; authenticatedAt := authenticatedAt i |}.

Definition set_authenticated (uid : JsVal) (now : Z) (i : ClientInfo) : ClientInfo :=
  {| id := id i; ip := ip i; userAgent := userAgent i;
     connectedAt := connectedAt i; authenticated := true;
     userId := uid; lastPing := lastPing i;
     lastActivity := lastActivity i; authenticatedAt := Some now |}.

(** [clientInfo?.authenticated === true] *)
Definition isClientAuthenticated (st : State) (clientId : string) : bool :=
  match clientInfo_of st clientId with
  | Some clientInfo => authenticated clientInfo
  | None => false
  end.

(** [if (clientInfo) { clientInfo.field = ... }] on the record registered
    under [clientId]. *)
Definition update_clientInfo (clientId : string) (f : ClientInfo → ClientInfo)
    (st : State) : State :=
  match clients st !! clientId with
  | Some r => update_conn r (with_info f) st
  | None => st
  end.

(** ** getConnectionStats *)

Definition client_values (st : State) : list ClientInfo :=
  omap (λ kr, info <$> conns st !! kr.2) (map_to_list (clients st)).

(** [averageConnectionTime] is a rounded floating-point quotient and is
    left out of the frame. *)
Definition getConnectionStats (now : Z) (st : State) : Stats :=
  {| totalClients := size (clients st);
     statsAuthenticatedClients :=
       length (filter (λ c, authenticated c = true) (client_values st));
     activeClients :=
       length (filter (λ c, now - lastPing c < 60000) (client_values st));
     totalSubscriptions :=
       map_fold (λ _ subscribers sum, (sum + size subscribers)%nat) 0%nat
                (pollSubscriptions st);
     activePolls := size (pollSubscriptions st);
     statsTimestamp := now |}.

(** ** Broadcast engine *)

(** [subscribers.delete(clientId)] on the set held under [pollId]. *)
Definition subscribers_delete (pollId : JsVal) (clientId : string) (st : State) : State :=
  set_pollSubscriptions (alter (λ s, s ∖ {[clientId]}) pollId) st.

(** The callback of [subscribers.forEach], with the two counters. *)
Definition broadcast_step (pollId : JsVal) (message : Frame) (clientId : string)
    (acc : State * nat * nat) : State * nat * nat :=
  let '(st, successCount, failCount) := acc in
  match clients st !! clientId with
  | Some r =>
      match conns st !! r with
      | Some c =>
          if decide (readyState (ws c) = OPEN) then
            match ws_send r message st with
            | Returned st1 => (st1, S successCount, failCount)
            | Thrown st1 =>
                (subscribers_delete pollId clientId
                   (set_clients (delete clientId) st1),
                 successCount, S failCount)
            end
          else (subscribers_delete pollId clientId st, successCount, S failCount)
      | None => (subscribers_delete pollId clientId st, successCount, S failCount)
      end
  | None => (subscribers_delete pollId clientId st, successCount, S failCount)
  end.

Definition broadcast_loop (pollId : JsVal) (message : Frame)
    (subscribers : gset string) (st : State) : State * nat * nat :=
  set_fold (broadcast_step pollId message) (st, 0%nat, 0%nat) subscribers.

(** [pollData] is the payload as [JSON.stringify] renders it, [None] when
    [JSON.stringify] raises on it. *)
Definition broadcastPollUpdate (pollId : JsVal) (pollData : option string)
    (now : Z) (st : State) : Outcome :=
  match pollSubscriptions st !! pollId with
  | None => Returned st
  | Some subscribers =>
      match pollData with
      | None => Thrown st
      | Some poll =>
          let message := FPollUpdate pollId poll now in
          Returned (broadcast_loop pollId message subscribers st).1.1
      end
  end.

(** ** Liveness sweeper *)

Definition inactivityThreshold : Z := 5 * 60 * 1000.

(** [clientInfo.lastActivity || clientInfo.lastPing || clientInfo.connectedAt];
    [lastPing] is a [Date] from the moment the record is created, so the
    last alternative is never taken. *)
Definition lastActivity_of (clientInfo : ClientInfo) : Z :=
  default (lastPing clientInfo) (lastActivity clientInfo).

Definition cleanup_step (now : Z) (clientId : string) (r : nat) (st : State) : State :=
  match conns st !! r with
  | Some c =>
      if decide (now - lastActivity_of (info c) > inactivityThreshold) then
        let st1 :=
          if decide (readyState (ws c) = OPEN)
          then ws_close r 1000 "Inactive connection cleanup" st
          else st in
        removeFromPollSubscriptions clientId
          (set_authenticatedClients (delete clientId)
             (set_clients (delete clientId) st1))
      else st
  | None => st
  end.

Definition cleanupInactiveConnections (now : Z) (st : State) : State :=
  map_fold (cleanup_step now) st (clients st).

(** [setInterval(cleanupInactiveConnections, 2 * 60 * 1000)] *)
Definition cleanupPeriod : Z := 2 * 60 * 1000.


(** ** The 'connection' callback and its closures *)

Definition new_connection (clientId remoteAddress ua : string) (now : Z) : Connection :=
  {| ws := {| readyState := OPEN; sendThrows := false; sent := [];
              pings := 0%nat; closeCall := None |};
     info := {| id := clientId; ip := remoteAddress; userAgent := ua;
                connectedAt := now; authenticated := false; userId := JNull;
                lastPing := now; lastActivity := None;
                authenticatedAt := None |};
     pingInterval := true |}.

Definition on_connection (random36 : string) (remoteAddress ua : string)
    (now : Z) (st : State) : Outcome :=
  let clientId := generateClientId random36 now in
  let n := length (conns st) in
  let st1 := set_conns (λ h, h ++ [new_connection clientId remoteAddress ua now]) st in
  let st2 := set_clients <[clientId := n]> st1 in
  ws_send n (FConnected clientId) st2.

(** [ws.on('close', ...)] of connection [n]; the transport is closed when
    the event is emitted. *)
Definition on_close (n : nat) (st : State) : State :=
  match conns st !! n with
  | Some c =>
      let clientId := id (info c) in
      let st0 := transport_change n CLOSED (sendThrows (ws c)) st in
      removeFromPollSubscriptions clientId
        (set_authenticatedClients (delete clientId)
           (set_clients (delete clientId) st0))
  | None => st
  end.

(** The 30-second interval of connection [n]. *)
Definition on_pingInterval (n : nat) (now : Z) (st : State) : State :=
  match conns st !! n with
  | Some c =>
      if pingInterval c then
        if decide (readyState (ws c) = OPEN)
        then update_conn n (with_info (set_lastPing now)) (ws_ping n st)
        else update_conn n (λ c, {| ws := ws c; info := info c;
                                    pingInterval := false |}) st
      else st
  | None => st
  end.

(** [ws.on('pong', ...)] of connection [n]. *)
Definition on_pong (n : nat) (now : Z) (st : State) : State :=
  update_conn n (with_info (set_lastPing now)) st.

(** ** Message router *)

Definition is_type (type : JsVal) (s : string) : bool :=
  bool_decide (type = JStr s).

Section Router.

(** [jwt.verify(token, process.env.JWT_SECRET)] at time [now]: the
    [userId] of the decoded payload, [None] when it raises. *)
Variable jwt_verify : Z → JsVal → option JsVal.

Definition handleAuthentication (clientId : string) (token : JsVal) (n : nat)
    (now : Z) (st : State) : Outcome :=
  if negb (truthy token) then ws_send n (FAuthError "Token is required") st
  else
    match jwt_verify now token with
    | Some decodedUserId =>
        try_catch
          (let st1 := update_clientInfo clientId
                        (set_authenticated decodedUserId now) st in
           let st2 := set_authenticatedClients
                        <[clientId := (decodedUserId, now)]> st1 in
           ws_send n (FAuthenticated decodedUserId) st2)
          (λ st', ws_send n (FAuthError "Invalid or expired token") st')
    | None => ws_send n (FAuthError "Invalid or expired token") st
    end.

(** [handleMessage(clientId, data, ws)], [n] being [ws]. *)
Definition handleMessage (clientId : string) (type pollId token : JsVal)
    (n : nat) (now : Z) (st : State) : Outcome :=
  let st := update_clientInfo clientId (set_lastActivity now) st in
  if is_type type "authenticate" then
    handleAuthentication clientId token n now st
  else if is_type type "subscribe" then
    if negb (truthy pollId) then
      ws_send n (FError "Poll ID is required for subscription") st
    else if negb (isClientAuthenticated st clientId) then
      ws_send n (FError "Authentication required for poll subscriptions") st
    else
      ws_send n (FSubscribed pollId) (subscribeToPoll clientId pollId st)
  else if is_type type "unsubscribe" then
    if negb (truthy pollId) then
      ws_send n (FError "Poll ID is required for unsubscription") st
    else
      ws_send n (FUnsubscribed pollId) (unsubscribeFromPoll clientId pollId st)
  else if is_type type "ping" then
    ws_send n (FPong now) st
  else if is_type type "getStats" then
    if isClientAuthenticated st clientId
    then ws_send n (FStats (getConnectionStats now st)) st
    else ws_send n (FError "Authentication required") st
  else
    ws_send n (FError "Unknown message type") st.

(** [ws.on('message', ...)] of connection [n]. *)
Definition on_message (n : nat) (message : Parsed) (now : Z) (st : State) : Outcome :=
  match conns st !! n with
  | Some c =>
      let clientId := id (info c) in
      try_catch
        match message with
        | ParseError => Thrown st
        | PNull => Thrown st
        | PData type pollId token => handleMessage clientId type pollId token n now st
        end
        (λ st', ws_send n (FError "Invalid JSON format") st')
  | None => Returned st
  end.

(** ** The handler as a transition system *)

Inductive Event :=
| EConnection (random36 remoteAddress ua : string) (now : Z)
| EMessage (n : nat) (message : Parsed) (now : Z)
| EClose (n : nat)
| EPingInterval (n : nat) (now : Z)
| EPong (n : nat) (now : Z)
| ECleanup (now : Z)
| EBroadcast (pollId : JsVal) (pollData : option string) (now : Z)
| ETransport (n : nat) (rs : ReadyState) (throws : bool).

Definition step (e : Event) (st : State) : Outcome :=
  match e with
  | EConnection random36 remoteAddress ua now =>
      on_connection random36 remoteAddress ua now st
  | EMessage n message now => on_message n message now st
  | EClose n => Returned (on_close n st)
  | EPingInterval n now => Returned (on_pingInterval n now st)
  | EPong n now => Returned (on_pong n now st)
  | ECleanup now => Returned (cleanupInactiveConnections now st)
  | EBroadcast pollId pollData now => broadcastPollUpdate pollId pollData now st
  | ETransport n rs throws => Returned (transport_change n rs throws st)
  end.

(** An exception that escapes a callback reaches the process-level handler
    and the event loop goes on: the run continues from the state the
    exception left. *)
Fixpoint run (es : list Event) (st : State) : State :=
  match es with
  | [] => st
  | e :: es' => run es' (state_of (step e st))
  end.

End Router.

(** * Vocabulary of the properties *)

(** Every registry entry points at a heap object that carries the id the
    entry is filed under. *)
Definition wf (st : State) : Prop :=
  ∀ k r, clients st !! k = Some r →
    ∃ c, conns st !! r = Some c ∧ id (info c) = k.

(** No entry of the registry refers to connection [n]. *)
Definition unreferenced (st : State) (n : nat) : Prop :=
  ∀ k, clients st !! k ≠ Some n.

(** The [pollUpdate] frames handed to the socket of connection [n]. *)
Definition pollUpdates_of (st : State) (n : nat) : list Frame :=
  filter (λ f, is_pollUpdate f = true) (sent_of st n).

(** No topic is mapped to an empty subscriber set. *)
Definition no_empty_topic (st : State) : Prop :=
  ∀ p s, pollSubscriptions st !! p = Some s → s ≠ ∅.

(** The socket of connection [n] accepts a frame. *)
Definition can_send (st : State) (n : nat) : Prop :=
  ∃ c, conns st !! n = Some c ∧ sendThrows (ws c) = false.

(** Connection [n] carries the id [k] and its socket accepts a frame. *)
Definition conn_at (st : State) (n : nat) (k : string) : Prop :=
  ∃ c, conns st !! n = Some c ∧ id (info c) = k ∧ sendThrows (ws c) = false.

(** The record at heap index [r] has [lastActivity] set to [now]. *)
Definition touched_at (st : State) (r : nat) (now : Z) : Prop :=
  ∃ c, conns st !! r = Some c ∧ lastActivity (info c) = Some now.


(** The three ways the body of the broadcast loop can go for a subscriber:
    the frame is handed to an open socket, [send] raises on an open socket,
    or there is no record or no open socket. *)
Inductive Delivery := Delivers | Raises | Dead.

#[global] Instance Delivery_eq_dec : EqDecision Delivery.
Proof. solve_decision. Defined.

Definition delivery (st : State) (clientId : string) : Delivery :=
  match clients st !! clientId with
  | Some r =>
      match conns st !! r with
      | Some c =>
          if decide (readyState (ws c) = OPEN)
          then if sendThrows (ws c) then Raises else Delivers
          else Dead
      | None => Dead
      end
  | None => Dead
  end.

(** The state of the broadcast loop once it has visited the subscribers
    [X], in terms of the state [st] it started from. *)
Record loop_inv (st : State) (pollId : JsVal) (message : Frame)
    (acc : State * nat * nat) (X : gset string) : Prop := {
  loop_clients : ∀ k,
    clients acc.1.1 !! k =
      if decide (k ∈ X ∧ delivery st k = Raises) then None
      else clients st !! k;
  loop_authenticatedClients :
    authenticatedClients acc.1.1 = authenticatedClients st;
  loop_pollSubscriptions : ∀ p,
    pollSubscriptions acc.1.1 !! p =
      if decide (pollId = p)
      then (λ s, s ∖ filter (λ k, delivery st k ≠ Delivers) X)
             <$> pollSubscriptions st !! p
      else pollSubscriptions st !! p;
  loop_conns : ∀ n,
    conns acc.1.1 !! n =
      (λ c, push_frames
              (if decide (id (info c) ∈ X ∧
                          clients st !! id (info c) = Some n ∧
                          delivery st (id (info c)) = Delivers)
               then [message] else []) c) <$> conns st !! n;
  loop_counts : (acc.1.2 + acc.2)%nat = size X
}.

(** The sweeper's test on the record at heap index [r]. *)
Definition stale (now : Z) (st : State) (r : nat) : bool :=
  match conns st !! r with
  | Some c => bool_decide (now - lastActivity_of (info c) > inactivityThreshold)
  | None => false
  end.

(** What every callback preserves: heap objects stay and keep their id, a
    registry entry is an old one or points at a newly accepted connection,
    and a connection no entry refers to receives no [pollUpdate]. *)
Record evolves (st st' : State) : Prop := {
  ev_heap : ∀ n c, conns st !! n = Some c →
    ∃ c', conns st' !! n = Some c' ∧ id (info c') = id (info c);
  ev_clients : ∀ k r, clients st' !! k = Some r →
    clients st !! k = Some r ∨
    ((length (conns st) ≤ r)%nat ∧
     ∃ c, conns st' !! r = Some c ∧ id (info c) = k);
  ev_pollUpdates : ∀ n, (n < length (conns st))%nat → unreferenced st n →
    pollUpdates_of st' n = pollUpdates_of st n
}.

(** The state of the sweeper's loop once it has visited the entries [m],
    in terms of the state [st] it started from. *)
Record cleanup_inv (now : Z) (st st' : State) (m : gmap string nat) : Prop := {
  cl_clients : ∀ k,
    clients st' !! k =
      match m !! k with
      | Some r => if stale now st r then None else clients st !! k
      | None => clients st !! k
      end;
  cl_authenticatedClients : ∀ k,
    authenticatedClients st' !! k =
      match m !! k with
      | Some r => if stale now st r then None else authenticatedClients st !! k
      | None => authenticatedClients st !! k
      end;
  cl_conns : ∀ n,
    conns st' !! n =
      (λ c, if decide (m !! id (info c) = Some n ∧ stale now st n = true ∧
                       readyState (ws c) = OPEN)
            then with_ws (closing 1000 "Inactive connection cleanup") c
            else c) <$> conns st !! n;
  cl_pollSubscriptions : ∀ p s',
    pollSubscriptions st' !! p = Some s' →
    (∃ s, pollSubscriptions st !! p = Some s ∧ s' ⊆ s) ∧
    ∀ k r, m !! k = Some r → stale now st r = true → k ∉ s'
}.

(** The sweeper's loop leaves alone every id that is not the key of an
    inactive connection. *)
Record spares_inv (now : Z) (st st' : State) (m : gmap string nat) : Prop := {
  sp_info : ∀ n, info <$> conns st' !! n = info <$> conns st !! n;
  sp_clients : ∀ k,
    (∀ r, m !! k = Some r → stale now st r = false) →
    clients st' !! k = clients st !! k;
  sp_authenticatedClients : ∀ k,
    (∀ r, m !! k = Some r → stale now st r = false) →
    authenticatedClients st' !! k = authenticatedClients st !! k;
  sp_pollSubscriptions : ∀ k p s,
    (∀ r, m !! k = Some r → stale now st r = false) →
    pollSubscriptions st !! p = Some s → k ∈ s →
    ∃ s', pollSubscriptions st' !! p = Some s' ∧ k ∈ s'
}.

(** The assignments the handler makes to the objects of a connection, and
    what the environment does to its socket.  A ping is sent by the ping
    timer of the connection only. *)
Inductive mutation : Connection → Connection → Prop :=
| mut_lastActivity now c : mutation c (with_info (set_lastActivity now) c)
| mut_lastPing now c : mutation c (with_info (set_lastPing now) c)
| mut_authenticated uid now c : mutation c (with_info (set_authenticated uid now) c)
| mut_send l c : mutation c (push_frames l c)
| mut_close code reason c : mutation c (with_ws (closing code reason) c)
| mut_ping c :
    pingInterval c = true →
    mutation c (with_ws (λ w,
      {| readyState := readyState w; sendThrows := sendThrows w; sent := sent w;
         pings := S (pings w); closeCall := closeCall w |}) c)
| mut_clearInterval c :
    mutation c {| ws := ws c; info := info c; pingInterval := false |}
| mut_transport rs throws c :
    mutation c (with_ws (λ w,
      {| readyState := rs; sendThrows := throws; sent := sent w;
         pings := pings w; closeCall := closeCall w |}) c).

(** The history of a heap object: a sequence of such assignments. *)
Definition history : Connection → Connection → Prop := rtc mutation.

(** Every object of the earlier state is in the later one, an assignment
    history away. *)
Definition heap_history (st st' : State) : Prop :=
  ∀ n c, conns st !! n = Some c → ∃ c', conns st' !! n = Some c' ∧ history c c'.



(** ** What is left of a client *)

(** The id [k] is a key of [clients] or of [authenticatedClients], or a
    member of a subscriber set. *)
Definition occurs (st : State) (k : string) : Prop :=
  is_Some (clients st !! k) ∨ is_Some (authenticatedClients st !! k) ∨
  ∃ p s, pollSubscriptions st !! p = Some s ∧ k ∈ s.

(** The heap of [st'] has the connections of [st], with their ids. *)
Definition same_ids (st st' : State) : Prop :=
  ∀ n, (id ∘ info) <$> conns st' !! n = (id ∘ info) <$> conns st !! n.

(** From [st] to [st'] the three maps only lose entries. *)
Record shrunk (st st' : State) : Prop := {
  sh_ids : same_ids st st';
  sh_clients : ∀ k, clients st !! k = None → clients st' !! k = None;
  sh_authenticated : ∀ k,
    authenticatedClients st !! k = None → authenticatedClients st' !! k = None;
  sh_subscribers : ∀ p s', pollSubscriptions st' !! p = Some s' →
    ∃ s, pollSubscriptions st !! p = Some s ∧ s' ⊆ s
}.

(** From [st] to [st'] no id but [k] appears in a map. *)
Record adds (k : string) (st st' : State) : Prop := {
  ad_ids : same_ids st st';
  ad_occurs : ∀ k', occurs st' k' → occurs st k' ∨ k' = k
}.

(** The events come in the order the [ws] library delivers them: a close
    event is for a connection accepted before ([accepted] counts them) and
    no message arrives on a connection after its close event ([closed]
    lists the connections closed so far). *)
Fixpoint orderly (accepted : nat) (closed : list nat) (es : list Event) : bool :=
  match es with
  | [] => true
  | EConnection _ _ _ _ :: es' => orderly (S accepted) closed es'
  | EMessage n _ _ :: es' => bool_decide (n ∉ closed) && orderly accepted closed es'
  | EClose n :: es' =>
      bool_decide (n < accepted)%nat && orderly accepted (n :: closed) es'
  | _ :: es' => orderly accepted closed es'
  end.

(** The connections whose close event is in the trace. *)
Definition closed_by (es : list Event) : list nat :=
  omap (λ e, match e with EClose n => Some n | _ => None end) es.

(** Whatever is in a map belongs to a connection that is not closed. *)
Record live (closed : list nat) (st : State) : Prop := {
  li_closed : ∀ n, n ∈ closed → (n < length (conns st))%nat;
  li_keys : ∀ k, occurs st k →
    ∃ n c, (n ∉ closed) ∧ conns st !! n = Some c ∧ id (info c) = k;
  li_topics : ∀ p, is_Some (pollSubscriptions st !! p) →
    ∃ n, (n ∉ closed) ∧ (n < length (conns st))%nat
}.

(** The value of a base-36 digit, and of a string of such digits read from
    the left ([parseInt(s, 36)] on the output of [toString(36)]). *)
Fixpoint index_of (c : ascii) (s : string) : Z :=
  match s with
  | EmptyString => 0
  | String c' s' => if Ascii.eqb c c' then 0 else 1 + index_of c s'
  end.

Definition value36 (c : ascii) : Z :=
  index_of c "0123456789abcdefghijklmnopqrstuvwxyz".

Fixpoint parse36 (s : string) (acc : Z) : Z :=
  match s with
  | EmptyString => acc
  | String c s' => parse36 s' (36 * acc + value36 c)
  end.

(** From [st] to [st'] exactly one frame was handed to the socket of
    connection [n] and none to another socket. *)
Definition one_answer (n : nat) (st st' : State) : Prop :=
  (∃ frame, sent_of st' n = sent_of st n ++ [frame]) ∧
  ∀ m, m ≠ n → sent_of st' m = sent_of st m.

(** ** Example states *)

(** A verifier for the examples: the token ["valid"] belongs to user
    ["u1"], every other token is rejected. *)
Definition example_verify (now : Z) (token : JsVal) : option JsVal :=
  if decide (token = JStr "valid") then Some (JStr "u1") else None.

Definition authenticate_frame : Parsed :=
  PData (JStr "authenticate") JUndefined (JStr "valid").

Definition subscribe_frame (pollId : string) : Parsed :=
  PData (JStr "subscribe") (JStr pollId) JUndefined.

(** Three clients accepted at times 1, 2 and 3, authenticated and
    subscribed to poll ["T"]; the second one also to ["U"], and its
    transport then starts failing on writes. *)
Definition example_trace : list Event :=
  [ EConnection "0.a" "10.0.0.1" "ua" 1;
    EConnection "0.b" "10.0.0.2" "ua" 2;
    EConnection "0.c" "10.0.0.3" "ua" 3;
    EMessage 0 authenticate_frame 4;
    EMessage 1 authenticate_frame 4;
    EMessage 2 authenticate_frame 4;
    EMessage 0 (subscribe_frame "T") 5;
    EMessage 1 (subscribe_frame "T") 5;
    EMessage 2 (subscribe_frame "T") 5;
    EMessage 1 (subscribe_frame "U") 6;
    ETransport 1 OPEN true ].

Definition example_state : State := run example_verify example_trace initial.

(** Timer events: a turn of a ping interval or a run of the sweeper. *)
Definition is_timer (e : Event) : bool :=
  match e with
  | EPingInterval _ _ | ECleanup _ => true
  | _ => false
  end.

(** Two minutes in the life of connection [0] from time [t] on: four
    turns of its ping interval, then a run of the sweeper. *)
Definition two_minutes (t : Z) : list Event :=
  [ EPingInterval 0 (t + 30000); EPingInterval 0 (t + 60000);
    EPingInterval 0 (t + 90000); EPingInterval 0 (t + 120000);
    ECleanup (t + 120000) ].

Definition silent_timers : list Event :=
  two_minutes 0 ++ two_minutes 120000 ++ two_minutes 240000 ++
  [ EPingInterval 0 390000; EPingInterval 0 420000;
    EPingInterval 0 450000; EPingInterval 0 480000 ].

(** One client, accepted at time 1 and not authenticated. *)
Definition one_client : State :=
  state_of (on_connection "0.a" "10.0.0.1" "ua" 1 initial).

Definition one_client_conn : Connection :=
  push_frames [FConnected "a1"] (new_connection "a1" "10.0.0.1" "ua" 1).

(** The first of the three clients of [example_state]. *)
Definition example_conn : Connection :=
  Eval vm_compute in
    default (new_connection "" "" "" 0) (conns example_state !! 0%nat).

(** The example state after a publish on ["T"]: with the transport of the
    second client raising, and with that transport closing instead. *)
Definition example_after_raise : State :=
  state_of (broadcastPollUpdate (JStr "T") (Some "{}") 7 example_state).

Definition example_after_closing : State :=
  state_of (broadcastPollUpdate (JStr "T") (Some "{}") 7
              (transport_change 1 CLOSING false example_state)).

(** The second of the three clients of [example_state], whose transport
    raises on writes. *)
Definition example_conn_b : Connection :=
  Eval vm_compute in
    default (new_connection "" "" "" 0) (conns example_state !! 1%nat).

(** The example state after the publish on ["T"] that dropped the second
    client from the registry, its transport accepting writes again. *)
Definition example_recovered : State :=
  transport_change 1 OPEN false example_after_raise.

Definition example_recovered_conn : Connection :=
  Eval vm_compute in
    default (new_connection "" "" "" 0) (conns example_recovered !! 1%nat).

(** The second client of [example_state] with its transport closing. *)
Definition example_closing : State :=
  transport_change 1 CLOSING false example_state.

Definition example_closing_conn : Connection :=
  Eval vm_compute in
    default (new_connection "" "" "" 0) (conns example_closing !! 1%nat).

(** The three clients of [example_trace] to the end: a publish on ["T"],
    the close of the second client, a run of the sweeper long after, and
    the close events of the two connections it evicted. *)
Definition example_session : list Event :=
  example_trace ++
  [ EBroadcast (JStr "T") (Some "{}") 7; EClose 1; ECleanup 400000;
    EClose 0; EClose 2 ].

(** * Properties *)

(** ** The model on concrete inputs *)

Example toString36_digits_of_a_clock :
  toString36 1700000000000 = "loyw3v28" ∧ toString36 35 = "z" ∧
  toString36 36 = "10" ∧ toString36 0 = "0".
Proof. repeat split; vm_compute; reflexivity. Qed.

Example generateClientId_drops_the_leading_zero_dot :
  generateClientId "0.4fzyo82mvyr" 1700000000000 = "4fzyo82mvyrloyw3v28" ∧
  generateClientId "0" 36 = "10".
Proof. split; vm_compute; reflexivity. Qed.

(** Connect, then [ping] without authenticating: [connected], then [pong]. *)
Example heartbeat_needs_no_authentication :
  sent_of
    (run example_verify
       [ EConnection "0.a" "10.0.0.1" "ua" 1;
         EMessage 0 (PData (JStr "ping") JUndefined JUndefined) 2 ]
       initial) 0
  = [ FConnected "a1"; FPong 2 ].
Proof. vm_compute. reflexivity. Qed.

(** Connect, subscribe too early, authenticate, subscribe, publish. *)
Example subscribe_then_publish :
  sent_of
    (run example_verify
       [ EConnection "0.a" "10.0.0.1" "ua" 1;
         EMessage 0 (subscribe_frame "p1") 2;
         EMessage 0 authenticate_frame 3;
         EMessage 0 (subscribe_frame "p1") 4;
         EBroadcast (JStr "p1") (Some "{}") 5 ]
       initial) 0
  = [ FConnected "a1";
      FError "Authentication required for poll subscriptions";
      FAuthenticated (JStr "u1");
      FSubscribed (JStr "p1");
      FPollUpdate (JStr "p1") "{}" 5 ].
Proof. vm_compute. reflexivity. Qed.

(** The two subscribers of ["T"] whose sockets accept frames receive one
    [pollUpdate] each, the third none. *)
Example accepting_subscribers_get_one_update_each :
  pollUpdates_of example_after_raise 0 = [ FPollUpdate (JStr "T") "{}" 7 ] ∧
  pollUpdates_of example_after_raise 2 = [ FPollUpdate (JStr "T") "{}" 7 ] ∧
  pollUpdates_of example_after_raise 1 = [].
Proof. repeat split; vm_compute; reflexivity. Qed.

(** A message that is JSON but not an object has no [type]. *)
Example a_number_is_an_unknown_type :
  sent_of
    (state_of (on_message example_verify 0
                 (PData JUndefined JUndefined JUndefined) 2 one_client)) 0
  = [ FConnected "a1"; FError "Unknown message type" ].
Proof. vm_compute. reflexivity. Qed.

(** An exception in the middle of [handleMessage] leaves the subscription
    made before it and is reported as a JSON error, which raises again. *)
Example failed_answer_keeps_the_subscription :
  ∃ st', on_message example_verify 1 (subscribe_frame "V") 8 example_state
           = Thrown st' ∧
         subscribers_of st' (JStr "V") = {[ "b2" ]}.
Proof. eexists. split; vm_compute; reflexivity. Qed.

(** ** The heap *)

Lemma conns_update_conn n f st m :
  conns (update_conn n f st) !! m =
    if decide (n = m) then f <$> conns st !! m else conns st !! m.
Proof.
  unfold update_conn; simpl.
  destruct (conns st !! n) as [c|] eqn:Hn.
  - case_decide as Hnm.
    + subst m. rewrite Hn. simpl.
      apply list_lookup_insert_eq. by eapply lookup_lt_Some.
    + by apply list_lookup_insert_ne.
  - case_decide as Hnm; [subst m; by rewrite Hn|done].
Qed.

Lemma length_update_conn n f st :
  length (conns (update_conn n f st)) = length (conns st).
Proof.
  unfold update_conn; simpl.
  destruct (conns st !! n); [apply length_insert|done].
Qed.

Lemma sent_of_update_conn n f st m :
  (∀ c, sent (ws (f c)) = sent (ws c)) →
  sent_of (update_conn n f st) m = sent_of st m.
Proof.
  intros Hf. unfold sent_of. rewrite conns_update_conn.
  case_decide; [|done]. destruct (conns st !! m); simpl; [apply Hf|done].
Qed.

(** What a [ws.send] on [n] does: it raises and changes nothing, or it
    returns and the only change is the frame pushed on socket [n]. *)
Lemma ws_send_spec n frame st :
  (ws_send n frame st = Thrown st ∧
     (∀ c, conns st !! n = Some c → sendThrows (ws c) = true)) ∨
  (∃ c, conns st !! n = Some c ∧ sendThrows (ws c) = false ∧
        ws_send n frame st = Returned (update_conn n (push_frames [frame]) st)).
Proof.
  unfold ws_send. destruct (conns st !! n) as [c|] eqn:Hn.
  - destruct (sendThrows (ws c)) eqn:Ht.
    + left. split; [done|]. intros c' [= <-]. done.
    + right. exists c. by rewrite Ht.
  - left. split; [done|]. intros c' [=].
Qed.

Lemma ws_send_returned n frame st c :
  conns st !! n = Some c → sendThrows (ws c) = false →
  ws_send n frame st = Returned (update_conn n (push_frames [frame]) st).
Proof. intros Hn Ht. unfold ws_send. by rewrite Hn, Ht. Qed.

Lemma ws_send_clients n frame st :
  clients (state_of (ws_send n frame st)) = clients st.
Proof. by destruct (ws_send_spec n frame st) as [[-> _]|(c & _ & _ & ->)]. Qed.

Lemma ws_send_pollSubscriptions n frame st :
  pollSubscriptions (state_of (ws_send n frame st)) = pollSubscriptions st.
Proof. by destruct (ws_send_spec n frame st) as [[-> _]|(c & _ & _ & ->)]. Qed.

Lemma ws_send_authenticatedClients n frame st :
  authenticatedClients (state_of (ws_send n frame st)) = authenticatedClients st.
Proof. by destruct (ws_send_spec n frame st) as [[-> _]|(c & _ & _ & ->)]. Qed.

Lemma sent_of_push n l st c :
  conns st !! n = Some c →
  sent_of (update_conn n (push_frames l) st) n = sent_of st n ++ l.
Proof.
  intros Hn. unfold sent_of. rewrite conns_update_conn, decide_True by done.
  by rewrite Hn.
Qed.

Lemma sent_of_push_ne n l st m :
  n ≠ m → sent_of (update_conn n (push_frames l) st) m = sent_of st m.
Proof.
  intros Hnm. unfold sent_of. by rewrite conns_update_conn, decide_False.
Qed.

(** ** The subscription index *)

(** [removeFromPollSubscriptions] pointwise: every entry loses [clientId],
    and an entry left without subscribers is dropped. *)
Lemma removeFromPoll_fold_lookup clientId (m b : gmap JsVal (gset string)) p :
  map_fold (removeFromPoll_step clientId) b m !! p =
    match m !! p with
    | Some s => removeFromPoll_step clientId p s b !! p
    | None => b !! p
    end.
Proof.
  revert p.
  apply (map_fold_weak_ind (λ r m, ∀ p, r !! p =
    match m !! p with
    | Some s => removeFromPoll_step clientId p s b !! p
    | None => b !! p
    end)); clear m.
  - intros p. by rewrite lookup_empty.
  - intros i x m r Hi IH p.
    destruct (decide (i = p)) as [->|Hip].
    + rewrite lookup_insert_eq. specialize (IH p). rewrite Hi in IH.
      unfold removeFromPoll_step.
      case_decide; [by rewrite !lookup_delete_eq|].
      by rewrite !lookup_alter_eq, IH.
    + rewrite lookup_insert_ne by done. rewrite <- IH.
      unfold removeFromPoll_step.
      case_decide; [rewrite lookup_delete_ne by done|];
        by rewrite lookup_alter_ne.
Qed.

Lemma removeFromPollSubscriptions_lookup clientId st p :
  pollSubscriptions (removeFromPollSubscriptions clientId st) !! p =
    s ← pollSubscriptions st !! p;
    if decide (size (s ∖ {[clientId]}) = 0%nat) then None
    else Some (s ∖ {[clientId]}).
Proof.
  unfold removeFromPollSubscriptions; simpl.
  rewrite removeFromPoll_fold_lookup.
  destruct (pollSubscriptions st !! p) as [s|] eqn:Hp; [|done]. simpl.
  unfold removeFromPoll_step.
  case_decide; [by rewrite lookup_delete_eq|].
  by rewrite lookup_alter_eq, Hp.
Qed.

Lemma removeFromPollSubscriptions_absent clientId st p s :
  pollSubscriptions (removeFromPollSubscriptions clientId st) !! p = Some s →
  clientId ∉ s.
Proof.
  rewrite removeFromPollSubscriptions_lookup.
  destruct (pollSubscriptions st !! p) as [s0|]; simpl; [|done].
  destruct (decide _); [done|]. intros [= <-].
  rewrite elem_of_difference, elem_of_singleton. tauto.
Qed.

Lemma removeFromPollSubscriptions_subseteq clientId st p s :
  pollSubscriptions (removeFromPollSubscriptions clientId st) !! p = Some s →
  ∃ s0, pollSubscriptions st !! p = Some s0 ∧ s = s0 ∖ {[clientId]}.
Proof.
  rewrite removeFromPollSubscriptions_lookup.
  destruct (pollSubscriptions st !! p) as [s0|]; simpl; [|done].
  destruct (decide _); [done|]. intros [= <-]. eauto.
Qed.

Lemma subscribeToPoll_lookup clientId pollId st p :
  pollSubscriptions (subscribeToPoll clientId pollId st) !! p =
    if decide (pollId = p)
    then Some ({[clientId]} ∪ subscribers_of st pollId)
    else pollSubscriptions st !! p.
Proof.
  unfold subscribeToPoll, subscribers_of.
  destruct (decide (is_Some (pollSubscriptions st !! pollId))) as [[s Hs]|Hn];
    simpl; case_decide as Hp; subst.
  - by rewrite lookup_alter_eq, Hs.
  - by rewrite lookup_alter_ne.
  - apply eq_None_not_Some in Hn.
    by rewrite lookup_alter_eq, lookup_insert_eq, Hn.
  - by rewrite lookup_alter_ne, lookup_insert_ne.
Qed.

Lemma unsubscribeFromPoll_lookup clientId pollId st p :
  pollSubscriptions (unsubscribeFromPoll clientId pollId st) !! p =
    if decide (pollId = p)
    then s ← pollSubscriptions st !! p;
         if decide (size (s ∖ {[clientId]}) = 0%nat) then None
         else Some (s ∖ {[clientId]})
    else pollSubscriptions st !! p.
Proof.
  unfold unsubscribeFromPoll.
  destruct (pollSubscriptions st !! pollId) as [s|] eqn:Hs; simpl.
  - rewrite lookup_alter_eq, Hs. simpl.
    destruct (decide (size (s ∖ {[clientId]}) = 0%nat)) as [Hz|Hz]; simpl;
      case_decide as Hp; subst.
    + by rewrite lookup_delete_eq, Hs; simpl; rewrite decide_True.
    + by rewrite lookup_delete_ne, lookup_alter_ne.
    + by rewrite lookup_alter_eq, Hs; simpl; rewrite decide_False.
    + by rewrite lookup_alter_ne.
  - case_decide; subst; by rewrite ?Hs.
Qed.

(** ** State projections *)

Lemma clients_update_conn n f st : clients (update_conn n f st) = clients st.
Proof. done. Qed.
Lemma pollSubscriptions_update_conn n f st :
  pollSubscriptions (update_conn n f st) = pollSubscriptions st.
Proof. done. Qed.
Lemma authenticatedClients_update_conn n f st :
  authenticatedClients (update_conn n f st) = authenticatedClients st.
Proof. done. Qed.

Lemma conns_removeFromPollSubscriptions k st :
  conns (removeFromPollSubscriptions k st) = conns st.
Proof. done. Qed.
Lemma clients_removeFromPollSubscriptions k st :
  clients (removeFromPollSubscriptions k st) = clients st.
Proof. done. Qed.
Lemma authenticatedClients_removeFromPollSubscriptions k st :
  authenticatedClients (removeFromPollSubscriptions k st) = authenticatedClients st.
Proof. done. Qed.

Ltac st_simpl :=
  unfold subscribers_delete, set_pollSubscriptions, set_clients,
    set_authenticatedClients, ws_close, ws_ping, transport_change in *;
  cbn [fst snd conns clients pollSubscriptions authenticatedClients] in *;
  rewrite ?clients_update_conn, ?pollSubscriptions_update_conn,
    ?authenticatedClients_update_conn, ?conns_removeFromPollSubscriptions,
    ?clients_removeFromPollSubscriptions,
    ?authenticatedClients_removeFromPollSubscriptions in *;
  cbn [fst snd conns clients pollSubscriptions authenticatedClients] in *.

(** ** The broadcast loop *)

Lemma push_frames_push l1 l2 c :
  push_frames l2 (push_frames l1 c) = push_frames (l1 ++ l2) c.
Proof. unfold push_frames, with_ws; simpl. by rewrite app_assoc. Qed.

Lemma push_frames_nil c : push_frames [] c = c.
Proof.
  destruct c as [[] ? ?]. unfold push_frames, with_ws; simpl.
  by rewrite app_nil_r.
Qed.

Lemma broadcast_loop_inv st pollId message subscribers :
  wf st →
  loop_inv st pollId message (broadcast_loop pollId message subscribers st)
    subscribers.
Proof.
  intros Hwf. unfold broadcast_loop.
  apply (set_fold_ind_L (loop_inv st pollId message)).
  - split; cbn [fst snd].
    + intros k. rewrite decide_False; [done|set_solver].
    + done.
    + intros p. case_decide; [|done].
      destruct (pollSubscriptions st !! p) as [s|]; simpl; [|done].
      f_equal. set_solver.
    + intros n. destruct (conns st !! n) as [c|]; simpl; [|done].
      rewrite decide_False by set_solver. by rewrite push_frames_nil.
    + by rewrite size_empty.
  - intros x X [[st' sc] fc] Hx [I1 I2 I3 I4 I5]; cbn [fst snd] in *.
    assert (Hcx : clients st' !! x = clients st !! x).
    { rewrite I1, decide_False; [done|tauto]. }
    assert (Hsize : size ({[x]} ∪ X) = S (size X)).
    { rewrite size_union by set_solver. by rewrite size_singleton. }
    assert (Hdead : delivery st x ≠ Delivers →
      loop_inv st pollId message
        (subscribers_delete pollId x st', sc, S fc) ({[x]} ∪ X) ∨ delivery st x = Raises).
    { intros Hd. destruct (decide (delivery st x = Raises)) as [|Hr]; [by right|left].
      split; st_simpl.
      - intros k. rewrite I1. apply decide_ext. set_solver.
      - done.
      - intros p. destruct (decide (pollId = p)) as [->|Hp].
        + rewrite lookup_alter_eq, I3, decide_True by done.
          destruct (pollSubscriptions st !! p) as [s|]; simpl; [|done].
          f_equal. set_solver.
        + rewrite lookup_alter_ne, I3, decide_False by done. done.
      - intros n. rewrite I4.
        destruct (conns st !! n) as [c|]; simpl; [|done].
        f_equal. f_equal. apply decide_ext. set_solver.
      - lia. }
    unfold broadcast_step. rewrite Hcx.
    destruct (clients st !! x) as [r|] eqn:Hr.
    2:{ destruct Hdead as [?|Hd]; [|done|].
        - unfold delivery. by rewrite Hr.
        - unfold delivery in Hd. by rewrite Hr in Hd. }
    destruct (Hwf _ _ Hr) as (c & Hc & Hid).
    assert (Hc' : conns st' !! r = Some c).
    { rewrite I4, Hc. simpl. rewrite decide_False by (rewrite Hid; tauto).
      by rewrite push_frames_nil. }
    rewrite Hc'.
    assert (Hdel : delivery st x =
      if decide (readyState (ws c) = OPEN)
      then if sendThrows (ws c) then Raises else Delivers else Dead).
    { unfold delivery. by rewrite Hr, Hc. }
    destruct (decide (readyState (ws c) = OPEN)) as [Hopen|Hopen].
    2:{ destruct Hdead as [?|Hd]; [congruence|done|congruence]. }
    destruct (sendThrows (ws c)) eqn:Hthrows.
    + destruct (ws_send_spec r message st') as [[-> _]|(c2 & Hc2 & Ht2 & _)];
        [|congruence].
      split; st_simpl.
      * intros k. destruct (decide (k = x)) as [->|Hk].
        -- rewrite lookup_delete_eq, decide_True; [done|]. split; [set_solver|done].
        -- rewrite lookup_delete_ne, I1 by done. apply decide_ext. set_solver.
      * done.
      * intros p. destruct (decide (pollId = p)) as [->|Hp].
        -- rewrite lookup_alter_eq, I3, decide_True by done.
          destruct (pollSubscriptions st !! p) as [s|]; simpl; [|done].
          f_equal. apply set_eq. intros k.
          rewrite !elem_of_difference, !elem_of_filter, elem_of_union,
            elem_of_singleton.
          split.
          ++ intros [[Hks Hn] Hkx]. split; [done|].
             intros [Hd [?|?]]; [done|tauto].
          ++ intros [Hks Hn]. split; [split; [done|tauto]|].
             intros ->. apply Hn. split; [congruence|by left].
        -- rewrite lookup_alter_ne, I3, decide_False by done. done.
      * intros n. rewrite I4.
        destruct (conns st !! n) as [c0|]; simpl; [|done].
        f_equal. f_equal. apply decide_ext.
        split; [set_solver|]. intros ([->%elem_of_singleton|?]%elem_of_union & ? & ?);
          [congruence|done].
      * lia.
    + rewrite (ws_send_returned _ _ _ _ Hc' Hthrows).
      split; st_simpl.
      * intros k. rewrite I1. apply decide_ext.
        split; [set_solver|]. intros ([->%elem_of_singleton|?]%elem_of_union & ?);
          [congruence|done].
      * done.
      * intros p. rewrite I3. case_decide; [|done].
        destruct (pollSubscriptions st !! p) as [s|]; simpl; [|done].
        f_equal. apply set_eq. intros k.
        rewrite !elem_of_difference, !elem_of_filter, elem_of_union,
          elem_of_singleton.
        split; intros [Hks Hn]; (split; [done|]); [|tauto].
        intros [Hd [->|?]]; [congruence|tauto].
      * intros n. rewrite conns_update_conn.
        destruct (decide (r = n)) as [<-|Hrn].
        -- rewrite Hc', Hc. simpl. rewrite decide_True.
          ++ done.
          ++ rewrite Hid. split; [set_solver|done].
        -- rewrite I4. destruct (conns st !! n) as [c0|]; simpl; [|done].
          f_equal. f_equal. apply decide_ext.
          split; [set_solver|].
          intros ([Hx0%elem_of_singleton|?]%elem_of_union & ? & ?); [|done].
          congruence.
      * lia.
Qed.


(** ** What every callback preserves *)

Lemma evolves_refl st : evolves st st.
Proof. split; eauto. Qed.

Lemma evolves_length st st' :
  evolves st st' → (length (conns st) ≤ length (conns st'))%nat.
Proof.
  intros [Hh _ _]. destruct (conns st) as [|c0 l] eqn:Hl using rev_ind;
    [simpl; lia|].
  destruct (Hh (length l) c0) as (c' & Hc' & _).
  { by rewrite lookup_app_r, Nat.sub_diag by done. }
  apply lookup_lt_Some in Hc'. rewrite length_app. simpl. lia.
Qed.

Lemma evolves_unreferenced st st' n :
  evolves st st' → (n < length (conns st))%nat →
  unreferenced st n → unreferenced st' n.
Proof.
  intros [_ Hc _] Hn Hu k Hk.
  destruct (Hc _ _ Hk) as [?|[? _]]; [by eapply Hu|lia].
Qed.

Lemma evolves_trans st1 st2 st3 :
  evolves st1 st2 → evolves st2 st3 → evolves st1 st3.
Proof.
  intros H12 H23. pose proof (evolves_length _ _ H12) as Hlen.
  split.
  - intros n c Hn. destruct (ev_heap _ _ H12 _ _ Hn) as (c2 & Hc2 & Hid2).
    destruct (ev_heap _ _ H23 _ _ Hc2) as (c3 & Hc3 & Hid3).
    exists c3. split; [done|congruence].
  - intros k r Hk. destruct (ev_clients _ _ H23 _ _ Hk) as [Hk2|[Hr Hc]].
    + destruct (ev_clients _ _ H12 _ _ Hk2) as [?|[Hr (c & Hc & Hid)]];
        [by left|right].
      split; [done|]. destruct (ev_heap _ _ H23 _ _ Hc) as (c3 & Hc3 & Hid3).
      exists c3. split; [done|congruence].
    + right. split; [lia|done].
  - intros n Hn Hu.
    rewrite (ev_pollUpdates _ _ H23), (ev_pollUpdates _ _ H12); try done.
    + lia.
    + by eapply evolves_unreferenced.
Qed.

Lemma evolves_wf st st' : evolves st st' → wf st → wf st'.
Proof.
  intros Hev Hwf k r Hk.
  destruct (ev_clients _ _ Hev _ _ Hk) as [Hk0|[_ ?]]; [|done].
  destruct (Hwf _ _ Hk0) as (c & Hc & Hid).
  destruct (ev_heap _ _ Hev _ _ Hc) as (c' & Hc' & Hid').
  exists c'. split; [done|congruence].
Qed.

(** A heap mutation that keeps the id and the [pollUpdate] frames. *)
Lemma evolves_update_conn n f st :
  (∀ c, id (info (f c)) = id (info c)) →
  (∀ c, filter (λ x, is_pollUpdate x = true) (sent (ws (f c))) =
        filter (λ x, is_pollUpdate x = true) (sent (ws c))) →
  evolves st (update_conn n f st).
Proof.
  intros Hid Hsent. split.
  - intros m c Hm. rewrite conns_update_conn.
    case_decide; rewrite Hm; simpl; eauto.
  - intros k r Hk. by left.
  - intros m _ _. unfold pollUpdates_of, sent_of. rewrite conns_update_conn.
    case_decide; [|done]. destruct (conns st !! m); simpl; [apply Hsent|done].
Qed.

Lemma evolves_same_heap st st' :
  conns st' = conns st →
  (∀ k r, clients st' !! k = Some r → clients st !! k = Some r) →
  evolves st st'.
Proof.
  intros Hc Hk. split.
  - intros n c Hn. rewrite Hc. eauto.
  - intros k r ?. left. eauto.
  - intros n _ _. unfold pollUpdates_of, sent_of. by rewrite Hc.
Qed.

Lemma evolves_set_pollSubscriptions f st : evolves st (set_pollSubscriptions f st).
Proof. by apply evolves_same_heap. Qed.

Lemma evolves_set_authenticatedClients f st :
  evolves st (set_authenticatedClients f st).
Proof. by apply evolves_same_heap. Qed.

Lemma evolves_clients_delete k st : evolves st (set_clients (delete k) st).
Proof.
  apply evolves_same_heap; [done|]. simpl. intros k' r.
  rewrite lookup_delete_Some. tauto.
Qed.

Lemma evolves_removeFromPollSubscriptions k st :
  evolves st (removeFromPollSubscriptions k st).
Proof. apply evolves_set_pollSubscriptions. Qed.

Lemma evolves_subscribeToPoll k p st : evolves st (subscribeToPoll k p st).
Proof.
  unfold subscribeToPoll. case_decide; [apply evolves_set_pollSubscriptions|].
  eapply evolves_trans; apply evolves_set_pollSubscriptions.
Qed.

Lemma evolves_unsubscribeFromPoll k p st : evolves st (unsubscribeFromPoll k p st).
Proof.
  unfold unsubscribeFromPoll.
  destruct (pollSubscriptions st !! p); [|apply evolves_refl].
  match goal with |- context [set_pollSubscriptions ?f st] =>
    pose proof (evolves_set_pollSubscriptions f st) as H1 end.
  destruct (pollSubscriptions _ !! p); [|done].
  case_decide; [|done].
  eapply evolves_trans; [exact H1|apply evolves_set_pollSubscriptions].
Qed.

Lemma evolves_update_clientInfo k f st :
  (∀ i, id (f i) = id i) → evolves st (update_clientInfo k f st).
Proof.
  intros Hf. unfold update_clientInfo.
  destruct (clients st !! k); [|apply evolves_refl].
  apply evolves_update_conn; [intros c; apply Hf|done].
Qed.

Lemma filter_pollUpdate_app (l : list Frame) frame :
  is_pollUpdate frame = false →
  filter (λ x, is_pollUpdate x = true) (l ++ [frame]) =
  filter (λ x, is_pollUpdate x = true) l.
Proof.
  intros Hf. rewrite list.filter_app, filter_cons_False, filter_nil, app_nil_r;
    [done|congruence].
Qed.

(** A [send] of a frame other than a [pollUpdate]. *)
Lemma evolves_ws_send n frame st :
  is_pollUpdate frame = false → evolves st (state_of (ws_send n frame st)).
Proof.
  intros Hf.
  destruct (ws_send_spec n frame st) as [[-> _]|(c & _ & _ & ->)]; simpl;
    [apply evolves_refl|].
  apply evolves_update_conn; [done|].
  intros c0. simpl. by apply filter_pollUpdate_app.
Qed.

(** A [send] of any frame to a connection the registry refers to. *)
Lemma evolves_ws_send_referenced n frame st k :
  clients st !! k = Some n → evolves st (state_of (ws_send n frame st)).
Proof.
  intros Hk.
  destruct (ws_send_spec n frame st) as [[-> _]|(c & Hc & _ & ->)]; simpl;
    [apply evolves_refl|].
  split.
  - intros m c0 Hm. rewrite conns_update_conn.
    case_decide; rewrite Hm; simpl; eauto.
  - intros k' r ?. by left.
  - intros m _ Hu. unfold pollUpdates_of.
    rewrite sent_of_push_ne; [done|]. intros <-. by eapply Hu.
Qed.

Lemma evolves_try_catch st o handler :
  evolves st (state_of o) →
  (∀ st', evolves st' (state_of (handler st'))) →
  evolves st (state_of (try_catch o handler)).
Proof.
  intros Ho Hh. destruct o as [st1|st1]; simpl in *; [done|].
  eapply evolves_trans; [exact Ho|apply Hh].
Qed.

Lemma set_fold_evolves (f : string → State * nat * nat → State * nat * nat)
    (b : State * nat * nat) (X : gset string) :
  (∀ x acc, evolves acc.1.1 (f x acc).1.1) →
  evolves b.1.1 (set_fold f b X).1.1.
Proof.
  intros Hf.
  apply (set_fold_ind_L (λ r _, evolves b.1.1 r.1.1)); [apply evolves_refl|].
  intros x Y r _ IH. eapply evolves_trans; [exact IH|apply Hf].
Qed.

Lemma map_fold_evolves (f : string → nat → State → State) b (m : gmap string nat) :
  (∀ k r st, evolves st (f k r st)) → evolves b (map_fold f b m).
Proof.
  intros Hf.
  apply (map_fold_weak_ind (λ r _, evolves b r)); [apply evolves_refl|].
  intros k r m' st' _ IH. eapply evolves_trans; [exact IH|apply Hf].
Qed.

Lemma evolves_broadcast_step pollId message x acc :
  evolves acc.1.1 (broadcast_step pollId message x acc).1.1.
Proof.
  destruct acc as [[st sc] fc]. unfold broadcast_step; cbn [fst snd].
  destruct (clients st !! x) as [r|] eqn:Hr;
    [|apply evolves_set_pollSubscriptions].
  destruct (conns st !! r) as [c|]; [|apply evolves_set_pollSubscriptions].
  case_decide; [|apply evolves_set_pollSubscriptions].
  pose proof (evolves_ws_send_referenced r message st x Hr) as Hs.
  destruct (ws_send r message st) as [st1|st1]; cbn [fst snd state_of] in *;
    [done|].
  eapply evolves_trans; [exact Hs|].
  eapply evolves_trans; [apply evolves_clients_delete|].
  apply evolves_set_pollSubscriptions.
Qed.

Lemma evolves_broadcastPollUpdate pollId pollData now st :
  evolves st (state_of (broadcastPollUpdate pollId pollData now st)).
Proof.
  unfold broadcastPollUpdate.
  destruct (pollSubscriptions st !! pollId) as [s|]; [|apply evolves_refl].
  destruct pollData as [poll|]; [|apply evolves_refl]. simpl.
  apply (set_fold_evolves _ (st, 0%nat, 0%nat)).
  intros x acc. apply evolves_broadcast_step.
Qed.

Lemma evolves_ws_close n code reason st : evolves st (ws_close n code reason st).
Proof. by apply evolves_update_conn. Qed.

Lemma evolves_transport_change n rs throws st :
  evolves st (transport_change n rs throws st).
Proof. by apply evolves_update_conn. Qed.

Lemma evolves_removal k st :
  evolves st (removeFromPollSubscriptions k
    (set_authenticatedClients (delete k) (set_clients (delete k) st))).
Proof.
  eapply evolves_trans; [apply evolves_clients_delete|].
  eapply evolves_trans; [apply evolves_set_authenticatedClients|].
  apply evolves_removeFromPollSubscriptions.
Qed.

Lemma evolves_cleanup_step now k r st : evolves st (cleanup_step now k r st).
Proof.
  unfold cleanup_step. destruct (conns st !! r) as [c|]; [|apply evolves_refl].
  case_decide; [|apply evolves_refl].
  eapply evolves_trans; [|apply evolves_removal].
  case_decide; [apply evolves_ws_close|apply evolves_refl].
Qed.

Lemma evolves_cleanupInactiveConnections now st :
  evolves st (cleanupInactiveConnections now st).
Proof. apply map_fold_evolves. intros k r st'. apply evolves_cleanup_step. Qed.

Lemma evolves_on_close n st : evolves st (on_close n st).
Proof.
  unfold on_close. destruct (conns st !! n) as [c|]; [|apply evolves_refl].
  eapply evolves_trans; [apply evolves_transport_change|apply evolves_removal].
Qed.

Lemma evolves_on_pingInterval n now st : evolves st (on_pingInterval n now st).
Proof.
  unfold on_pingInterval. destruct (conns st !! n) as [c|]; [|apply evolves_refl].
  destruct (pingInterval c); [|apply evolves_refl].
  case_decide; [|by apply evolves_update_conn].
  eapply evolves_trans; by apply evolves_update_conn.
Qed.

Lemma evolves_on_pong n now st : evolves st (on_pong n now st).
Proof. by apply evolves_update_conn. Qed.

Lemma evolves_on_connection random36 remoteAddress ua now st :
  evolves st (state_of (on_connection random36 remoteAddress ua now st)).
Proof.
  unfold on_connection.
  set (k := generateClientId random36 now).
  set (st2 := set_clients _ _).
  eapply evolves_trans; [|by apply evolves_ws_send].
  split; subst st2; simpl.
  - intros n c Hn. exists c. split; [|done].
    by apply lookup_app_l_Some.
  - intros k' r. rewrite lookup_insert_Some.
    intros [[<- <-]|[_ ?]]; [right|by left].
    split; [lia|]. eexists.
    split; [by rewrite lookup_app_r, Nat.sub_diag|done].
  - intros n Hn _. unfold pollUpdates_of, sent_of; simpl.
    by rewrite lookup_app_l.
Qed.

Section RouterProps.
Variable jwt_verify : Z → JsVal → option JsVal.

Lemma evolves_handleAuthentication clientId token n now st :
  evolves st (state_of (handleAuthentication jwt_verify clientId token n now st)).
Proof.
  unfold handleAuthentication.
  destruct (negb (truthy token)); [by apply evolves_ws_send|].
  destruct (jwt_verify now token) as [uid|]; [|by apply evolves_ws_send].
  apply evolves_try_catch; [|intros st'; by apply evolves_ws_send].
  eapply evolves_trans; [|by apply evolves_ws_send].
  eapply evolves_trans;
    [by apply (evolves_update_clientInfo clientId (set_authenticated uid now))|].
  apply evolves_set_authenticatedClients.
Qed.

Lemma evolves_handleMessage clientId type pollId token n now st :
  evolves st (state_of (handleMessage jwt_verify clientId type pollId token n now st)).
Proof.
  unfold handleMessage.
  eapply evolves_trans; [by apply (evolves_update_clientInfo clientId (set_lastActivity now))|].
  repeat match goal with
  | |- context [if ?b then _ else _] => destruct b
  end;
  try (by apply evolves_ws_send);
  try apply evolves_handleAuthentication.
  - eapply evolves_trans; [apply evolves_subscribeToPoll|by apply evolves_ws_send].
  - eapply evolves_trans; [apply evolves_unsubscribeFromPoll|by apply evolves_ws_send].
Qed.

Lemma evolves_on_message n message now st :
  evolves st (state_of (on_message jwt_verify n message now st)).
Proof.
  unfold on_message. destruct (conns st !! n) as [c|]; [|apply evolves_refl].
  apply evolves_try_catch; [|intros st'; by apply evolves_ws_send].
  destruct message; [apply evolves_refl..|apply evolves_handleMessage].
Qed.

Lemma evolves_step e st : evolves st (state_of (step jwt_verify e st)).
Proof.
  destruct e; simpl.
  - apply evolves_on_connection.
  - apply evolves_on_message.
  - apply evolves_on_close.
  - apply evolves_on_pingInterval.
  - apply evolves_on_pong.
  - apply evolves_cleanupInactiveConnections.
  - apply evolves_broadcastPollUpdate.
  - apply evolves_transport_change.
Qed.

Lemma evolves_run es st : evolves st (run jwt_verify es st).
Proof.
  revert st. induction es as [|e es IH]; intros st; simpl;
    [apply evolves_refl|].
  eapply evolves_trans; [apply evolves_step|apply IH].
Qed.

Lemma wf_initial : wf initial.
Proof. intros k r. simpl. by rewrite lookup_empty. Qed.

Lemma wf_run es st : wf st → wf (run jwt_verify es st).
Proof. apply evolves_wf, evolves_run. Qed.
End RouterProps.

(** ** The sweeper's loop *)

Lemma cleanup_fold_inv now st (m : gmap string nat) :
  wf st → m ⊆ clients st →
  cleanup_inv now st (map_fold (cleanup_step now) st m) m.
Proof.
  intros Hwf.
  apply (map_fold_weak_ind (λ r m, m ⊆ clients st → cleanup_inv now st r m));
    clear m.
  - intros _. split.
    + intros k. by rewrite lookup_empty.
    + intros k. by rewrite lookup_empty.
    + intros n. destruct (conns st !! n) as [c|]; simpl; [|done].
      rewrite decide_False; [done|]. rewrite lookup_empty. by intros [? _].
    + intros p s' Hp. split; [eauto|]. intros k r. by rewrite lookup_empty.
  - intros i x m st' Hi IH Hsub.
    assert (Hm : m ⊆ clients st).
    { etrans; [|exact Hsub]. by apply insert_subseteq. }
    destruct (IH Hm) as [I1 I2 I3 I4]. clear IH.
    assert (Hix : clients st !! i = Some x).
    { eapply lookup_weaken; [|exact Hsub]. apply lookup_insert_eq. }
    destruct (Hwf _ _ Hix) as (c & Hc & Hid).
    assert (Hc' : conns st' !! x = Some c).
    { rewrite I3, Hc. simpl. rewrite decide_False; [done|].
      rewrite Hid, Hi. by intros [? _]. }
    assert (Hst : stale now st x =
      bool_decide (now - lastActivity_of (info c) > inactivityThreshold)).
    { unfold stale. by rewrite Hc. }
    unfold cleanup_step. rewrite Hc'.
    destruct (decide (now - lastActivity_of (info c) > inactivityThreshold))
      as [Hs|Hs].
    + rewrite bool_decide_eq_true_2 in Hst by done.
      set (st1 := if decide (readyState (ws c) = OPEN)
                  then ws_close x 1000 "Inactive connection cleanup" st'
                  else st').
      assert (Hk1 : clients st1 = clients st') by (subst st1; by case_decide).
      assert (Ha1 : authenticatedClients st1 = authenticatedClients st')
        by (subst st1; by case_decide).
      assert (Hp1 : pollSubscriptions st1 = pollSubscriptions st')
        by (subst st1; by case_decide).
      split.
      * intros k. st_simpl. rewrite Hk1. destruct (decide (i = k)) as [<-|Hik].
        -- by rewrite lookup_insert_eq, Hst, lookup_delete_eq.
        -- rewrite lookup_insert_ne, lookup_delete_ne by done. apply I1.
      * intros k. st_simpl. rewrite Ha1. destruct (decide (i = k)) as [<-|Hik].
        -- by rewrite lookup_insert_eq, Hst, lookup_delete_eq.
        -- rewrite lookup_insert_ne, lookup_delete_ne by done. apply I2.
      * intros n. st_simpl.
        assert (Hequiv : ∀ c0, conns st !! n = Some c0 → n ≠ x →
          (<[i:=x]> m !! id (info c0) = Some n ∧ stale now st n = true ∧
             readyState (ws c0) = OPEN) ↔
          (m !! id (info c0) = Some n ∧ stale now st n = true ∧
             readyState (ws c0) = OPEN)).
        { intros c0 Hc0 Hnx.
          destruct (decide (i = id (info c0))) as [<-|Hne].
          - rewrite lookup_insert_eq, Hi. split; intros [? _]; congruence.
          - by rewrite lookup_insert_ne. }
        subst st1.
        destruct (decide (readyState (ws c) = OPEN)) as [Hopen|Hopen]; st_simpl.
        -- rewrite conns_update_conn.
           destruct (decide (x = n)) as [<-|Hxn].
           ++ rewrite Hc', Hc. simpl. rewrite decide_True; [done|].
              by rewrite Hid, lookup_insert_eq.
           ++ rewrite I3. destruct (conns st !! n) as [c0|] eqn:Hc0; simpl; [|done].
              f_equal. apply decide_ext. symmetry. by apply Hequiv.
        -- rewrite I3.
           destruct (conns st !! n) as [c0|] eqn:Hc0; simpl; [|done].
           f_equal. destruct (decide (x = n)) as [<-|Hxn].
           ++ assert (c0 = c) as -> by congruence.
              rewrite !decide_False; [done| |]; intros (_ & _ & ?); done.
           ++ apply decide_ext. symmetry. by apply Hequiv.
      * intros p s' Hp.
        apply removeFromPollSubscriptions_subseteq in Hp as (s0 & Hp0 & ->).
        st_simpl. rewrite Hp1 in Hp0.
        destruct (I4 _ _ Hp0) as [(s & Hs0 & Hsub0) Hout].
        split; [exists s; split; [done|set_solver]|].
        intros k r. destruct (decide (i = k)) as [<-|Hik].
        -- set_solver.
        -- rewrite lookup_insert_ne by done. intros Hk Hr.
           specialize (Hout _ _ Hk Hr). set_solver.
    + rewrite bool_decide_eq_false_2 in Hst by done.
      split.
      * intros k. rewrite I1. destruct (decide (i = k)) as [<-|Hik].
        -- by rewrite lookup_insert_eq, Hst, Hi.
        -- by rewrite lookup_insert_ne.
      * intros k. rewrite I2. destruct (decide (i = k)) as [<-|Hik].
        -- by rewrite lookup_insert_eq, Hst, Hi.
        -- by rewrite lookup_insert_ne.
      * intros n. rewrite I3.
        destruct (conns st !! n) as [c0|] eqn:Hc0; simpl; [|done].
        f_equal. apply decide_ext.
        destruct (decide (i = id (info c0))) as [<-|Hne].
        -- rewrite lookup_insert_eq, Hi. split; [intros [? _]; done|].
           intros ([= <-] & ? & _). congruence.
        -- by rewrite lookup_insert_ne.
      * intros p s' Hp. destruct (I4 _ _ Hp) as [Hs0 Hout].
        split; [done|]. intros k r. destruct (decide (i = k)) as [<-|Hik].
        -- rewrite lookup_insert_eq. intros [= <-]. congruence.
        -- rewrite lookup_insert_ne by done. apply Hout.
Qed.

Lemma cleanupInactiveConnections_inv now st :
  wf st →
  cleanup_inv now st (cleanupInactiveConnections now st) (clients st).
Proof. intros Hwf. by apply cleanup_fold_inv. Qed.

(** ** Partial-failure isolation *)

Lemma broadcast_delivers st T message subs a A :
  wf st → A ∈ subs → clients st !! A = Some a → delivery st A = Delivers →
  sent_of (broadcast_loop T message subs st).1.1 a = sent_of st a ++ [message].
Proof.
  intros Hwf HA Ha Hd.
  destruct (broadcast_loop_inv st T message subs Hwf) as [_ _ _ I4 _].
  destruct (Hwf _ _ Ha) as (c & Hc & Hid).
  unfold sent_of. rewrite I4, Hc. simpl.
  rewrite decide_True; [done|]. by rewrite Hid.
Qed.

Lemma broadcast_subscribers st T message subs :
  wf st → pollSubscriptions st !! T = Some subs →
  subscribers_of (broadcast_loop T message subs st).1.1 T =
    subs ∖ filter (λ k, delivery st k ≠ Delivers) subs.
Proof.
  intros Hwf HT.
  destruct (broadcast_loop_inv st T message subs Hwf) as [_ _ I3 _ _].
  unfold subscribers_of. by rewrite I3, decide_True, HT.
Qed.

(** C1. Publishing to a topic hands the frame to every subscriber whose
    socket accepts it, whatever happens with the others: with [A], [B] and
    [C] subscribed to [T], a failing send to [B] (the socket raises, is not
    open, or the record is gone) leaves [A] and [C] with the frame, takes
    [B] out of [T]'s subscriber set and the call returns normally.  The
    call raises only when the payload cannot be serialized. *)
Theorem C1_partial_failure_isolation st T poll now subs A B C a c :
  wf st →
  pollSubscriptions st !! T = Some subs →
  A ∈ subs → B ∈ subs → C ∈ subs →
  clients st !! A = Some a → delivery st A = Delivers →
  clients st !! C = Some c → delivery st C = Delivers →
  delivery st B ≠ Delivers →
  (∃ st', broadcastPollUpdate T (Some poll) now st = Returned st' ∧
     sent_of st' a = sent_of st a ++ [FPollUpdate T poll now] ∧
     sent_of st' c = sent_of st c ++ [FPollUpdate T poll now] ∧
     A ∈ subscribers_of st' T ∧ C ∈ subscribers_of st' T ∧
     B ∉ subscribers_of st' T) ∧
  (∀ pollData st', broadcastPollUpdate T pollData now st = Thrown st' →
     pollData = None).
Proof.
  intros Hwf HT HA HB HC Ha HdA Hc HdC HdB. split.
  - unfold broadcastPollUpdate. rewrite HT. eexists. split; [done|].
    rewrite (broadcast_delivers _ _ _ _ a A), (broadcast_delivers _ _ _ _ c C),
      broadcast_subscribers by done.
    repeat split; try done; set_solver.
  - intros pollData st'. unfold broadcastPollUpdate. rewrite HT.
    by destruct pollData.
Qed.

(** ** Self-healing on a failed send *)

(** C2. When the send to a subscriber raises during a publish on ["T"],
    the loop deletes the client from the registry and from the subscriber
    set of ["T"], and that is all: the client stays in the subscriber set
    of ["U"] and in [authenticatedClients], where the 'close' callback and
    the sweeper would have removed it.  When the socket is not open, the
    client is not even removed from the registry. *)
Theorem C2_failed_send_leaves_other_topics :
  "b2" ∈ subscribers_of example_state (JStr "T") ∧
  "b2" ∈ subscribers_of example_state (JStr "U") ∧
  delivery example_state "b2" = Raises ∧
  clients example_after_raise !! "b2" = None ∧
  ("b2" ∉ subscribers_of example_after_raise (JStr "T")) ∧
  "b2" ∈ subscribers_of example_after_raise (JStr "U") ∧
  is_Some (authenticatedClients example_after_raise !! "b2") ∧
  clients example_after_closing !! "b2" = Some 1%nat ∧
  "b2" ∈ subscribers_of example_after_closing (JStr "U").
Proof.
  repeat split.
  all: try (refine (bool_decide_unpack _ _); vm_compute; exact I).
  all: vm_compute; reflexivity.
Qed.

(** ** Empty topics *)

Lemma no_empty_topic_subscribeToPoll k p st :
  no_empty_topic st → no_empty_topic (subscribeToPoll k p st).
Proof.
  intros Hne q s. rewrite subscribeToPoll_lookup.
  case_decide; [|apply Hne]. intros [= <-]. set_solver.
Qed.

Lemma no_empty_topic_unsubscribeFromPoll k p st :
  no_empty_topic st → no_empty_topic (unsubscribeFromPoll k p st).
Proof.
  intros Hne q s. rewrite unsubscribeFromPoll_lookup.
  case_decide; [|apply Hne].
  destruct (pollSubscriptions st !! q) as [s0|]; simpl; [|done].
  case_decide as Hz; [done|]. intros [= <-] He. apply Hz.
  by rewrite He, size_empty.
Qed.

(** [removeFromPollSubscriptions] leaves no empty set behind, whatever the
    index looked like before. *)
Lemma no_empty_topic_removeFromPollSubscriptions k st :
  no_empty_topic (removeFromPollSubscriptions k st).
Proof.
  intros q s. rewrite removeFromPollSubscriptions_lookup.
  destruct (pollSubscriptions st !! q) as [s0|]; simpl; [|done].
  case_decide as Hz; [done|]. intros [= <-] He. apply Hz.
  by rewrite He, size_empty.
Qed.

Lemma no_empty_topic_on_close n st :
  no_empty_topic st → no_empty_topic (on_close n st).
Proof.
  intros Hne. unfold on_close. destruct (conns st !! n); [|done].
  apply no_empty_topic_removeFromPollSubscriptions.
Qed.

Lemma no_empty_topic_cleanupInactiveConnections now st :
  no_empty_topic st → no_empty_topic (cleanupInactiveConnections now st).
Proof.
  intros Hne. unfold cleanupInactiveConnections.
  apply (map_fold_weak_ind (λ r _, no_empty_topic r)); [done|].
  intros k r m st' _ IH. unfold cleanup_step.
  destruct (conns st' !! r); [|done]. case_decide; [|done].
  apply no_empty_topic_removeFromPollSubscriptions.
Qed.

(** C3. Subscribing, unsubscribing and the removal on disconnect keep the
    index free of empty subscriber sets (the lemmas above), the broadcast
    loop does not: after a publish on ["U"], whose only subscriber has a
    raising transport, ["U"] is still a key of [pollSubscriptions] and is
    mapped to the empty set. *)
Theorem C3_publish_leaves_empty_topic :
  pollSubscriptions example_state !! JStr "U" = Some {[ "b2" ]} ∧
  pollSubscriptions
    (state_of (broadcastPollUpdate (JStr "U") (Some "{}") 7 example_state))
    !! JStr "U" = Some ∅ ∧
  ¬ no_empty_topic
      (state_of (broadcastPollUpdate (JStr "U") (Some "{}") 7 example_state)).
Proof.
  split; [vm_compute; reflexivity|]. split; [vm_compute; reflexivity|].
  intros Hne. apply (Hne (JStr "U") ∅); [vm_compute|]; reflexivity.
Qed.

(** ** Disconnect cleanup *)

Lemma unreferenced_pollUpdates_run jwt_verify es st n :
  (n < length (conns st))%nat → unreferenced st n →
  pollUpdates_of (run jwt_verify es st) n = pollUpdates_of st n.
Proof. intros Hn Hu. by apply (ev_pollUpdates _ _ (evolves_run jwt_verify es st)). Qed.

Lemma on_close_removed st n c :
  wf st → conns st !! n = Some c →
  clients (on_close n st) !! id (info c) = None ∧
  authenticatedClients (on_close n st) !! id (info c) = None ∧
  unreferenced (on_close n st) n ∧
  ∀ p s, pollSubscriptions (on_close n st) !! p = Some s → id (info c) ∉ s.
Proof.
  intros Hwf Hc. unfold on_close. rewrite Hc. st_simpl.
  split; [apply lookup_delete_eq|]. split; [apply lookup_delete_eq|]. split.
  - intros k Hk. st_simpl. apply lookup_delete_Some in Hk as [Hk Hkn].
    destruct (Hwf _ _ Hkn) as (c' & Hc' & Hid). congruence.
  - intros p s. apply removeFromPollSubscriptions_absent.
Qed.

Lemma cleanup_removed now st k n :
  wf st → clients st !! k = Some n → stale now st n = true →
  clients (cleanupInactiveConnections now st) !! k = None ∧
  authenticatedClients (cleanupInactiveConnections now st) !! k = None ∧
  unreferenced (cleanupInactiveConnections now st) n ∧
  ∀ p s, pollSubscriptions (cleanupInactiveConnections now st) !! p = Some s →
         k ∉ s.
Proof.
  intros Hwf Hk Hs.
  destruct (cleanupInactiveConnections_inv now st Hwf) as [I1 I2 I3 I4].
  assert (Hgone : clients (cleanupInactiveConnections now st) !! k = None).
  { by rewrite I1, Hk, Hs. }
  split; [done|]. split; [by rewrite I2, Hk, Hs|]. split.
  - intros k' Hk'. assert (Hk0 : clients st !! k' = Some n).
    { rewrite I1 in Hk'. destruct (clients st !! k') as [r|]; [|done].
      by destruct (stale now st r). }
    destruct (Hwf _ _ Hk) as (c & Hc & Hid).
    destruct (Hwf _ _ Hk0) as (c' & Hc' & Hid'). congruence.
  - intros p s Hp. destruct (I4 _ _ Hp) as [_ Hout]. by eapply Hout.
Qed.

Section Disconnect.
Variable jwt_verify : Z → JsVal → option JsVal.

(** C4. Once the 'close' callback of a connection has run, or the sweeper
    has evicted it as inactive, its id is a key of neither [clients] nor
    [authenticatedClients], no entry of the registry refers to it and its
    id is in no subscriber set.  Whatever happens afterwards, no entry of
    the registry refers to it again, so that the broadcast loop, which
    sends to the sockets of registry entries only, has no way to it, and no
    [pollUpdate] frame is handed to its socket. *)
Theorem C4_disconnect_cleanup st n c now st' :
  wf st → conns st !! n = Some c →
  st' = on_close n st ∨
    (clients st !! id (info c) = Some n ∧ stale now st n = true ∧
     st' = cleanupInactiveConnections now st) →
  clients st' !! id (info c) = None ∧
  authenticatedClients st' !! id (info c) = None ∧
  unreferenced st' n ∧
  (∀ p s, pollSubscriptions st' !! p = Some s → id (info c) ∉ s) ∧
  ∀ es, unreferenced (run jwt_verify es st') n ∧
        pollUpdates_of (run jwt_verify es st') n = pollUpdates_of st' n.
Proof.
  intros Hwf Hc Hst'.
  assert (Hev : evolves st st').
  { destruct Hst' as [->|(_ & _ & ->)];
      [apply evolves_on_close|apply evolves_cleanupInactiveConnections]. }
  assert (Hlen : (n < length (conns st'))%nat).
  { destruct (ev_heap _ _ Hev _ _ Hc) as (c' & Hc' & _).
    by eapply lookup_lt_Some. }
  assert (Hrem : clients st' !! id (info c) = None ∧
    authenticatedClients st' !! id (info c) = None ∧
    unreferenced st' n ∧
    ∀ p s, pollSubscriptions st' !! p = Some s → id (info c) ∉ s).
  { destruct Hst' as [->|(Hk & Hs & ->)];
      [by apply on_close_removed|by apply cleanup_removed]. }
  destruct Hrem as (H1 & H2 & H3 & H4).
  repeat split; try done.
  - by apply (evolves_unreferenced st'); [apply evolves_run|..].
  - by apply unreferenced_pollUpdates_run.
Qed.

End Disconnect.

(** ** Running the router *)

Lemma can_send_update_conn m f st n :
  (∀ c, sendThrows (ws (f c)) = sendThrows (ws c)) →
  can_send st n → can_send (update_conn m f st) n.
Proof.
  intros Hf (c & Hc & Ht). unfold can_send. rewrite conns_update_conn.
  case_decide; [subst m|eauto]. rewrite Hc. simpl.
  eexists. split; [done|]. by rewrite Hf.
Qed.

Lemma can_send_update_clientInfo k f st n :
  can_send st n → can_send (update_clientInfo k f st) n.
Proof.
  intros Hs. unfold update_clientInfo. destruct (clients st !! k); [|done].
  by apply can_send_update_conn.
Qed.

Lemma ws_send_can_send n frame st :
  can_send st n →
  ws_send n frame st = Returned (update_conn n (push_frames [frame]) st).
Proof. intros (c & Hc & Ht). by eapply ws_send_returned. Qed.

Lemma isClientAuthenticated_update_conn n f st k :
  (∀ c, authenticated (info (f c)) = authenticated (info c)) →
  isClientAuthenticated (update_conn n f st) k = isClientAuthenticated st k.
Proof.
  intros Hf. unfold isClientAuthenticated, clientInfo_of. st_simpl.
  destruct (clients st !! k) as [r|]; [|done]. cbn [mbind option_bind].
  rewrite conns_update_conn. case_decide; [|done].
  destruct (conns st !! r); simpl; [apply Hf|done].
Qed.

Lemma isClientAuthenticated_update_clientInfo k' f st k :
  (∀ i, authenticated (f i) = authenticated i) →
  isClientAuthenticated (update_clientInfo k' f st) k = isClientAuthenticated st k.
Proof.
  intros Hf. unfold update_clientInfo. destruct (clients st !! k'); [|done].
  apply isClientAuthenticated_update_conn. intros c. apply Hf.
Qed.

Lemma clientInfo_of_update_clientInfo k f st :
  clientInfo_of (update_clientInfo k f st) k = f <$> clientInfo_of st k.
Proof.
  unfold update_clientInfo, clientInfo_of.
  destruct (clients st !! k) as [r|] eqn:Hr; [|by rewrite Hr].
  st_simpl. rewrite Hr. cbn [mbind option_bind].
  rewrite conns_update_conn, decide_True by done.
  by destruct (conns st !! r).
Qed.

Lemma clientInfo_of_update_conn_ws n f st k :
  clientInfo_of (update_conn n (with_ws f) st) k = clientInfo_of st k.
Proof.
  unfold clientInfo_of. st_simpl.
  destruct (clients st !! k) as [r|]; [|done]. cbn [mbind option_bind].
  rewrite conns_update_conn. case_decide; [|done]. by destruct (conns st !! r).
Qed.

Lemma clientInfo_of_push n l st k :
  clientInfo_of (update_conn n (push_frames l) st) k = clientInfo_of st k.
Proof. apply clientInfo_of_update_conn_ws. Qed.

Section RouterRuns.
Variable jwt_verify : Z → JsVal → option JsVal.

Lemma on_message_returned n c type pollId token now st st' :
  conns st !! n = Some c →
  handleMessage jwt_verify (id (info c)) type pollId token n now st = Returned st' →
  on_message jwt_verify n (PData type pollId token) now st = Returned st'.
Proof. intros Hc Hh. unfold on_message. by rewrite Hc, Hh. Qed.

Lemma handleMessage_subscribe k pollId token n now st :
  can_send st n → truthy pollId = true →
  handleMessage jwt_verify k (JStr "subscribe") pollId token n now st =
    let st1 := update_clientInfo k (set_lastActivity now) st in
    Returned
      (if isClientAuthenticated st k
       then update_conn n (push_frames [FSubscribed pollId])
              (subscribeToPoll k pollId st1)
       else update_conn n
              (push_frames [FError "Authentication required for poll subscriptions"])
              st1).
Proof.
  intros Hs Hp. unfold handleMessage.
  change (is_type (JStr "subscribe") "authenticate") with false.
  change (is_type (JStr "subscribe") "subscribe") with true.
  cbv iota zeta. rewrite Hp. cbn [negb].
  rewrite isClientAuthenticated_update_clientInfo by done.
  pose proof (can_send_update_clientInfo k (set_lastActivity now) _ _ Hs) as Hs1.
  destruct (isClientAuthenticated st k); cbn [negb].
  - apply ws_send_can_send.
    unfold subscribeToPoll. by case_decide.
  - by apply ws_send_can_send.
Qed.

Lemma handleMessage_authenticate_ok k pollId token uid n now st :
  can_send st n → truthy token = true → jwt_verify now token = Some uid →
  handleMessage jwt_verify k (JStr "authenticate") pollId token n now st =
    Returned
      (update_conn n (push_frames [FAuthenticated uid])
         (set_authenticatedClients <[k := (uid, now)]>
            (update_clientInfo k (set_authenticated uid now)
               (update_clientInfo k (set_lastActivity now) st)))).
Proof.
  intros Hs Ht Hv. unfold handleMessage.
  change (is_type (JStr "authenticate") "authenticate") with true.
  cbv iota zeta. unfold handleAuthentication. rewrite Ht, Hv. cbn [negb].
  rewrite ws_send_can_send; [done|].
  by do 2 apply can_send_update_clientInfo.
Qed.

Lemma handleMessage_authenticate_fail k pollId token n now st :
  can_send st n → truthy token = false ∨ jwt_verify now token = None →
  handleMessage jwt_verify k (JStr "authenticate") pollId token n now st =
    Returned
      (update_conn n
         (push_frames [FAuthError (if truthy token
                                   then "Invalid or expired token"
                                   else "Token is required")])
         (update_clientInfo k (set_lastActivity now) st)).
Proof.
  intros Hs Hf. unfold handleMessage.
  change (is_type (JStr "authenticate") "authenticate") with true.
  cbv iota zeta. unfold handleAuthentication.
  pose proof (can_send_update_clientInfo k (set_lastActivity now) _ _ Hs) as Hs1.
  destruct (truthy token); cbn [negb]; [|by apply ws_send_can_send].
  destruct Hf as [?| ->]; [done|]. by apply ws_send_can_send.
Qed.


End RouterRuns.

Lemma clients_update_clientInfo k f st :
  clients (update_clientInfo k f st) = clients st.
Proof. unfold update_clientInfo. by destruct (clients st !! k). Qed.

Lemma pollSubscriptions_update_clientInfo k f st :
  pollSubscriptions (update_clientInfo k f st) = pollSubscriptions st.
Proof. unfold update_clientInfo. by destruct (clients st !! k). Qed.

Lemma authenticatedClients_update_clientInfo k f st :
  authenticatedClients (update_clientInfo k f st) = authenticatedClients st.
Proof. unfold update_clientInfo. by destruct (clients st !! k). Qed.

Lemma sent_of_update_clientInfo k f st n :
  sent_of (update_clientInfo k f st) n = sent_of st n.
Proof.
  unfold update_clientInfo. destruct (clients st !! k); [|done].
  by apply sent_of_update_conn.
Qed.

Lemma readyState_update_conn n f st m :
  (∀ c, readyState (ws (f c)) = readyState (ws c)) →
  readyState ∘ ws <$> conns (update_conn n f st) !! m =
  readyState ∘ ws <$> conns st !! m.
Proof.
  intros Hf. rewrite conns_update_conn. case_decide; [|done].
  destruct (conns st !! m); simpl; [by rewrite Hf|done].
Qed.

Lemma readyState_update_clientInfo k f st m :
  readyState ∘ ws <$> conns (update_clientInfo k f st) !! m =
  readyState ∘ ws <$> conns st !! m.
Proof.
  unfold update_clientInfo. destruct (clients st !! k); [|done].
  by apply readyState_update_conn.
Qed.

Lemma clientInfo_of_proj_update_clientInfo {A} (g : ClientInfo → A) k f st k' :
  (∀ i, g (f i) = g i) →
  g <$> clientInfo_of (update_clientInfo k f st) k' = g <$> clientInfo_of st k'.
Proof.
  intros Hg. unfold update_clientInfo, clientInfo_of.
  destruct (clients st !! k) as [r|]; [|done]. st_simpl.
  destruct (clients st !! k') as [r'|]; [|done]. cbn [mbind option_bind].
  rewrite conns_update_conn. case_decide; [|done].
  destruct (conns st !! r'); simpl; [by rewrite Hg|done].
Qed.

Lemma conn_at_can_send st n k : conn_at st n k → can_send st n.
Proof. intros (c & ? & ? & ?). by exists c. Qed.

Lemma conn_at_update_conn m f st n k :
  (∀ c, id (info (f c)) = id (info c)) →
  (∀ c, sendThrows (ws (f c)) = sendThrows (ws c)) →
  conn_at st n k → conn_at (update_conn m f st) n k.
Proof.
  intros Hid Hf (c & Hc & Hk & Ht). unfold conn_at. rewrite conns_update_conn.
  case_decide; [subst m|eauto]. rewrite Hc. simpl.
  eexists. split; [done|]. by rewrite Hid, Hf.
Qed.

Lemma conn_at_update_clientInfo k' f st n k :
  (∀ i, id (f i) = id i) →
  conn_at st n k → conn_at (update_clientInfo k' f st) n k.
Proof.
  intros Hf Hs. unfold update_clientInfo. destruct (clients st !! k'); [|done].
  apply conn_at_update_conn; [intros c; apply Hf|done..].
Qed.

Lemma sent_of_same_heap st st' n : conns st' = conns st → sent_of st' n = sent_of st n.
Proof. intros H. unfold sent_of. by rewrite H. Qed.

Lemma conns_subscribeToPoll k p st : conns (subscribeToPoll k p st) = conns st.
Proof. unfold subscribeToPoll. by case_decide. Qed.

Lemma conns_unsubscribeFromPoll k p st : conns (unsubscribeFromPoll k p st) = conns st.
Proof.
  unfold unsubscribeFromPoll. destruct (pollSubscriptions st !! p); [|done].
  destruct (pollSubscriptions _ !! p); [|done]. by case_decide.
Qed.

Lemma conn_at_same_heap st st' n k : conns st' = conns st → conn_at st n k → conn_at st' n k.
Proof. intros H. unfold conn_at. by rewrite H. Qed.

Lemma sent_of_push_can_send n l st :
  can_send st n → sent_of (update_conn n (push_frames l) st) n = sent_of st n ++ l.
Proof. intros (c & Hc & _). by eapply sent_of_push. Qed.

Lemma subscribers_of_subscribeToPoll k p st :
  subscribers_of (subscribeToPoll k p st) p = {[k]} ∪ subscribers_of st p.
Proof.
  unfold subscribers_of at 1. by rewrite subscribeToPoll_lookup, decide_True.
Qed.

Section Gating.
Variable jwt_verify : Z → JsVal → option JsVal.

Lemma on_message_conn_at n k type pollId token now st st' :
  conn_at st n k →
  handleMessage jwt_verify k type pollId token n now st = Returned st' →
  on_message jwt_verify n (PData type pollId token) now st = Returned st'.
Proof. intros (c & Hc & <- & _). by apply on_message_returned. Qed.


End Gating.

(** ** Liveness is touched before the dispatch *)

Lemma touched_at_update_conn m f st r now :
  (∀ c, lastActivity (info (f c)) = lastActivity (info c)) →
  touched_at st r now → touched_at (update_conn m f st) r now.
Proof.
  intros Hf (c & Hc & Hl). unfold touched_at. rewrite conns_update_conn.
  case_decide; [subst m|eauto]. rewrite Hc. simpl.
  eexists. split; [done|]. by rewrite Hf.
Qed.

Lemma touched_at_same_heap st st' r now :
  conns st' = conns st → touched_at st r now → touched_at st' r now.
Proof. intros H. unfold touched_at. by rewrite H. Qed.

Lemma touched_at_update_clientInfo k f st r now :
  (∀ i, lastActivity (f i) = lastActivity i) →
  touched_at st r now → touched_at (update_clientInfo k f st) r now.
Proof.
  intros Hf Ht. unfold update_clientInfo. destruct (clients st !! k); [|done].
  apply touched_at_update_conn; [intros c; apply Hf|done].
Qed.

Lemma touched_at_ws_send n frame st r now :
  touched_at st r now → touched_at (state_of (ws_send n frame st)) r now.
Proof.
  intros Ht.
  destruct (ws_send_spec n frame st) as [[-> _]|(c & _ & _ & ->)]; [done|].
  by apply touched_at_update_conn.
Qed.

Lemma touched_at_touch k now st r c :
  clients st !! k = Some r → conns st !! r = Some c →
  touched_at (update_clientInfo k (set_lastActivity now) st) r now.
Proof.
  intros Hk Hc. unfold update_clientInfo, touched_at. rewrite Hk.
  rewrite conns_update_conn, decide_True, Hc by done. simpl. eauto.
Qed.

Section Protocol.
Variable jwt_verify : Z → JsVal → option JsVal.

Lemma touched_at_handleAuthentication k token n now' st r now :
  touched_at st r now →
  touched_at (state_of (handleAuthentication jwt_verify k token n now' st)) r now.
Proof.
  intros Ht. unfold handleAuthentication.
  destruct (negb (truthy token)); [by apply touched_at_ws_send|].
  destruct (jwt_verify now' token) as [uid|]; [|by apply touched_at_ws_send].
  match goal with |- context [try_catch ?o _] =>
    assert (Ho : touched_at (state_of o) r now) end.
  { apply touched_at_ws_send.
    apply (touched_at_same_heap
      (update_clientInfo k (set_authenticated uid now') st)); [done|].
    by apply touched_at_update_clientInfo. }
  destruct (ws_send _ _ _) as [st1|st1]; simpl in *; [done|].
  by apply touched_at_ws_send.
Qed.

Lemma handleMessage_touches k type pollId token n now st r c :
  clients st !! k = Some r → conns st !! r = Some c →
  touched_at (state_of (handleMessage jwt_verify k type pollId token n now st)) r now.
Proof.
  intros Hk Hc. pose proof (touched_at_touch k now st r c Hk Hc) as Ht.
  unfold handleMessage.
  repeat match goal with
  | |- context [if ?b then _ else _] => destruct b
  end;
  try (by apply touched_at_ws_send);
  try (by apply touched_at_handleAuthentication).
  - apply touched_at_ws_send.
    by apply (touched_at_same_heap _ _ _ _ (conns_subscribeToPoll _ _ _)).
  - apply touched_at_ws_send.
    by apply (touched_at_same_heap _ _ _ _ (conns_unsubscribeFromPoll _ _ _)).
Qed.

Lemma on_message_touches n c type pollId token now st r cr :
  conns st !! n = Some c →
  clients st !! id (info c) = Some r → conns st !! r = Some cr →
  touched_at (state_of (on_message jwt_verify n (PData type pollId token) now st))
    r now.
Proof.
  intros Hc Hk Hr. unfold on_message. rewrite Hc.
  pose proof (handleMessage_touches (id (info c)) type pollId token n now st
                r cr Hk Hr) as Ht.
  destruct (handleMessage _ _ _ _ _ _ _ _) as [st1|st1]; simpl in *; [done|].
  by apply touched_at_ws_send.
Qed.


End Protocol.

(** ** Authentication *)

Section Authentication.
Variable jwt_verify : Z → JsVal → option JsVal.

(** C6. An authenticate frame on a registered connection whose token
    verifies marks the record as authenticated, records the user id the
    token carries and is answered with [authenticated].  When the token is
    missing or does not verify, the frame is answered with [auth_error];
    apart from that frame and the [lastActivity] of the sender's record
    nothing changes: the authentication state of every record, the three
    maps and the state of every socket are as before, so the connection
    stays registered and open. *)
Theorem C6_authenticate st n c pollId token now :
  conns st !! n = Some c → sendThrows (ws c) = false →
  (∀ uid r cr,
     truthy token = true → jwt_verify now token = Some uid →
     clients st !! id (info c) = Some r → conns st !! r = Some cr →
     ∃ st' i,
       on_message jwt_verify n (PData (JStr "authenticate") pollId token) now st
         = Returned st' ∧
       clientInfo_of st' (id (info c)) = Some i ∧
       authenticated i = true ∧ userId i = uid ∧
       authenticatedClients st' !! id (info c) = Some (uid, now) ∧
       sent_of st' n = sent_of st n ++ [FAuthenticated uid]) ∧
  (truthy token = false ∨ jwt_verify now token = None →
     ∃ st' text,
       on_message jwt_verify n (PData (JStr "authenticate") pollId token) now st
         = Returned st' ∧
       st' = update_conn n (push_frames [FAuthError text])
               (update_clientInfo (id (info c)) (set_lastActivity now) st) ∧
       sent_of st' n = sent_of st n ++ [FAuthError text] ∧
       (∀ k, isClientAuthenticated st' k = isClientAuthenticated st k) ∧
       (∀ k, userId <$> clientInfo_of st' k = userId <$> clientInfo_of st k) ∧
       clients st' = clients st ∧
       authenticatedClients st' = authenticatedClients st ∧
       pollSubscriptions st' = pollSubscriptions st ∧
       (∀ m, readyState ∘ ws <$> conns st' !! m = readyState ∘ ws <$> conns st !! m)).
Proof.
  intros Hc Ht. set (k := id (info c)).
  assert (Hat : conn_at st n k) by (by exists c).
  assert (Hat1 : conn_at (update_clientInfo k (set_lastActivity now) st) n k)
    by (by apply conn_at_update_clientInfo).
  split.
  - intros uid r cr Htok Hv Hk Hr.
    eexists _, _. split.
    { apply (on_message_conn_at _ _ k); [done|].
      apply handleMessage_authenticate_ok; [by eapply conn_at_can_send|done..]. }
    rewrite clientInfo_of_push.
    match goal with |- context [set_authenticatedClients ?f ?a] =>
      change (clientInfo_of (set_authenticatedClients f a) k)
        with (clientInfo_of a k) end.
    rewrite !clientInfo_of_update_clientInfo.
    unfold clientInfo_of at 1. rewrite Hk. cbn [mbind option_bind].
    rewrite Hr. cbn [fmap option_fmap option_map].
    split; [done|]. split; [done|]. split; [done|]. split.
    + st_simpl. apply lookup_insert_eq.
    + rewrite sent_of_push_can_send.
      * match goal with |- context [set_authenticatedClients ?f ?a] =>
          rewrite (sent_of_same_heap a (set_authenticatedClients f a)) by done
        end.
        by rewrite !sent_of_update_clientInfo.
      * apply conn_at_can_send with k.
        match goal with |- context [set_authenticatedClients ?f ?a] =>
          apply (conn_at_same_heap a); [done|] end.
        by apply conn_at_update_clientInfo.
  - intros Hf. eexists _, _. split.
    { apply (on_message_conn_at _ _ k); [done|].
      apply handleMessage_authenticate_fail; [by eapply conn_at_can_send|done]. }
    split; [done|]. split.
    { rewrite sent_of_push_can_send, sent_of_update_clientInfo; [done|].
      by eapply conn_at_can_send. }
    st_simpl.
    rewrite clients_update_clientInfo, pollSubscriptions_update_clientInfo,
      authenticatedClients_update_clientInfo.
    repeat split; try done.
    + intros k'. rewrite isClientAuthenticated_update_conn by done.
      by apply isClientAuthenticated_update_clientInfo.
    + intros k'. rewrite clientInfo_of_push.
      by apply clientInfo_of_proj_update_clientInfo.
    + intros m. rewrite readyState_update_conn by done.
      apply readyState_update_clientInfo.
Qed.

End Authentication.

(** ** Idempotent subscribe *)

Lemma State_eq st st' :
  conns st = conns st' → clients st = clients st' →
  pollSubscriptions st = pollSubscriptions st' →
  authenticatedClients st = authenticatedClients st' → st = st'.
Proof. destruct st, st'; simpl; by intros -> -> -> ->. Qed.

Lemma clients_subscribeToPoll k p st : clients (subscribeToPoll k p st) = clients st.
Proof. unfold subscribeToPoll. by case_decide. Qed.

Lemma authenticatedClients_subscribeToPoll k p st :
  authenticatedClients (subscribeToPoll k p st) = authenticatedClients st.
Proof. unfold subscribeToPoll. by case_decide. Qed.


Section Idempotence.
Variable jwt_verify : Z → JsVal → option JsVal.


End Idempotence.

(** ** The sweeper *)

Lemma lastActivity_of_on_pong n now st c :
  conns st !! n = Some c →
  ∃ c', conns (on_pong n now st) !! n = Some c' ∧
        lastActivity_of (info c') = default now (lastActivity (info c)).
Proof.
  intros Hc. unfold on_pong. rewrite conns_update_conn, decide_True, Hc by done.
  simpl. eexists. split; [done|]. unfold lastActivity_of. simpl.
  by destruct (lastActivity (info c)).
Qed.

Lemma lastActivity_of_on_pingInterval n now st c :
  conns st !! n = Some c → pingInterval c = true → readyState (ws c) = OPEN →
  ∃ c', conns (on_pingInterval n now st) !! n = Some c' ∧
        lastActivity_of (info c') = default now (lastActivity (info c)).
Proof.
  intros Hc Hp Ho. unfold on_pingInterval. rewrite Hc, Hp, decide_True by done.
  unfold ws_ping. rewrite !conns_update_conn, !decide_True, Hc by done.
  simpl. eexists. split; [done|]. unfold lastActivity_of. simpl.
  by destruct (lastActivity (info c)).
Qed.

Section Sweeper.
Variable jwt_verify : Z → JsVal → option JsVal.

(** C7 (as the code has it). The sweeper goes by [lastActivity] when the
    record has one and by [lastPing] otherwise.  A registered connection
    for which that time is more than five minutes old when the sweeper
    runs has its socket closed, if it was open, and is removed from
    [clients], from [authenticatedClients] and from every subscriber set;
    the other registered connections stay.  A message that reaches
    [handleMessage] sets [lastActivity]; a pong and a turn of the ping
    interval on an open socket set [lastPing], which the sweeper looks at
    only while the record has no [lastActivity]. *)
Theorem C7_sweeper_evicts_stale st k r c now :
  wf st → clients st !! k = Some r → conns st !! r = Some c →
  (now - lastActivity_of (info c) > inactivityThreshold →
     clients (cleanupInactiveConnections now st) !! k = None ∧
     authenticatedClients (cleanupInactiveConnections now st) !! k = None ∧
     (∀ p s, pollSubscriptions (cleanupInactiveConnections now st) !! p = Some s →
             k ∉ s) ∧
     ∃ c', conns (cleanupInactiveConnections now st) !! r = Some c' ∧
           readyState (ws c') ≠ OPEN ∧
           (readyState (ws c) = OPEN →
              readyState (ws c') = CLOSING ∧
              closeCall (ws c') = Some (1000, "Inactive connection cleanup"))) ∧
  (now - lastActivity_of (info c) ≤ inactivityThreshold →
     clients (cleanupInactiveConnections now st) !! k = Some r) ∧
  (∀ type pollId token t, ∃ c',
     conns (state_of (on_message jwt_verify r (PData type pollId token) t st)) !! r
       = Some c' ∧
     lastActivity_of (info c') = t) ∧
  (∀ t, ∃ c', conns (on_pong r t st) !! r = Some c' ∧
     lastActivity_of (info c') = default t (lastActivity (info c))) ∧
  (∀ t, pingInterval c = true → readyState (ws c) = OPEN →
     ∃ c', conns (on_pingInterval r t st) !! r = Some c' ∧
     lastActivity_of (info c') = default t (lastActivity (info c))).
Proof.
  intros Hwf Hk Hc.
  destruct (cleanupInactiveConnections_inv now st Hwf) as [I1 I2 I3 I4].
  destruct (Hwf _ _ Hk) as (c0 & Hc0 & Hid).
  assert (c0 = c) as -> by congruence.
  repeat split.
  - rewrite I1, Hk. unfold stale. rewrite Hc.
    by rewrite bool_decide_eq_true_2.
  - rewrite I2, Hk. unfold stale. rewrite Hc.
    by rewrite bool_decide_eq_true_2.
  - intros p s Hp. destruct (I4 _ _ Hp) as [_ Hout]. eapply Hout; [done|].
    unfold stale. rewrite Hc. by rewrite bool_decide_eq_true_2.
  - rewrite I3, Hc. simpl. eexists. split; [done|].
    assert (Hs : stale now st r = true).
    { unfold stale. rewrite Hc. by rewrite bool_decide_eq_true_2. }
    destruct (decide (readyState (ws c) = OPEN)) as [Ho|Ho].
    + rewrite decide_True by (by rewrite Hid). simpl. split; [done|]. done.
    + rewrite decide_False by (intros (_ & _ & ?); done). split; [done|]. done.
  - intros Hfresh. rewrite I1, Hk. unfold stale. rewrite Hc.
    rewrite bool_decide_eq_false_2; [done|lia].
  - intros type pollId token t.
    destruct (on_message_touches jwt_verify r c type pollId token t st r c)
      as (c' & Hc' & Hl); [done|by rewrite Hid|done|].
    exists c'. split; [done|]. unfold lastActivity_of. by rewrite Hl.
  - intros t. by apply lastActivity_of_on_pong.
  - intros t Hp Ho. by apply lastActivity_of_on_pingInterval.
Qed.

End Sweeper.

(** C7 as stated fails.  A connection is accepted at time 0 and nothing
    is heard from it: no message, no pong.  Its ping interval runs every 30 seconds, the sweeper
    every two minutes.  At the run of the sweeper at 8 minutes, which is
    past the five-minute threshold plus one period of the sweeper, the
    connection is still registered. *)
Lemma C7_silent_connection_stays :
  ¬ (∀ random36 remoteAddress ua t0 timers t,
       Forall (λ e, is_timer e = true) timers →
       t - t0 > inactivityThreshold + cleanupPeriod →
       clients (run example_verify
                  (EConnection random36 remoteAddress ua t0 :: timers ++ [ECleanup t])
                  initial)
         !! generateClientId random36 t0 = None).
Proof.
  intros H.
  specialize (H "0.a" "10.0.0.1" "ua" 0 silent_timers 480000).
  assert (Hreg : clients (run example_verify
                  (EConnection "0.a" "10.0.0.1" "ua" 0 :: silent_timers ++ [ECleanup 480000])
                  initial) !! generateClientId "0.a" 0 = Some 0%nat)
    by (vm_compute; reflexivity).
  rewrite H in Hreg; [done| |vm_compute; reflexivity].
  unfold silent_timers, two_minutes. simpl. repeat constructor.
Qed.

(** ** Client ids *)

Lemma on_connection_returned random36 remoteAddress ua now st :
  on_connection random36 remoteAddress ua now st =
    Returned
      (update_conn (length (conns st))
         (push_frames [FConnected (generateClientId random36 now)])
         (set_clients <[generateClientId random36 now := length (conns st)]>
            (set_conns
               (λ h, h ++ [new_connection (generateClientId random36 now)
                             remoteAddress ua now]) st))).
Proof.
  unfold on_connection.
  apply ws_send_returned
    with (new_connection (generateClientId random36 now) remoteAddress ua now);
    [|done].
  simpl. by rewrite lookup_app_r, Nat.sub_diag.
Qed.

Section ClientIds.
Variable jwt_verify : Z → JsVal → option JsVal.

(** C10 (as the code has it). A connection is registered under the id
    [generateClientId] computes from the random draw and the clock.  When
    no registered connection holds that id, the registration keeps every
    entry of the registry and the new id is the key of the new connection
    only.  The id of a connection never changes afterwards, and every
    entry of the registry is filed under the id of the record it points
    at. *)
Theorem C10_registration st random36 remoteAddress ua now :
  wf st →
  ∃ st',
    on_connection random36 remoteAddress ua now st = Returned st' ∧
    clients st' !! generateClientId random36 now = Some (length (conns st)) ∧
    (∃ c, conns st' !! length (conns st) = Some c ∧
          id (info c) = generateClientId random36 now) ∧
    (clients st !! generateClientId random36 now = None →
       (∀ k r, clients st !! k = Some r → clients st' !! k = Some r) ∧
       (∀ k, clients st' !! k = Some (length (conns st)) →
             k = generateClientId random36 now)) ∧
    (∀ es n c, conns st' !! n = Some c →
       ∃ c', conns (run jwt_verify es st') !! n = Some c' ∧
             id (info c') = id (info c)) ∧
    (∀ es, wf (run jwt_verify es st')).
Proof.
  intros Hwf. eexists. split; [apply on_connection_returned|].
  set (k := generateClientId random36 now).
  set (st' := update_conn _ _ _).
  assert (Hev : evolves st st').
  { pose proof (evolves_on_connection random36 remoteAddress ua now st) as H.
    by rewrite on_connection_returned in H. }
  assert (Hk : clients st' !! k = Some (length (conns st))).
  { unfold st'. st_simpl. apply lookup_insert_eq. }
  split; [done|]. split.
  { destruct (ev_clients _ _ Hev _ _ Hk) as [Hold|[_ ?]]; [|done].
    destruct (Hwf _ _ Hold) as (c & Hc%lookup_lt_Some & _). lia. }
  split.
  { intros Hfresh. split.
    - intros k' r Hk'. unfold st'. st_simpl.
      rewrite lookup_insert_ne; [done|]. intros <-. congruence.
    - intros k' Hk'. unfold st' in Hk'. st_simpl.
      apply lookup_insert_Some in Hk' as [[? _]|[_ Hold]]; [done|].
      destruct (Hwf _ _ Hold) as (c & Hc%lookup_lt_Some & _). lia. }
  split.
  - intros es n c Hc. by apply (ev_heap _ _ (evolves_run jwt_verify es st')).
  - intros es. apply wf_run. by eapply evolves_wf.
Qed.

End ClientIds.

(** C10 as stated fails.  Two connections accepted in the same
    millisecond with the same random draw get the same id: the second registration finds the id held by the
    first, live connection and overwrites its entry. *)
Lemma C10_same_draw_same_id :
  ¬ (∀ random36 remoteAddress ua now st st',
       wf st →
       on_connection random36 remoteAddress ua now st = Returned st' →
       clients st !! generateClientId random36 now = None) ∧
  ¬ (∀ random36 remoteAddress ua now st st',
       wf st →
       on_connection random36 remoteAddress ua now st = Returned st' →
       ∀ k r, clients st !! k = Some r → clients st' !! k = Some r).
Proof.
  assert (Hwf : wf one_client).
  { apply (evolves_wf initial); [|apply wf_initial].
    apply evolves_on_connection. }
  split; intros H.
  - specialize (H "0.a" "10.0.0.2" "ua" 1 one_client _ Hwf
                  (on_connection_returned _ _ _ _ _)).
    vm_compute in H. discriminate.
  - specialize (H "0.a" "10.0.0.2" "ua" 1 one_client _ Hwf
                  (on_connection_returned _ _ _ _ _) "a1" 0%nat).
    vm_compute in H. specialize (H eq_refl). discriminate.
Qed.

(** ** The theorems at the example states *)

Lemma wf_one_client : wf one_client.
Proof.
  apply (evolves_wf initial); [|apply wf_initial]. apply evolves_on_connection.
Qed.

Lemma wf_example_state : wf example_state.
Proof. apply wf_run, wf_initial. Qed.

Lemma C1_witness :
  ∃ st', broadcastPollUpdate (JStr "T") (Some "{}") 7 example_state = Returned st' ∧
     sent_of st' 0 = sent_of example_state 0 ++ [FPollUpdate (JStr "T") "{}" 7] ∧
     sent_of st' 2 = sent_of example_state 2 ++ [FPollUpdate (JStr "T") "{}" 7] ∧
     "a1" ∈ subscribers_of st' (JStr "T") ∧ "c3" ∈ subscribers_of st' (JStr "T") ∧
     "b2" ∉ subscribers_of st' (JStr "T").
Proof.
  refine (proj1 (C1_partial_failure_isolation example_state (JStr "T") "{}" 7
            {[ "a1"; "b2"; "c3" ]} "a1" "b2" "c3" 0%nat 2%nat
            _ _ _ _ _ _ _ _ _ _)).
  - exact wf_example_state.
  - vm_compute. reflexivity.
  - set_solver.
  - set_solver.
  - set_solver.
  - vm_compute. reflexivity.
  - vm_compute. reflexivity.
  - vm_compute. reflexivity.
  - vm_compute. reflexivity.
  - vm_compute. discriminate.
Defined.

Lemma C4_witness :
  clients (on_close 0 example_state) !! "a1" = None ∧
  authenticatedClients (on_close 0 example_state) !! "a1" = None ∧
  unreferenced (on_close 0 example_state) 0 ∧
  (∀ p s, pollSubscriptions (on_close 0 example_state) !! p = Some s → "a1" ∉ s) ∧
  ∀ es, unreferenced (run example_verify es (on_close 0 example_state)) 0 ∧
        pollUpdates_of (run example_verify es (on_close 0 example_state)) 0
        = pollUpdates_of (on_close 0 example_state) 0.
Proof.
  refine (C4_disconnect_cleanup example_verify example_state 0 example_conn 0
            (on_close 0 example_state) wf_example_state _ _).
  - vm_compute. reflexivity.
  - left. reflexivity.
Defined.


Lemma C6_witness :
  (∃ st' i,
     on_message example_verify 0 authenticate_frame 2 one_client = Returned st' ∧
     clientInfo_of st' "a1" = Some i ∧
     authenticated i = true ∧ userId i = JStr "u1" ∧
     authenticatedClients st' !! "a1" = Some (JStr "u1", 2) ∧
     sent_of st' 0 = sent_of one_client 0 ++ [FAuthenticated (JStr "u1")]) ∧
  (∃ st' text,
     on_message example_verify 0
       (PData (JStr "authenticate") JUndefined (JStr "expired")) 2 one_client
       = Returned st' ∧
     st' = update_conn 0 (push_frames [FAuthError text])
             (update_clientInfo "a1" (set_lastActivity 2) one_client) ∧
     sent_of st' 0 = sent_of one_client 0 ++ [FAuthError text] ∧
     (∀ k, isClientAuthenticated st' k = isClientAuthenticated one_client k) ∧
     (∀ k, userId <$> clientInfo_of st' k = userId <$> clientInfo_of one_client k) ∧
     clients st' = clients one_client ∧
     authenticatedClients st' = authenticatedClients one_client ∧
     pollSubscriptions st' = pollSubscriptions one_client ∧
     (∀ m, readyState ∘ ws <$> conns st' !! m
           = readyState ∘ ws <$> conns one_client !! m)).
Proof.
  split.
  - refine (proj1 (C6_authenticate example_verify one_client 0 one_client_conn
                     JUndefined (JStr "valid") 2 _ _)
              (JStr "u1") 0%nat one_client_conn _ _ _ _);
      first [reflexivity | vm_compute; reflexivity].
  - refine (proj2 (C6_authenticate example_verify one_client 0 one_client_conn
                     JUndefined (JStr "expired") 2 _ _) _);
      first [reflexivity | vm_compute; reflexivity | right; reflexivity].
Defined.

Lemma C7_witness :
  clients (cleanupInactiveConnections 400000 one_client) !! "a1" = None ∧
  authenticatedClients (cleanupInactiveConnections 400000 one_client) !! "a1" = None ∧
  (∀ p s, pollSubscriptions (cleanupInactiveConnections 400000 one_client) !! p
          = Some s → "a1" ∉ s) ∧
  ∃ c', conns (cleanupInactiveConnections 400000 one_client) !! 0%nat = Some c' ∧
        readyState (ws c') = CLOSING ∧
        closeCall (ws c') = Some (1000, "Inactive connection cleanup").
Proof.
  destruct (proj1 (C7_sweeper_evicts_stale example_verify one_client "a1" 0
                     one_client_conn 400000 wf_one_client
                     ltac:(vm_compute; reflexivity) ltac:(vm_compute; reflexivity))
              ltac:(vm_compute; reflexivity))
    as (H1 & H2 & H3 & c' & Hc' & _ & Hclosed).
  split; [exact H1|]. split; [exact H2|]. split; [exact H3|].
  exists c'. split; [exact Hc'|]. apply Hclosed. reflexivity.
Defined.



Lemma C10_witness :
  ∃ st',
    on_connection "0.b" "10.0.0.2" "ua" 2 one_client = Returned st' ∧
    clients st' !! "b2" = Some 1%nat ∧
    (∃ c, conns st' !! 1%nat = Some c ∧ id (info c) = "b2") ∧
    (∀ k r, clients one_client !! k = Some r → clients st' !! k = Some r) ∧
    (∀ k, clients st' !! k = Some 1%nat → k = "b2") ∧
    (∀ es n c, conns st' !! n = Some c →
       ∃ c', conns (run example_verify es st') !! n = Some c' ∧
             id (info c') = id (info c)) ∧
    (∀ es, wf (run example_verify es st')).
Proof.
  destruct (C10_registration example_verify one_client "0.b" "10.0.0.2" "ua" 2
              wf_one_client) as (st' & H1 & H2 & H3 & H4 & H5 & H6).
  destruct (H4 ltac:(vm_compute; reflexivity)) as [H4a H4b].
  exists st'. repeat split; assumption.
Defined.

(** * Further properties of the handler *)

(** ** The other cases of the router *)

Lemma clients_unsubscribeFromPoll k p st :
  clients (unsubscribeFromPoll k p st) = clients st.
Proof.
  unfold unsubscribeFromPoll. destruct (pollSubscriptions st !! p); [|done].
  destruct (pollSubscriptions _ !! p); [|done]. by case_decide.
Qed.

Lemma authenticatedClients_unsubscribeFromPoll k p st :
  authenticatedClients (unsubscribeFromPoll k p st) = authenticatedClients st.
Proof.
  unfold unsubscribeFromPoll. destruct (pollSubscriptions st !! p); [|done].
  destruct (pollSubscriptions _ !! p); [|done]. by case_decide.
Qed.

Lemma subscribers_of_unsubscribeFromPoll k p st :
  subscribers_of (unsubscribeFromPoll k p st) p = subscribers_of st p ∖ {[k]}.
Proof.
  unfold subscribers_of. rewrite unsubscribeFromPoll_lookup, decide_True by done.
  destruct (pollSubscriptions st !! p) as [s|]; simpl; [|set_solver].
  case_decide as Hz; [|done]. simpl. apply size_empty_inv in Hz.
  symmetry. by apply leibniz_equiv.
Qed.

(** X1. Subscribing a client that was not subscribed and unsubscribing it
    again gives the state back, provided the poll was not mapped to an
    empty set (which only the broadcast loop leaves behind); unsubscribing
    a subscribed client and subscribing it again gives the state back. *)
Theorem subscribe_unsubscribe_round_trip k p st :
  (k ∉ subscribers_of st p → pollSubscriptions st !! p ≠ Some ∅ →
     unsubscribeFromPoll k p (subscribeToPoll k p st) = st) ∧
  (k ∈ subscribers_of st p →
     subscribeToPoll k p (unsubscribeFromPoll k p st) = st).
Proof.
  split.
  - intros Hk Hne. apply State_eq.
    + by rewrite conns_unsubscribeFromPoll, conns_subscribeToPoll.
    + by rewrite clients_unsubscribeFromPoll, clients_subscribeToPoll.
    + apply map_eq. intros q.
      rewrite unsubscribeFromPoll_lookup, subscribeToPoll_lookup.
      case_decide as Hq; [subst q|done]. cbn [mbind option_bind].
      unfold subscribers_of in *.
      destruct (pollSubscriptions st !! p) as [s|] eqn:Hp;
        cbn [from_option Datatypes.id] in *.
      * assert (Hs : ({[k]} ∪ s) ∖ {[k]} = s) by set_solver.
        rewrite Hs. rewrite decide_False; [done|].
        intros Hz%size_empty_inv. apply Hne. f_equal. by apply leibniz_equiv.
      * rewrite decide_True; [done|]. apply size_empty_iff. set_solver.
    + by rewrite authenticatedClients_unsubscribeFromPoll,
        authenticatedClients_subscribeToPoll.
  - intros Hk. apply State_eq.
    + by rewrite conns_subscribeToPoll, conns_unsubscribeFromPoll.
    + by rewrite clients_subscribeToPoll, clients_unsubscribeFromPoll.
    + apply map_eq. intros q. rewrite subscribeToPoll_lookup.
      case_decide as Hq; [subst q|by rewrite unsubscribeFromPoll_lookup, decide_False].
      rewrite subscribers_of_unsubscribeFromPoll.
      unfold subscribers_of in *.
      destruct (pollSubscriptions st !! p) as [s|] eqn:Hp;
        cbn [from_option Datatypes.id] in *; [|set_solver].
      f_equal. apply set_eq. intros x.
      rewrite elem_of_union, elem_of_difference, elem_of_singleton.
      destruct (decide (x = k)) as [->|]; naive_solver.
    + by rewrite authenticatedClients_subscribeToPoll,
        authenticatedClients_unsubscribeFromPoll.
Qed.

Section OtherFrames.
Variable jwt_verify : Z → JsVal → option JsVal.



(** X3. A subscribe or unsubscribe frame whose [pollId] is missing, [null],
    [false], [0] or the empty string is answered with an [error] frame that
    asks for the poll id, for an unauthenticated sender too: the poll id is
    looked at before the authentication.  Nothing changes but the
    [lastActivity] of the sender. *)
Theorem missing_pollId st n c type pollId token now :
  conns st !! n = Some c → sendThrows (ws c) = false →
  truthy pollId = false →
  type = JStr "subscribe" ∨ type = JStr "unsubscribe" →
  on_message jwt_verify n (PData type pollId token) now st =
    Returned
      (update_conn n
         (push_frames
            [FError (if decide (type = JStr "subscribe")
                     then "Poll ID is required for subscription"
                     else "Poll ID is required for unsubscription")])
         (update_clientInfo (id (info c)) (set_lastActivity now) st)).
Proof.
  intros Hc Ht Hp Htype.
  assert (Hat : conn_at st n (id (info c))) by (by exists c).
  apply (on_message_conn_at _ _ (id (info c))); [done|].
  assert (Hs : can_send (update_clientInfo (id (info c)) (set_lastActivity now) st) n).
  { apply can_send_update_clientInfo. by eapply conn_at_can_send. }
  unfold handleMessage. destruct Htype as [-> | ->].
  - change (is_type (JStr "subscribe") "authenticate") with false.
    change (is_type (JStr "subscribe") "subscribe") with true.
    cbv iota zeta. rewrite Hp. cbn [negb]. rewrite decide_True by done.
    by apply ws_send_can_send.
  - change (is_type (JStr "unsubscribe") "authenticate") with false.
    change (is_type (JStr "unsubscribe") "subscribe") with false.
    change (is_type (JStr "unsubscribe") "unsubscribe") with true.
    cbv iota zeta. rewrite Hp. cbn [negb]. rewrite decide_False by done.
    by apply ws_send_can_send.
Qed.

(** X4. A [ping] frame is answered with [pong] carrying the time of the
    message, authenticated or not; a [getStats] frame is answered with the
    statistics of the state (the sender's [lastActivity] already set) when
    the sender is authenticated and with an [error] frame otherwise.
    Neither changes anything but the [lastActivity] of the sender. *)
Theorem ping_and_getStats st n c pollId token now :
  conns st !! n = Some c → sendThrows (ws c) = false →
  on_message jwt_verify n (PData (JStr "ping") pollId token) now st =
    Returned (update_conn n (push_frames [FPong now])
                (update_clientInfo (id (info c)) (set_lastActivity now) st)) ∧
  on_message jwt_verify n (PData (JStr "getStats") pollId token) now st =
    Returned
      (update_conn n
         (push_frames
            [if isClientAuthenticated st (id (info c))
             then FStats (getConnectionStats now
                    (update_clientInfo (id (info c)) (set_lastActivity now) st))
             else FError "Authentication required"])
         (update_clientInfo (id (info c)) (set_lastActivity now) st)).
Proof.
  intros Hc Ht.
  assert (Hat : conn_at st n (id (info c))) by (by exists c).
  assert (Hs : can_send (update_clientInfo (id (info c)) (set_lastActivity now) st) n).
  { apply can_send_update_clientInfo. by eapply conn_at_can_send. }
  split; (apply (on_message_conn_at _ _ (id (info c))); [done|]);
    unfold handleMessage.
  - change (is_type (JStr "ping") "authenticate") with false.
    change (is_type (JStr "ping") "subscribe") with false.
    change (is_type (JStr "ping") "unsubscribe") with false.
    change (is_type (JStr "ping") "ping") with true.
    cbv iota zeta. by apply ws_send_can_send.
  - change (is_type (JStr "getStats") "authenticate") with false.
    change (is_type (JStr "getStats") "subscribe") with false.
    change (is_type (JStr "getStats") "unsubscribe") with false.
    change (is_type (JStr "getStats") "ping") with false.
    change (is_type (JStr "getStats") "getStats") with true.
    cbv iota zeta. rewrite isClientAuthenticated_update_clientInfo by done.
    destruct (isClientAuthenticated st (id (info c))); by apply ws_send_can_send.
Qed.

(** X5. When the socket of an authenticated sender raises on [send], a
    subscribe frame still subscribes: the subscription is made before the
    answer is sent, the exception is taken for a JSON error, the [error]
    answer raises as well and the exception leaves the callback. *)
Theorem subscribe_on_dead_transport st n c pollId token now :
  conns st !! n = Some c → sendThrows (ws c) = true →
  isClientAuthenticated st (id (info c)) = true →
  truthy pollId = true →
  ∃ st',
    on_message jwt_verify n (PData (JStr "subscribe") pollId token) now st
      = Thrown st' ∧
    subscribers_of st' pollId = {[id (info c)]} ∪ subscribers_of st pollId ∧
    sent_of st' n = sent_of st n.
Proof.
  intros Hc Ht Hauth Hp. set (k := id (info c)) in *.
  set (t1 := update_clientInfo k (set_lastActivity now) st).
  assert (Hraise : ∀ frame st0, conns st0 !! n = conns t1 !! n →
            ws_send n frame st0 = Thrown st0).
  { intros frame st0 H0. unfold ws_send. rewrite H0. unfold t1, update_clientInfo.
    destruct (clients st !! k) as [r|]; [|by rewrite Hc, Ht].
    rewrite conns_update_conn. case_decide; rewrite Hc; simpl; by rewrite Ht. }
  exists (subscribeToPoll k pollId t1). split.
  - unfold on_message. rewrite Hc. fold k. unfold handleMessage.
    change (is_type (JStr "subscribe") "authenticate") with false.
    change (is_type (JStr "subscribe") "subscribe") with true.
    cbv iota zeta. rewrite Hp. fold t1. cbn [negb].
    unfold t1 at 1. rewrite isClientAuthenticated_update_clientInfo by done.
    rewrite Hauth. cbn [negb].
    rewrite Hraise by (by rewrite conns_subscribeToPoll). simpl.
    apply Hraise. by rewrite conns_subscribeToPoll.
  - split.
    + rewrite subscribers_of_subscribeToPoll. unfold subscribers_of, t1.
      by rewrite pollSubscriptions_update_clientInfo.
    + rewrite (sent_of_same_heap t1) by apply conns_subscribeToPoll.
      apply sent_of_update_clientInfo.
Qed.

(** X6. An authenticate frame on a connection whose id has no entry in
    [clients] (the broadcast loop deleted it after a failed send) is
    answered with [authenticated] and recorded in [authenticatedClients],
    but no record is marked: the connection is still not authenticated and
    a subscribe frame that follows is rejected. *)
Theorem authenticate_without_registry_entry st n c pollId token uid tk now1 now2 :
  conns st !! n = Some c → sendThrows (ws c) = false →
  clients st !! id (info c) = None →
  truthy token = true → jwt_verify now1 token = Some uid →
  truthy pollId = true →
  ∃ st1 st2,
    on_message jwt_verify n (PData (JStr "authenticate") tk token) now1 st
      = Returned st1 ∧
    sent_of st1 n = sent_of st n ++ [FAuthenticated uid] ∧
    authenticatedClients st1 !! id (info c) = Some (uid, now1) ∧
    isClientAuthenticated st1 (id (info c)) = false ∧
    on_message jwt_verify n (PData (JStr "subscribe") pollId tk) now2 st1
      = Returned st2 ∧
    sent_of st2 n = sent_of st1 n ++
      [FError "Authentication required for poll subscriptions"] ∧
    pollSubscriptions st2 = pollSubscriptions st.
Proof.
  intros Hc Ht Hk Htok Hv Hp. set (k := id (info c)) in *.
  assert (Hat : conn_at st n k) by (by exists c).
  assert (Hid : ∀ f st0, clients st0 !! k = None → update_clientInfo k f st0 = st0).
  { intros f st0 H0. unfold update_clientInfo. by rewrite H0. }
  set (st1 := update_conn n (push_frames [FAuthenticated uid])
                (set_authenticatedClients <[k := (uid, now1)]> st)).
  assert (Hat1 : conn_at st1 n k) by (by apply conn_at_update_conn).
  assert (Hna : isClientAuthenticated st1 k = false).
  { unfold isClientAuthenticated, clientInfo_of, st1. st_simpl. by rewrite Hk. }
  exists st1, (update_conn n
    (push_frames [FError "Authentication required for poll subscriptions"]) st1).
  split.
  { apply (on_message_conn_at _ _ k); [done|].
    rewrite (handleMessage_authenticate_ok _ _ _ _ uid)
      by (done || by eapply conn_at_can_send).
    by rewrite !(Hid _ st) by done. }
  split.
  { unfold st1. rewrite sent_of_push_can_send; [done|].
    by eapply (conn_at_can_send _ _ k), (conn_at_same_heap st). }
  split; [unfold st1; st_simpl; apply lookup_insert_eq|].
  split; [done|]. split.
  { apply (on_message_conn_at _ _ k); [done|].
    rewrite handleMessage_subscribe by (done || by eapply conn_at_can_send).
    rewrite Hna. cbv zeta. by rewrite Hid by (unfold st1; st_simpl; done). }
  split; [|done].
  rewrite sent_of_push_can_send; [done|by eapply conn_at_can_send].
Qed.

End OtherFrames.

(** ** Statistics *)

Lemma length_omap_le {A B} (f : A → option B) (l : list A) :
  (length (omap f l) ≤ length l)%nat.
Proof.
  induction l as [|x l IH]; [done|].
  change (omap f (x :: l))
    with (match f x with Some y => y :: omap f l | None => omap f l end).
  destruct (f x); cbn [length]; lia.
Qed.

Lemma length_client_values st : (length (client_values st) ≤ size (clients st))%nat.
Proof.
  unfold client_values. etrans; [apply length_omap_le|].
  by rewrite length_map_to_list.
Qed.

Lemma totalSubscriptions_ge (m : gmap JsVal (gset string)) :
  (∀ p s, m !! p = Some s → s ≠ ∅) →
  (size m ≤ map_fold (λ _ subscribers sum, (sum + size subscribers)%nat) 0%nat m)%nat.
Proof.
  apply (map_fold_weak_ind (λ r m,
    (∀ p s, m !! p = Some s → s ≠ ∅) → (size m ≤ r)%nat)); clear m.
  - intros _. by rewrite map_size_empty.
  - intros p s m r Hp IH Hne. rewrite map_size_insert_None by done.
    assert (size s ≠ 0%nat).
    { apply size_non_empty_iff. intros He%leibniz_equiv.
      apply (Hne p s); [apply lookup_insert_eq|done]. }
    assert (size m ≤ r)%nat; [|lia].
    apply IH. intros q s' Hq. apply (Hne q). rewrite lookup_insert_ne; [done|].
    intros <-. congruence.
Qed.

(** X7. The numbers [getConnectionStats] reports fit together: there are no
    more authenticated clients and no more active clients than clients,
    and, as long as no poll is mapped to an empty set, no more polls than
    subscriptions. *)
Theorem getConnectionStats_bounds now st :
  (statsAuthenticatedClients (getConnectionStats now st)
     ≤ totalClients (getConnectionStats now st))%nat ∧
  (activeClients (getConnectionStats now st)
     ≤ totalClients (getConnectionStats now st))%nat ∧
  (no_empty_topic st →
     (activePolls (getConnectionStats now st)
        ≤ totalSubscriptions (getConnectionStats now st))%nat).
Proof.
  simpl. split; [|split].
  - etrans; [apply length_filter|apply length_client_values].
  - etrans; [apply length_filter|apply length_client_values].
  - intros Hne. by apply totalSubscriptions_ge.
Qed.

(** ** More on the sweeper *)

(** A run of the sweeper that finds no registered connection inactive
    changes nothing. *)
Lemma cleanup_fold_nothing_stale now st (m : gmap string nat) :
  (∀ k r, m !! k = Some r → stale now st r = false) →
  map_fold (cleanup_step now) st m = st.
Proof.
  apply (map_fold_weak_ind (λ r m,
    (∀ k r, m !! k = Some r → stale now st r = false) → r = st)); clear m.
  - done.
  - intros i x m st' Hi IH Hfresh.
    rewrite IH.
    2:{ intros k r Hk. apply (Hfresh k). rewrite lookup_insert_ne; [done|].
        intros <-. congruence. }
    specialize (Hfresh i x (lookup_insert_eq _ _ _)).
    unfold cleanup_step. unfold stale in Hfresh.
    destruct (conns st !! x) as [c|]; [|done].
    apply bool_decide_eq_false in Hfresh. by rewrite decide_False.
Qed.

Lemma stale_after_cleanup now st r :
  wf st → stale now (cleanupInactiveConnections now st) r = stale now st r.
Proof.
  intros Hwf. destruct (cleanupInactiveConnections_inv now st Hwf) as [_ _ I3 _].
  unfold stale. rewrite I3. destruct (conns st !! r) as [c|]; simpl; [|done].
  by case_decide.
Qed.

(** X8. The sweeper changes nothing when no registered connection is
    inactive, and a second run at the same time finds nothing more to do. *)
Theorem cleanup_idempotent now st :
  ((∀ k r, clients st !! k = Some r → stale now st r = false) →
     cleanupInactiveConnections now st = st) ∧
  (wf st →
     cleanupInactiveConnections now (cleanupInactiveConnections now st)
       = cleanupInactiveConnections now st).
Proof.
  split; [apply cleanup_fold_nothing_stale|].
  intros Hwf. apply cleanup_fold_nothing_stale. intros k r Hk.
  rewrite stale_after_cleanup by done.
  destruct (cleanupInactiveConnections_inv now st Hwf) as [I1 _ _ _].
  rewrite I1 in Hk. destruct (clients st !! k) as [r0|] eqn:Hk0; [|done].
  destruct (stale now st r0) eqn:Hs; [done|]. congruence.
Qed.

Lemma cleanup_fold_spares now st (m : gmap string nat) :
  spares_inv now st (map_fold (cleanup_step now) st m) m.
Proof.
  apply (map_fold_weak_ind (spares_inv now st)); clear m.
  - split; eauto.
  - intros i x m st' Hi [J0 J1 J2 J3].
    assert (Hweak : ∀ k, (∀ r, <[i:=x]> m !! k = Some r → stale now st r = false) →
              ∀ r, m !! k = Some r → stale now st r = false).
    { intros k Hk r Hr. apply Hk. rewrite lookup_insert_ne; [done|].
      intros <-. congruence. }
    unfold cleanup_step.
    destruct (conns st' !! x) as [c'|] eqn:Hc'.
    2:{ split; eauto. }
    destruct (decide (now - lastActivity_of (info c') > inactivityThreshold))
      as [Hs|Hs].
    2:{ split; eauto. }
    assert (Hstale : stale now st x = true).
    { unfold stale. specialize (J0 x). rewrite Hc' in J0.
      destruct (conns st !! x) as [c|]; simpl in J0; [|done].
      injection J0 as <-. by apply bool_decide_eq_true. }
    assert (Hki : ∀ k, (∀ r, <[i:=x]> m !! k = Some r → stale now st r = false) →
              k ≠ i).
    { intros k Hk ->. specialize (Hk x (lookup_insert_eq _ _ _)). congruence. }
    set (st1 := if decide (readyState (ws c') = OPEN)
                then ws_close x 1000 "Inactive connection cleanup" st'
                else st').
    assert (Hk1 : clients st1 = clients st') by (subst st1; by case_decide).
    assert (Ha1 : authenticatedClients st1 = authenticatedClients st')
      by (subst st1; by case_decide).
    assert (Hp1 : pollSubscriptions st1 = pollSubscriptions st')
      by (subst st1; by case_decide).
    split.
    + intros n. st_simpl. rewrite <- J0. subst st1.
      case_decide; [|done]. unfold ws_close. rewrite conns_update_conn.
      case_decide; [|done]. by destruct (conns st' !! n).
    + intros k Hk. st_simpl. rewrite Hk1.
      rewrite lookup_delete_ne by (symmetry; by apply Hki). by apply J1, Hweak.
    + intros k Hk. st_simpl. rewrite Ha1.
      rewrite lookup_delete_ne by (symmetry; by apply Hki). by apply J2, Hweak.
    + intros k p s Hk Hp Hks.
      destruct (J3 k p s (Hweak k Hk) Hp Hks) as (s' & Hs' & Hks').
      exists (s' ∖ {[i]}).
      rewrite removeFromPollSubscriptions_lookup. st_simpl.
      rewrite Hp1, Hs'. simpl.
      assert (Hin : k ∈ s' ∖ {[i]}).
      { apply elem_of_difference. split; [done|].
        rewrite elem_of_singleton. by apply Hki. }
      split; [|done]. rewrite decide_False; [done|].
      intros Hz%size_empty_inv. set_solver.
Qed.

(** X9. The sweeper removes nobody else: an id that is not the key of an
    inactive registered connection keeps its entries in [clients] and
    [authenticatedClients] and stays in every subscriber set it was in. *)
Theorem cleanup_spares now st k :
  (∀ r, clients st !! k = Some r → stale now st r = false) →
  clients (cleanupInactiveConnections now st) !! k = clients st !! k ∧
  authenticatedClients (cleanupInactiveConnections now st) !! k
    = authenticatedClients st !! k ∧
  ∀ p s, pollSubscriptions st !! p = Some s → k ∈ s →
    ∃ s', pollSubscriptions (cleanupInactiveConnections now st) !! p = Some s' ∧
          k ∈ s'.
Proof.
  intros Hk. destruct (cleanup_fold_spares now st (clients st)) as [_ J1 J2 J3].
  split; [by apply J1|]. split; [by apply J2|].
  intros p s. by apply J3.
Qed.

(** ** More on the broadcast *)

(** X10. What a publish leaves alone.  The other polls and
    [authenticatedClients] are as before; an entry of the registry goes
    only if it is the entry of a subscriber of the poll whose [send]
    raised; no socket is closed; and a socket is handed the frame once, if
    it is the socket of a subscriber with an open, accepting socket, and
    nothing otherwise. *)
Theorem publish_frame st T poll now subs :
  wf st → pollSubscriptions st !! T = Some subs →
  ∃ st',
    broadcastPollUpdate T (Some poll) now st = Returned st' ∧
    (∀ p, p ≠ T → pollSubscriptions st' !! p = pollSubscriptions st !! p) ∧
    authenticatedClients st' = authenticatedClients st ∧
    (∀ k, clients st' !! k =
            if decide (k ∈ subs ∧ delivery st k = Raises) then None
            else clients st !! k) ∧
    (∀ n, readyState ∘ ws <$> conns st' !! n = readyState ∘ ws <$> conns st !! n) ∧
    (∀ n, sent_of st' n =
            sent_of st n ++
            (if decide (∃ k, k ∈ subs ∧ clients st !! k = Some n ∧
                             delivery st k = Delivers)
             then [FPollUpdate T poll now] else [])).
Proof.
  intros Hwf HT. unfold broadcastPollUpdate. rewrite HT.
  eexists. split; [done|].
  destruct (broadcast_loop_inv st T (FPollUpdate T poll now) subs Hwf)
    as [I1 I2 I3 I4 _].
  split; [|split; [done|split; [done|split]]].
  - intros p Hp. by rewrite I3, decide_False.
  - intros n. rewrite I4. by destruct (conns st !! n).
  - intros n. unfold sent_of. rewrite I4.
    destruct (conns st !! n) as [c|] eqn:Hc; simpl.
    + f_equal. apply decide_ext. split.
      * intros (? & ? & ?). eauto.
      * intros (k & Hk & Hkn & Hd). destruct (Hwf _ _ Hkn) as (c' & Hc' & Hid).
        assert (c' = c) as -> by congruence. by rewrite Hid.
    + rewrite decide_False; [done|].
      intros (k & _ & Hkn & _). destruct (Hwf _ _ Hkn) as (c' & Hc' & _).
      congruence.
Qed.

Lemma subscribers_of_subscribers_delete T x st :
  subscribers_of (subscribers_delete T x st) T = subscribers_of st T ∖ {[x]}.
Proof.
  unfold subscribers_of, subscribers_delete. st_simpl. rewrite lookup_alter_eq.
  destruct (pollSubscriptions st !! T); simpl; [done|]. set_solver.
Qed.

Lemma subscribers_of_ws_send n frame st T :
  subscribers_of (state_of (ws_send n frame st)) T = subscribers_of st T.
Proof. unfold subscribers_of. by rewrite ws_send_pollSubscriptions. Qed.

(** The loop's counters against the subscriber set: unvisited subscribers
    are untouched, and the visited ones still in the set are the
    successes. *)
Lemma broadcast_loop_counts st T message subs :
  subscribers_of st T = subs →
  let acc := broadcast_loop T message subs st in
  (acc.1.2 + acc.2)%nat = size subs ∧
  size (subscribers_of acc.1.1 T) = acc.1.2 ∧
  subscribers_of acc.1.1 T ⊆ subs.
Proof.
  intros Hsubs. cbv zeta. unfold broadcast_loop.
  cut (let acc := set_fold (broadcast_step T message) (st, 0%nat, 0%nat) subs in
       subs ⊆ subs →
       subscribers_of acc.1.1 T ∖ subs = subs ∖ subs ∧
       size (subscribers_of acc.1.1 T ∩ subs) = acc.1.2 ∧
       (acc.1.2 + acc.2)%nat = size subs).
  { cbv zeta. intros H. destruct (H ltac:(done)) as (H1 & H2 & H3).
    assert (Hsub : subscribers_of
      (set_fold (broadcast_step T message) (st, 0%nat, 0%nat) subs).1.1 T ⊆ subs)
      by set_solver.
    split; [done|]. split; [|done]. rewrite <- H2. f_equal. set_solver. }
  apply (set_fold_ind_L (λ acc X,
       X ⊆ subs →
       subscribers_of acc.1.1 T ∖ X = subs ∖ X ∧
       size (subscribers_of acc.1.1 T ∩ X) = acc.1.2 ∧
       (acc.1.2 + acc.2)%nat = size X)).
  - intros _. cbn [fst snd]. rewrite Hsubs. split; [done|]. split.
    + rewrite size_empty_iff. set_solver.
    + by rewrite size_empty.
  - intros x X [[st' sc] fc] Hx IH HX; cbn [fst snd] in *.
    destruct IH as (H1 & H2 & H3); [set_solver|].
    assert (Hxs : x ∈ subscribers_of st' T).
    { assert (x ∈ subs ∖ X) as Hin by set_solver.
      rewrite <- H1 in Hin. set_solver. }
    assert (Hsize : size ({[x]} ∪ X) = S (size X)).
    { rewrite size_union by set_solver. by rewrite size_singleton. }
    assert (Hfail : ∀ st1, subscribers_of st1 T = subscribers_of st' T →
      subscribers_of (subscribers_delete T x st1) T ∖ ({[x]} ∪ X)
        = subs ∖ ({[x]} ∪ X) ∧
      size (subscribers_of (subscribers_delete T x st1) T ∩ ({[x]} ∪ X)) = sc ∧
      (sc + S fc)%nat = size ({[x]} ∪ X)).
    { intros st1 H0. rewrite subscribers_of_subscribers_delete, H0.
      split; [set_solver|]. split; [|lia]. rewrite <- H2. f_equal. set_solver. }
    unfold broadcast_step.
    destruct (clients st' !! x) as [r|]; [|by apply Hfail].
    destruct (conns st' !! r) as [c|]; [|by apply Hfail].
    case_decide; [|by apply Hfail].
    pose proof (subscribers_of_ws_send r message st' T) as Hs.
    destruct (ws_send r message st') as [st1|st1]; cbn [fst snd state_of] in *.
    + rewrite Hs. split; [set_solver|]. split; [|lia].
      assert (Heq : subscribers_of st' T ∩ ({[x]} ∪ X)
                    = {[x]} ∪ (subscribers_of st' T ∩ X)) by set_solver.
      rewrite Heq, size_union by set_solver. rewrite size_singleton, H2. lia.
    + apply (Hfail (set_clients (delete x) st1)). by rewrite <- Hs.
Qed.

(** X11. The counters the broadcast reports: successes and failures add up to
    the number of subscribers the loop started with, the subscribers left
    in the set are as many as the successes, and the successes are the
    subscribers with an open, accepting socket. *)
Theorem publish_counts st T message subs :
  wf st → pollSubscriptions st !! T = Some subs →
  ((broadcast_loop T message subs st).1.2
     + (broadcast_loop T message subs st).2)%nat = size subs ∧
  size (subscribers_of (broadcast_loop T message subs st).1.1 T)
    = (broadcast_loop T message subs st).1.2 ∧
  (broadcast_loop T message subs st).1.2
    = size (filter (λ k, delivery st k = Delivers) subs).
Proof.
  intros Hwf HT.
  assert (Hsubs : subscribers_of st T = subs).
  { unfold subscribers_of. by rewrite HT. }
  destruct (broadcast_loop_counts st T message subs Hsubs) as (H1 & H2 & _).
  split; [done|]. split; [done|]. rewrite <- H2.
  rewrite (broadcast_subscribers _ _ _ _ Hwf HT). f_equal.
  apply set_eq. intros k.
  rewrite elem_of_difference, !elem_of_filter.
  destruct (decide (delivery st k = Delivers)); naive_solver.
Qed.

(** X12. A new connection whose generated id is in a subscriber set, left
    there by an earlier connection with the same id, receives the
    [pollUpdate] frames of that poll without having authenticated. *)
Theorem reused_id_inherits_subscriptions st random36 remoteAddress ua t T poll now subs :
  wf st → pollSubscriptions st !! T = Some subs →
  generateClientId random36 t ∈ subs →
  ∃ st1 st2,
    on_connection random36 remoteAddress ua t st = Returned st1 ∧
    isClientAuthenticated st1 (generateClientId random36 t) = false ∧
    broadcastPollUpdate T (Some poll) now st1 = Returned st2 ∧
    sent_of st2 (length (conns st))
      = [FConnected (generateClientId random36 t); FPollUpdate T poll now].
Proof.
  intros Hwf HT Hk. set (k := generateClientId random36 t) in *.
  set (n := length (conns st)).
  pose proof (on_connection_returned random36 remoteAddress ua t st) as Hret.
  fold k n in Hret.
  match type of Hret with _ = Returned ?s => set (st1 := s) in * end.
  exists st1. eexists. split; [exact Hret|].
  assert (Hwf1 : wf st1).
  { apply (evolves_wf st); [|done].
    pose proof (evolves_on_connection random36 remoteAddress ua t st) as H.
    by rewrite Hret in H. }
  assert (Hkn : clients st1 !! k = Some n).
  { unfold st1. st_simpl. apply lookup_insert_eq. }
  assert (Hcn : conns st1 !! n
    = Some (push_frames [FConnected k] (new_connection k remoteAddress ua t))).
  { unfold st1. rewrite conns_update_conn, decide_True by done. simpl.
    by rewrite lookup_app_r, Nat.sub_diag. }
  assert (HT1 : pollSubscriptions st1 !! T = Some subs) by done.
  split.
  { unfold isClientAuthenticated, clientInfo_of. rewrite Hkn.
    cbn [mbind option_bind]. by rewrite Hcn. }
  unfold broadcastPollUpdate. rewrite HT1. split; [done|].
  rewrite (broadcast_delivers _ _ _ _ n k); try done.
  - unfold sent_of. by rewrite Hcn.
  - unfold delivery. by rewrite Hkn, Hcn.
Qed.

(** ** Disconnecting repairs the index *)

Lemma cleanup_fold_repairs now st (m : gmap string nat) :
  (∀ n, info <$> conns (map_fold (cleanup_step now) st m) !! n
        = info <$> conns st !! n) ∧
  ((∃ k r, m !! k = Some r ∧ stale now st r = true) →
   no_empty_topic (map_fold (cleanup_step now) st m)).
Proof.
  apply (map_fold_weak_ind (λ st' m,
    (∀ n, info <$> conns st' !! n = info <$> conns st !! n) ∧
    ((∃ k r, m !! k = Some r ∧ stale now st r = true) → no_empty_topic st')));
    clear m.
  - split; [done|]. intros (k & r & Hk & _). by rewrite lookup_empty in Hk.
  - intros i x m st' Hi [J0 IH].
    assert (Hbranch : stale now st x =
      match conns st' !! x with
      | Some c' => bool_decide (now - lastActivity_of (info c') > inactivityThreshold)
      | None => false
      end).
    { unfold stale. specialize (J0 x).
      destruct (conns st' !! x) as [c'|], (conns st !! x) as [c|];
        simpl in J0; try done. by injection J0 as ->. }
    unfold cleanup_step.
    destruct (conns st' !! x) as [c'|] eqn:Hc'.
    2:{ split; [done|]. intros (k & r & Hk & Hs). apply IH.
        destruct (decide (i = k)) as [<-|Hne].
        - rewrite lookup_insert_eq in Hk. congruence.
        - rewrite lookup_insert_ne in Hk by done. eauto. }
    destruct (decide (now - lastActivity_of (info c') > inactivityThreshold))
      as [Hs|Hs].
    + split; [|intros _; apply no_empty_topic_removeFromPollSubscriptions].
      intros n. rewrite conns_removeFromPollSubscriptions.
      change (conns (set_authenticatedClients ?f (set_clients ?g ?s)))
        with (conns s).
      rewrite <- J0. destruct (decide (readyState (ws c') = OPEN)); [|done].
      unfold ws_close. rewrite conns_update_conn.
      destruct (decide (x = n)); [|done]. by destruct (conns st' !! n).
    + split; [done|]. intros (k & r & Hk & Hst). apply IH.
      destruct (decide (i = k)) as [<-|Hne].
      * rewrite lookup_insert_eq in Hk. injection Hk as <-.
        rewrite Hbranch in Hst. by apply bool_decide_eq_true in Hst.
      * rewrite lookup_insert_ne in Hk by done. eauto.
Qed.

(** X13. Whatever the index looked like, no poll is mapped to an empty set
    once the 'close' callback of a connection has run or the sweeper has
    evicted a connection: the removal drops every empty entry, those a
    publish left behind included. *)
Theorem disconnect_repairs_index st :
  (∀ n c, conns st !! n = Some c → no_empty_topic (on_close n st)) ∧
  (∀ now k r, clients st !! k = Some r → stale now st r = true →
     no_empty_topic (cleanupInactiveConnections now st)).
Proof.
  split.
  - intros n c Hc. unfold on_close. rewrite Hc.
    apply no_empty_topic_removeFromPollSubscriptions.
  - intros now k r Hk Hs.
    apply (cleanup_fold_repairs now st (clients st)). eauto.
Qed.

Lemma on_close_some n st c :
  conns st !! n = Some c →
  on_close n st =
    removeFromPollSubscriptions (id (info c))
      (set_authenticatedClients (delete (id (info c)))
         (set_clients (delete (id (info c)))
            (transport_change n CLOSED (sendThrows (ws c)) st))).
Proof. intros Hc. unfold on_close. by rewrite Hc. Qed.

(** X14. The 'close' callback is idempotent: run a second time on the same
    connection it changes nothing. *)
Theorem on_close_idempotent n st : on_close n (on_close n st) = on_close n st.
Proof.
  destruct (conns st !! n) as [c|] eqn:Hc.
  2:{ assert (H : on_close n st = st) by (unfold on_close; by rewrite Hc).
      by rewrite !H. }
  set (k := id (info c)). set (t := sendThrows (ws c)).
  set (st1 := on_close n st).
  assert (E1 : st1 = removeFromPollSubscriptions k
      (set_authenticatedClients (delete k)
         (set_clients (delete k) (transport_change n CLOSED t st))))
    by (by apply on_close_some).
  assert (Hconns : ∀ m, conns st1 !! m =
    if decide (n = m)
    then with_ws (λ w, {| readyState := CLOSED; sendThrows := t; sent := sent w;
                          pings := pings w; closeCall := closeCall w |})
           <$> conns st !! m
    else conns st !! m).
  { intros m. rewrite E1. st_simpl. apply conns_update_conn. }
  assert (Hclients : clients st1 = delete k (clients st)) by (by rewrite E1).
  assert (Hauth : authenticatedClients st1 = delete k (authenticatedClients st))
    by (by rewrite E1).
  assert (Hsubs : ∀ p, pollSubscriptions st1 !! p =
    s ← pollSubscriptions st !! p;
    if decide (size (s ∖ {[k]}) = 0%nat) then None else Some (s ∖ {[k]})).
  { intros p. rewrite E1. by rewrite removeFromPollSubscriptions_lookup. }
  assert (Hc1 : conns st1 !! n = Some (with_ws (λ w,
    {| readyState := CLOSED; sendThrows := t; sent := sent w;
       pings := pings w; closeCall := closeCall w |}) c)).
  { by rewrite Hconns, decide_True, Hc. }
  rewrite (on_close_some n st1 _ Hc1). cbn [info ws with_ws sendThrows].
  fold k. apply State_eq.
  - st_simpl. apply list_eq. intros m. rewrite conns_update_conn.
    case_decide as Hnm; [|done]. subst m. by rewrite Hc1.
  - st_simpl. rewrite Hclients. apply delete_delete_eq.
  - apply map_eq. intros p. rewrite removeFromPollSubscriptions_lookup. st_simpl.
    rewrite Hsubs. destruct (pollSubscriptions st !! p) as [s|]; [|done].
    cbn [mbind option_bind].
    destruct (decide (size (s ∖ {[k]}) = 0%nat)) as [Hz|Hz]; [done|].
    cbn [mbind option_bind].
    assert (Hs : s ∖ {[k]} ∖ {[k]} = s ∖ {[k]}) by set_solver.
    rewrite Hs. by rewrite decide_False.
  - st_simpl. rewrite Hauth. apply delete_delete_eq.
Qed.

(** X15. When the 'close' event of a connection arrives after the sweeper has
    evicted it, the callback finds nothing left to remove: the three maps
    stay as the sweeper left them. *)
Theorem close_after_eviction now st k n :
  wf st → clients st !! k = Some n → stale now st n = true →
  clients (on_close n (cleanupInactiveConnections now st))
    = clients (cleanupInactiveConnections now st) ∧
  authenticatedClients (on_close n (cleanupInactiveConnections now st))
    = authenticatedClients (cleanupInactiveConnections now st) ∧
  pollSubscriptions (on_close n (cleanupInactiveConnections now st))
    = pollSubscriptions (cleanupInactiveConnections now st).
Proof.
  intros Hwf Hk Hs.
  destruct (cleanup_removed now st k n Hwf Hk Hs) as (H1 & H2 & _ & H4).
  destruct (Hwf _ _ Hk) as (c & Hc & Hid).
  destruct (ev_heap _ _ (evolves_cleanupInactiveConnections now st) _ _ Hc)
    as (c' & Hc' & Hid').
  assert (Hne : no_empty_topic (cleanupInactiveConnections now st)).
  { apply (cleanup_fold_repairs now st (clients st)). eauto. }
  unfold on_close. rewrite Hc'. rewrite Hid', Hid. st_simpl.
  split; [by apply delete_id|]. split; [by apply delete_id|].
  apply map_eq. intros p. rewrite removeFromPollSubscriptions_lookup. st_simpl.
  destruct (pollSubscriptions _ !! p) as [s|] eqn:Hp; simpl; [|done].
  assert (Hsk : s ∖ {[k]} = s) by (specialize (H4 p s Hp); set_solver).
  rewrite Hsk. rewrite decide_False; [done|].
  intros Hz%size_empty_inv. apply (Hne p s Hp). by apply leibniz_equiv.
Qed.

(** ** The history of a connection's objects *)

Lemma heap_history_refl st : heap_history st st.
Proof. intros n c Hc. exists c. split; [done|apply rtc_refl]. Qed.

Lemma heap_history_trans st1 st2 st3 :
  heap_history st1 st2 → heap_history st2 st3 → heap_history st1 st3.
Proof.
  intros H12 H23 n c Hc. destruct (H12 _ _ Hc) as (c2 & Hc2 & Hh2).
  destruct (H23 _ _ Hc2) as (c3 & Hc3 & Hh3).
  exists c3. split; [done|]. by etrans.
Qed.

Lemma heap_history_same_heap st st' : conns st' = conns st → heap_history st st'.
Proof. intros H n c Hc. rewrite H. exists c. split; [done|apply rtc_refl]. Qed.

Lemma heap_history_update_conn n f st :
  (∀ c, mutation c (f c)) → heap_history st (update_conn n f st).
Proof.
  intros Hf m c Hc. rewrite conns_update_conn.
  case_decide; rewrite Hc; simpl; eexists; (split; [done|]);
    [by apply rtc_once|apply rtc_refl].
Qed.

Lemma heap_history_update_conn_at n f st c :
  conns st !! n = Some c → mutation c (f c) → heap_history st (update_conn n f st).
Proof.
  intros Hn Hf m c0 Hc. rewrite conns_update_conn.
  case_decide; rewrite Hc; simpl; eexists; (split; [done|]); [|apply rtc_refl].
  apply rtc_once. by simplify_eq.
Qed.

Lemma heap_history_update_clientInfo k f st :
  (∀ c, mutation c (with_info f c)) → heap_history st (update_clientInfo k f st).
Proof.
  intros Hf. unfold update_clientInfo.
  destruct (clients st !! k); [|apply heap_history_refl].
  by apply heap_history_update_conn.
Qed.

Lemma heap_history_ws_send n frame st :
  heap_history st (state_of (ws_send n frame st)).
Proof.
  destruct (ws_send_spec n frame st) as [[-> _]|(c & _ & _ & ->)]; simpl;
    [apply heap_history_refl|].
  apply heap_history_update_conn. intros c0. apply mut_send.
Qed.

Lemma heap_history_try_catch st o handler :
  heap_history st (state_of o) →
  (∀ st', heap_history st' (state_of (handler st'))) →
  heap_history st (state_of (try_catch o handler)).
Proof.
  intros Ho Hh. destruct o as [st1|st1]; simpl in *; [done|].
  eapply heap_history_trans; [exact Ho|apply Hh].
Qed.

Lemma heap_history_removal k st :
  heap_history st (removeFromPollSubscriptions k
    (set_authenticatedClients (delete k) (set_clients (delete k) st))).
Proof. by apply heap_history_same_heap. Qed.

Lemma heap_history_broadcast_step pollId message x acc :
  heap_history acc.1.1 (broadcast_step pollId message x acc).1.1.
Proof.
  destruct acc as [[st sc] fc]. unfold broadcast_step; cbn [fst snd].
  destruct (clients st !! x) as [r|]; [|by apply heap_history_same_heap].
  destruct (conns st !! r) as [c|]; [|by apply heap_history_same_heap].
  case_decide; [|by apply heap_history_same_heap].
  pose proof (heap_history_ws_send r message st) as Hs.
  destruct (ws_send r message st) as [st1|st1]; cbn [fst snd state_of] in *;
    [done|].
  eapply heap_history_trans; [exact Hs|]. by apply heap_history_same_heap.
Qed.

Lemma heap_history_broadcastPollUpdate pollId pollData now st :
  heap_history st (state_of (broadcastPollUpdate pollId pollData now st)).
Proof.
  unfold broadcastPollUpdate.
  destruct (pollSubscriptions st !! pollId) as [s|]; [|apply heap_history_refl].
  destruct pollData as [poll|]; [|apply heap_history_refl]. simpl.
  unfold broadcast_loop.
  apply (set_fold_ind_L (λ r _, heap_history st r.1.1));
    [apply heap_history_refl|].
  intros x Y r _ IH. eapply heap_history_trans; [exact IH|].
  apply heap_history_broadcast_step.
Qed.

Lemma heap_history_cleanup_step now k r st : heap_history st (cleanup_step now k r st).
Proof.
  unfold cleanup_step. destruct (conns st !! r) as [c|]; [|apply heap_history_refl].
  case_decide; [|apply heap_history_refl].
  eapply heap_history_trans; [|apply heap_history_removal].
  case_decide; [|apply heap_history_refl].
  apply heap_history_update_conn. intros c0. apply mut_close.
Qed.

Lemma heap_history_cleanupInactiveConnections now st :
  heap_history st (cleanupInactiveConnections now st).
Proof.
  unfold cleanupInactiveConnections.
  apply (map_fold_weak_ind (λ r _, heap_history st r)); [apply heap_history_refl|].
  intros k r m st' _ IH. eapply heap_history_trans; [exact IH|].
  apply heap_history_cleanup_step.
Qed.

Lemma heap_history_on_close n st : heap_history st (on_close n st).
Proof.
  unfold on_close. destruct (conns st !! n) as [c|]; [|apply heap_history_refl].
  eapply heap_history_trans; [|apply heap_history_removal].
  apply heap_history_update_conn. intros c0. apply mut_transport.
Qed.

Lemma heap_history_on_pingInterval n now st :
  heap_history st (on_pingInterval n now st).
Proof.
  unfold on_pingInterval.
  destruct (conns st !! n) as [c|] eqn:Hc; [|apply heap_history_refl].
  destruct (pingInterval c) eqn:Ht; [|apply heap_history_refl].
  case_decide.
  - apply (heap_history_trans _ (ws_ping n st)).
    + unfold ws_ping. eapply heap_history_update_conn_at; [done|].
      by apply mut_ping.
    + apply heap_history_update_conn. intros c0. apply mut_lastPing.
  - apply heap_history_update_conn. intros c0. apply mut_clearInterval.
Qed.

Lemma heap_history_on_connection random36 remoteAddress ua now st :
  heap_history st (state_of (on_connection random36 remoteAddress ua now st)).
Proof.
  unfold on_connection.
  eapply heap_history_trans; [|apply heap_history_ws_send].
  intros n c Hc. exists c. split; [|apply rtc_refl]. simpl.
  by apply lookup_app_l_Some.
Qed.

Section History.
Variable jwt_verify : Z → JsVal → option JsVal.

Lemma heap_history_handleAuthentication k token n now st :
  heap_history st (state_of (handleAuthentication jwt_verify k token n now st)).
Proof.
  unfold handleAuthentication.
  destruct (negb (truthy token)); [apply heap_history_ws_send|].
  destruct (jwt_verify now token) as [uid|]; [|apply heap_history_ws_send].
  apply heap_history_try_catch; [|intros st'; apply heap_history_ws_send].
  eapply heap_history_trans; [|apply heap_history_ws_send].
  eapply (heap_history_trans _ (update_clientInfo k (set_authenticated uid now) st));
    [|by apply heap_history_same_heap].
  apply heap_history_update_clientInfo. intros c. apply mut_authenticated.
Qed.

Lemma heap_history_handleMessage k type pollId token n now st :
  heap_history st (state_of (handleMessage jwt_verify k type pollId token n now st)).
Proof.
  unfold handleMessage.
  eapply (heap_history_trans _ (update_clientInfo k (set_lastActivity now) st)).
  { apply heap_history_update_clientInfo. intros c. apply mut_lastActivity. }
  repeat match goal with
  | |- context [if ?b then _ else _] => destruct b
  end;
  try apply heap_history_ws_send;
  try apply heap_history_handleAuthentication.
  - eapply heap_history_trans; [|apply heap_history_ws_send].
    apply heap_history_same_heap, conns_subscribeToPoll.
  - eapply heap_history_trans; [|apply heap_history_ws_send].
    apply heap_history_same_heap, conns_unsubscribeFromPoll.
Qed.

Lemma heap_history_step e st : heap_history st (state_of (step jwt_verify e st)).
Proof.
  destruct e; simpl.
  - apply heap_history_on_connection.
  - unfold on_message. destruct (conns st !! n) as [c|]; [|apply heap_history_refl].
    apply heap_history_try_catch; [|intros st'; apply heap_history_ws_send].
    destruct message; [apply heap_history_refl..|apply heap_history_handleMessage].
  - apply heap_history_on_close.
  - apply heap_history_on_pingInterval.
  - apply heap_history_update_conn. intros c0. apply mut_lastPing.
  - apply heap_history_cleanupInactiveConnections.
  - apply heap_history_broadcastPollUpdate.
  - apply heap_history_update_conn. intros c0. apply mut_transport.
Qed.

Lemma heap_history_run es st : heap_history st (run jwt_verify es st).
Proof.
  revert st. induction es as [|e es IH]; intros st; simpl;
    [apply heap_history_refl|].
  eapply heap_history_trans; [apply heap_history_step|apply IH].
Qed.

End History.

Lemma history_fixed_fields c c' :
  history c c' →
  id (info c') = id (info c) ∧ ip (info c') = ip (info c) ∧
  userAgent (info c') = userAgent (info c) ∧
  connectedAt (info c') = connectedAt (info c).
Proof.
  induction 1 as [c|c1 c2 c3 Hm _ IH]; [done|].
  destruct IH as (-> & -> & -> & ->). by destruct Hm.
Qed.

Lemma history_authenticated c c' :
  history c c' → authenticated (info c) = true → authenticated (info c') = true.
Proof.
  induction 1 as [c|c1 c2 c3 Hm _ IH]; [done|].
  intros Ha. apply IH. by destruct Hm.
Qed.

Lemma history_cleared_timer c c' :
  history c c' → pingInterval c = false →
  pingInterval c' = false ∧ pings (ws c') = pings (ws c).
Proof.
  induction 1 as [c|c1 c2 c3 Hm _ IH]; [done|].
  intros Ht.
  assert (pingInterval c2 = false ∧ pings (ws c2) = pings (ws c1)) as [Ht2 Hp2].
  { destruct Hm; simpl; try done. congruence. }
  destruct (IH Ht2) as [-> ->]. done.
Qed.

Section Lifetime.
Variable jwt_verify : Z → JsVal → option JsVal.

(** X16. The record of a connection keeps the id, the address, the user agent
    and the time of acceptance it was created with, whatever happens. *)
Theorem connection_fields_fixed es st n c :
  conns st !! n = Some c →
  ∃ c', conns (run jwt_verify es st) !! n = Some c' ∧
    id (info c') = id (info c) ∧ ip (info c') = ip (info c) ∧
    userAgent (info c') = userAgent (info c) ∧
    connectedAt (info c') = connectedAt (info c).
Proof.
  intros Hc. destruct (heap_history_run jwt_verify es st _ _ Hc) as (c' & Hc' & Hh).
  exists c'. split; [done|]. by apply history_fixed_fields.
Qed.

(** X17. Authentication is a latch: a record marked as authenticated stays
    marked, whatever happens: a later authenticate frame with a bad token,
    the closing of the socket, the eviction by the sweeper. *)
Theorem authenticated_stays es st n c :
  conns st !! n = Some c → authenticated (info c) = true →
  ∃ c', conns (run jwt_verify es st) !! n = Some c' ∧
        authenticated (info c') = true.
Proof.
  intros Hc Ha. destruct (heap_history_run jwt_verify es st _ _ Hc) as (c' & Hc' & Hh).
  exists c'. split; [done|]. by eapply history_authenticated.
Qed.

(** X18. When a turn of the ping timer of a connection finds its socket not
    open, the timer is cleared, and from then on the server never pings the
    socket again, whatever happens, a transport reported open again
    included. *)
Theorem ping_timer_stops es st n c now :
  conns st !! n = Some c → readyState (ws c) ≠ OPEN →
  ∃ c', conns (run jwt_verify es (on_pingInterval n now st)) !! n = Some c' ∧
        pingInterval c' = false ∧ pings (ws c') = pings (ws c).
Proof.
  intros Hc Hr.
  assert (∃ c1, conns (on_pingInterval n now st) !! n = Some c1 ∧
                pingInterval c1 = false ∧ pings (ws c1) = pings (ws c))
    as (c1 & Hc1 & Ht1 & Hp1).
  { unfold on_pingInterval. rewrite Hc.
    destruct (pingInterval c) eqn:Ht; [|by exists c].
    rewrite decide_False by done.
    rewrite conns_update_conn, decide_True, Hc by done. simpl. eauto. }
  destruct (heap_history_run jwt_verify es _ _ _ Hc1) as (c' & Hc' & Hh).
  exists c'. split; [done|].
  destruct (history_cleared_timer _ _ Hh Ht1) as [-> ->]. done.
Qed.

End Lifetime.

(** ** The maps agree with each other *)

















Section Consistency.
Variable jwt_verify : Z → JsVal → option JsVal.





End Consistency.

(** ** Nothing is left of a client that is gone *)

Lemma same_ids_refl st : same_ids st st.
Proof. done. Qed.

Lemma same_ids_trans st1 st2 st3 :
  same_ids st1 st2 → same_ids st2 st3 → same_ids st1 st3.
Proof. intros H1 H2 n. by rewrite H2. Qed.

Lemma same_ids_lookup st st' n c :
  same_ids st st' → conns st !! n = Some c →
  ∃ c', conns st' !! n = Some c' ∧ id (info c') = id (info c).
Proof.
  intros Hs Hc. specialize (Hs n). rewrite Hc in Hs.
  destruct (conns st' !! n) as [c'|]; [|done]. exists c'. split; [done|].
  simpl in Hs. congruence.
Qed.

Lemma same_ids_length st st' :
  same_ids st st' → length (conns st') = length (conns st).
Proof.
  intros Hs.
  destruct (Nat.lt_trichotomy (length (conns st')) (length (conns st)))
    as [Hlt|[?|Hlt]]; [|done|].
  - specialize (Hs (length (conns st'))).
    rewrite (lookup_ge_None_2 (conns st')) in Hs by lia.
    apply lookup_lt_is_Some_2 in Hlt as [c Hc]. by rewrite Hc in Hs.
  - specialize (Hs (length (conns st))).
    rewrite (lookup_ge_None_2 (conns st)) in Hs by lia.
    apply lookup_lt_is_Some_2 in Hlt as [c Hc]. by rewrite Hc in Hs.
Qed.

Lemma same_ids_same_heap st st' : conns st' = conns st → same_ids st st'.
Proof. intros H n. by rewrite H. Qed.

Lemma same_ids_update_conn n f st :
  (∀ c, id (info (f c)) = id (info c)) → same_ids st (update_conn n f st).
Proof.
  intros Hf m. rewrite conns_update_conn. case_decide; [|done].
  destruct (conns st !! m); simpl; [by rewrite Hf|done].
Qed.

Lemma shrunk_refl st : shrunk st st.
Proof. split; eauto using same_ids_refl. Qed.

Lemma shrunk_trans st1 st2 st3 : shrunk st1 st2 → shrunk st2 st3 → shrunk st1 st3.
Proof.
  intros [A1 A2 A3 A4] [B1 B2 B3 B4]. split.
  - by eapply same_ids_trans.
  - eauto.
  - eauto.
  - intros p s3 Hs3. destruct (B4 _ _ Hs3) as (s2 & Hs2 & ?).
    destruct (A4 _ _ Hs2) as (s1 & Hs1 & ?). exists s1. split; [done|set_solver].
Qed.

Lemma shrunk_occurs st st' k : shrunk st st' → occurs st' k → occurs st k.
Proof.
  intros [A1 A2 A3 A4] [Hk|[Hk|(p & s' & Hs' & Hin)]].
  - left. destruct (clients st !! k) eqn:E; [done|].
    rewrite (A2 _ E) in Hk. by destruct Hk.
  - right; left. destruct (authenticatedClients st !! k) eqn:E; [done|].
    rewrite (A3 _ E) in Hk. by destruct Hk.
  - right; right. destruct (A4 _ _ Hs') as (s & Hs & Hsub).
    exists p, s. split; [done|set_solver].
Qed.

Lemma shrunk_update_conn n f st :
  (∀ c, id (info (f c)) = id (info c)) → shrunk st (update_conn n f st).
Proof.
  intros Hf. split; st_simpl; eauto. by apply same_ids_update_conn.
Qed.

Lemma shrunk_update_clientInfo k f st :
  (∀ c, id (info (with_info f c)) = id (info c)) →
  shrunk st (update_clientInfo k f st).
Proof.
  intros Hf. unfold update_clientInfo.
  destruct (clients st !! k); [by apply shrunk_update_conn|apply shrunk_refl].
Qed.

Lemma shrunk_ws_send n frame st : shrunk st (state_of (ws_send n frame st)).
Proof.
  destruct (ws_send_spec n frame st) as [[-> _]|(c & _ & _ & ->)];
    [apply shrunk_refl|by apply shrunk_update_conn].
Qed.

Lemma shrunk_removal k st :
  shrunk st (removeFromPollSubscriptions k
    (set_authenticatedClients (delete k) (set_clients (delete k) st))).
Proof.
  split; st_simpl.
  - apply same_ids_same_heap. by st_simpl.
  - intros k' Hk. by rewrite lookup_delete_None; right.
  - intros k' Hk. by rewrite lookup_delete_None; right.
  - intros p s' Hs'.
    apply removeFromPollSubscriptions_subseteq in Hs' as (s & Hs & ->).
    st_simpl. exists s. split; [done|set_solver].
Qed.

Lemma shrunk_unsubscribeFromPoll k p st : shrunk st (unsubscribeFromPoll k p st).
Proof.
  split.
  - apply same_ids_same_heap, conns_unsubscribeFromPoll.
  - intros k'. by rewrite clients_unsubscribeFromPoll.
  - intros k'. by rewrite authenticatedClients_unsubscribeFromPoll.
  - intros q s'. rewrite unsubscribeFromPoll_lookup. case_decide; [|eauto].
    destruct (pollSubscriptions st !! q) as [s|]; simpl; [|done].
    case_decide; [done|]. intros [= <-]. exists s. split; [done|set_solver].
Qed.

Lemma shrunk_subscribers_delete p k st : shrunk st (subscribers_delete p k st).
Proof.
  split; [by apply same_ids_same_heap|done|done|].
  intros q s'. unfold subscribers_delete. st_simpl.
  destruct (decide (p = q)) as [<-|Hne].
  - rewrite lookup_alter_eq.
    destruct (pollSubscriptions st !! p) as [s|]; simpl; [|done].
    intros [= <-]. exists s. split; [done|set_solver].
  - rewrite lookup_alter_ne by done. eauto.
Qed.

Lemma shrunk_broadcast_step pollId message x acc :
  shrunk acc.1.1 (broadcast_step pollId message x acc).1.1.
Proof.
  destruct acc as [[st sc] fc]. cbn [fst snd]. unfold broadcast_step.
  destruct (clients st !! x) as [r|]; [|apply shrunk_subscribers_delete].
  destruct (conns st !! r) as [c|]; [|apply shrunk_subscribers_delete].
  case_decide; [|apply shrunk_subscribers_delete].
  pose proof (shrunk_ws_send r message st) as Hs.
  destruct (ws_send r message st) as [st1|st1]; cbn [fst snd state_of] in *;
    [done|].
  eapply shrunk_trans; [done|].
  eapply shrunk_trans; [|apply shrunk_subscribers_delete].
  split; st_simpl; eauto; [done|].
  intros k Hk. by rewrite lookup_delete_None; right.
Qed.

Lemma shrunk_broadcastPollUpdate pollId pollData now st :
  shrunk st (state_of (broadcastPollUpdate pollId pollData now st)).
Proof.
  unfold broadcastPollUpdate.
  destruct (pollSubscriptions st !! pollId) as [s|]; [|apply shrunk_refl].
  destruct pollData as [poll|]; [|apply shrunk_refl]. simpl. unfold broadcast_loop.
  apply (set_fold_ind_L (λ r _, shrunk st r.1.1)); [apply shrunk_refl|].
  intros x Y r _ IH. eapply shrunk_trans; [done|apply shrunk_broadcast_step].
Qed.

Lemma shrunk_cleanupInactiveConnections now st :
  shrunk st (cleanupInactiveConnections now st).
Proof.
  unfold cleanupInactiveConnections.
  apply (map_fold_weak_ind (λ r _, shrunk st r)); [apply shrunk_refl|].
  intros k r m st' _ IH. eapply shrunk_trans; [done|]. unfold cleanup_step.
  destruct (conns st' !! r) as [c|]; [|apply shrunk_refl].
  case_decide; [|apply shrunk_refl].
  eapply shrunk_trans; [|apply shrunk_removal].
  case_decide; [by apply shrunk_update_conn|apply shrunk_refl].
Qed.

Lemma shrunk_on_close n st : shrunk st (on_close n st).
Proof.
  unfold on_close. destruct (conns st !! n) as [c|] eqn:Hc; [|apply shrunk_refl].
  eapply shrunk_trans; [|apply shrunk_removal]. by apply shrunk_update_conn.
Qed.

Lemma shrunk_on_pingInterval n now st : shrunk st (on_pingInterval n now st).
Proof.
  unfold on_pingInterval. destruct (conns st !! n) as [c|]; [|apply shrunk_refl].
  destruct (pingInterval c); [|apply shrunk_refl].
  case_decide; [|by apply shrunk_update_conn].
  eapply shrunk_trans; by apply shrunk_update_conn.
Qed.

Lemma shrunk_adds k st st' : shrunk st st' → adds k st st'.
Proof.
  intros Hs. split; [apply Hs|]. intros k' Hk'. left. by eapply shrunk_occurs.
Qed.

Lemma adds_trans k st1 st2 st3 : adds k st1 st2 → adds k st2 st3 → adds k st1 st3.
Proof.
  intros [A1 A2] [B1 B2]. split; [by eapply same_ids_trans|].
  intros k' Hk'. destruct (B2 _ Hk') as [?|?]; eauto.
Qed.

Lemma adds_subscribeToPoll k p st : adds k st (subscribeToPoll k p st).
Proof.
  split; [apply same_ids_same_heap, conns_subscribeToPoll|].
  intros k' [Hk'|[Hk'|(q & s & Hs & Hin)]].
  - left. left. by rewrite clients_subscribeToPoll in Hk'.
  - left. right; left. by rewrite authenticatedClients_subscribeToPoll in Hk'.
  - rewrite subscribeToPoll_lookup in Hs. case_decide; simplify_eq.
    + apply elem_of_union in Hin as [->%elem_of_singleton|Hin]; [by right|].
      left. right; right. unfold subscribers_of in Hin.
      destruct (pollSubscriptions st !! q) as [s|] eqn:Hs; simpl in Hin;
        [eauto|set_solver].
    + left. right; right. eauto.
Qed.

Lemma adds_authenticate k uid now st :
  adds k st (set_authenticatedClients <[k := (uid, now)]>
               (update_clientInfo k (set_authenticated uid now) st)).
Proof.
  apply (adds_trans _ _ (update_clientInfo k (set_authenticated uid now) st));
    [by apply shrunk_adds, shrunk_update_clientInfo|].
  set (st1 := update_clientInfo _ _ _). split; [done|].
  intros k' [Hk'|[Hk'|Hk']]; st_simpl.
  - left. by left.
  - destruct (decide (k = k')) as [<-|Hne]; [by right|].
    rewrite lookup_insert_ne in Hk' by done. left. right. by left.
  - left. right. by right.
Qed.

Lemma forgotten_on_close n st c :
  conns st !! n = Some c → ¬ occurs (on_close n st) (id (info c)).
Proof.
  intros Hc. unfold on_close. rewrite Hc.
  intros [Hk|[Hk|(p & s & Hs & Hin)]]; st_simpl.
  - rewrite lookup_delete_eq in Hk. by destruct Hk.
  - rewrite lookup_delete_eq in Hk. by destruct Hk.
  - by apply removeFromPollSubscriptions_absent in Hs.
Qed.

Lemma no_empty_topic_on_close_some n st :
  is_Some (conns st !! n) → no_empty_topic (on_close n st).
Proof.
  intros [c Hc]. unfold on_close. rewrite Hc.
  apply no_empty_topic_removeFromPollSubscriptions.
Qed.

Lemma live_shrunk closed st st' : live closed st → shrunk st st' → live closed st'.
Proof.
  intros [L1 L2 L3] Hs. pose proof (same_ids_length _ _ (sh_ids _ _ Hs)) as Hlen.
  split.
  - intros n Hn. rewrite Hlen. by apply L1.
  - intros k Hk. destruct (L2 k) as (n & c & Hn & Hc & Hid);
      [by eapply shrunk_occurs|].
    destruct (same_ids_lookup _ _ _ _ (sh_ids _ _ Hs) Hc) as (c' & Hc' & Hid').
    exists n, c'. split; [done|]. split; [done|congruence].
  - intros p [s' Hs']. rewrite Hlen. apply (L3 p).
    destruct (sh_subscribers _ _ Hs _ _ Hs') as (s & -> & _). eauto.
Qed.

Lemma live_adds closed st st' n c :
  live closed st → n ∉ closed → conns st !! n = Some c →
  adds (id (info c)) st st' → live closed st'.
Proof.
  intros [L1 L2 L3] Hn Hc [A1 A2].
  pose proof (same_ids_length _ _ A1) as Hlen.
  assert (Hex : ∀ k, occurs st k ∨ k = id (info c) →
            ∃ n' c', (n' ∉ closed) ∧ conns st' !! n' = Some c' ∧ id (info c') = k).
  { intros k [Hk| ->].
    - destruct (L2 k Hk) as (n' & c' & Hn' & Hc' & Hid).
      destruct (same_ids_lookup _ _ _ _ A1 Hc') as (c'' & Hc'' & Hid').
      exists n', c''. split; [done|]. split; [done|congruence].
    - destruct (same_ids_lookup _ _ _ _ A1 Hc) as (c'' & Hc'' & Hid').
      exists n, c''. by split. }
  split.
  - intros m Hm. rewrite Hlen. by apply L1.
  - intros k Hk. by apply Hex, A2.
  - intros p _. exists n. split; [done|]. rewrite Hlen. by eapply lookup_lt_Some.
Qed.

Lemma live_on_close closed n st :
  live closed st → (n < length (conns st))%nat →
  live (n :: closed) (on_close n st).
Proof.
  intros [L1 L2 L3] Hn. apply lookup_lt_is_Some_2 in Hn as [c Hc].
  pose proof (shrunk_on_close n st) as Hs.
  pose proof (same_ids_length _ _ (sh_ids _ _ Hs)) as Hlen.
  assert (Hkeys : ∀ k, occurs (on_close n st) k →
    ∃ n' c', (n' ∉ n :: closed) ∧ conns (on_close n st) !! n' = Some c' ∧
             id (info c') = k).
  { intros k Hk. destruct (L2 k) as (n' & c' & Hn' & Hc' & Hid);
      [by eapply shrunk_occurs|].
    destruct (same_ids_lookup _ _ _ _ (sh_ids _ _ Hs) Hc') as (c'' & Hc'' & Hid').
    exists n', c''. split; [|split; [done|congruence]].
    intros [->|?]%elem_of_cons; [|done].
    apply (forgotten_on_close n st c Hc).
    by replace (id (info c)) with k by congruence. }
  split; [|done|].
  - intros m [->|Hm]%elem_of_cons; rewrite Hlen;
      [by eapply lookup_lt_Some|by apply L1].
  - intros p [s Hs'].
    pose proof (no_empty_topic_on_close_some n st ltac:(eauto) _ _ Hs') as Hne.
    apply set_choose_L in Hne as [k Hk].
    destruct (Hkeys k) as (n' & c' & Hn' & Hc' & _).
    { right; right. eauto. }
    exists n'. split; [done|]. by eapply lookup_lt_Some.
Qed.

Lemma live_on_connection closed random36 remoteAddress ua now st :
  live closed st →
  live closed (state_of (on_connection random36 remoteAddress ua now st)) ∧
  length (conns (state_of (on_connection random36 remoteAddress ua now st)))
    = S (length (conns st)).
Proof.
  intros [L1 L2 L3]. unfold on_connection.
  set (k := generateClientId random36 now).
  set (st2 := set_clients _ _).
  assert (Hlen2 : length (conns st2) = S (length (conns st))).
  { unfold st2, set_clients, set_conns. simpl. rewrite length_app. simpl. lia. }
  pose proof (shrunk_ws_send (length (conns st)) (FConnected k) st2) as Hs.
  split; [|by rewrite (same_ids_length _ _ (sh_ids _ _ Hs))].
  eapply live_shrunk; [|done]. split.
  - intros n Hn. rewrite Hlen2. specialize (L1 n Hn). lia.
  - intros k' Hk'.
    assert (Hor : occurs st k' ∨ k' = k).
    { destruct Hk' as [Hk'|[Hk'|Hk']]; unfold st2, set_clients, set_conns in Hk';
        simpl in Hk'.
      - destruct (decide (k = k')) as [<-|Hne]; [by right|].
        rewrite lookup_insert_ne in Hk' by done. left. by left.
      - left. right. by left.
      - left. right. by right. }
    destruct Hor as [Hold| ->].
    + destruct (L2 _ Hold) as (n & c & Hn & Hc & Hid). exists n, c.
      split; [done|]. split; [|done].
      unfold st2, set_clients, set_conns. simpl. by apply lookup_app_l_Some.
    + exists (length (conns st)), (new_connection k remoteAddress ua now).
      split; [intros Hin; specialize (L1 _ Hin); lia|]. split; [|done].
      unfold st2, set_clients, set_conns. simpl.
      by rewrite lookup_app_r, Nat.sub_diag.
  - intros p Hp. destruct (L3 p Hp) as (n & Hn & Hlt).
    exists n. split; [done|]. rewrite Hlen2. lia.
Qed.

Section NoLeak.
Variable jwt_verify : Z → JsVal → option JsVal.

Lemma adds_handleMessage k type pollId token n now st :
  adds k st (state_of (handleMessage jwt_verify k type pollId token n now st)).
Proof.
  unfold handleMessage.
  set (st1 := update_clientInfo k (set_lastActivity now) st).
  apply (adds_trans _ _ st1); [by apply shrunk_adds, shrunk_update_clientInfo|].
  clearbody st1.
  assert (Hsend : ∀ frame st0 st', adds k st' st0 →
            adds k st' (state_of (ws_send n frame st0))).
  { intros frame st0 st' H0. eapply adds_trans; [done|].
    apply shrunk_adds, shrunk_ws_send. }
  assert (Hrefl : adds k st1 st1) by apply shrunk_adds, shrunk_refl.
  destruct (is_type type "authenticate").
  { unfold handleAuthentication.
    destruct (negb (truthy token)); [by apply Hsend|].
    destruct (jwt_verify now token) as [uid|]; [|by apply Hsend].
    match goal with |- context [try_catch ?o _] =>
      assert (Ho : adds k st1 (state_of o)) end.
    { apply Hsend, adds_authenticate. }
    destruct (ws_send _ _ _) as [st2|st2]; simpl in *; [done|].
    by apply Hsend. }
  destruct (is_type type "subscribe").
  { destruct (negb (truthy pollId)); [by apply Hsend|].
    destruct (negb (isClientAuthenticated st1 k)); [by apply Hsend|].
    apply Hsend, adds_subscribeToPoll. }
  destruct (is_type type "unsubscribe").
  { destruct (negb (truthy pollId)); [by apply Hsend|].
    apply Hsend, shrunk_adds, shrunk_unsubscribeFromPoll. }
  repeat match goal with
  | |- context [if ?b then _ else _] => destruct b
  end; by apply Hsend.
Qed.

Lemma adds_on_message n message now st c :
  conns st !! n = Some c →
  adds (id (info c)) st (state_of (on_message jwt_verify n message now st)).
Proof.
  intros Hc. unfold on_message. rewrite Hc.
  match goal with |- context [try_catch ?o _] =>
    assert (Ho : adds (id (info c)) st (state_of o)) end.
  { destruct message; [by apply shrunk_adds, shrunk_refl..|].
    apply adds_handleMessage. }
  destruct (match message with ParseError => _ | _ => _ end) as [st1|st1];
    simpl in *; [done|].
  eapply adds_trans; [done|]. apply shrunk_adds, shrunk_ws_send.
Qed.

Lemma elem_of_closed_by n es : n ∈ closed_by es ↔ EClose n ∈ es.
Proof.
  unfold closed_by. rewrite list_elem_of_omap. split.
  - intros (e & He & Hn). destruct e; simplify_eq. done.
  - intros He. exists (EClose n). done.
Qed.

Lemma no_leak_from es : ∀ closed st,
  live closed st →
  orderly (length (conns st)) closed es = true →
  (∀ n, (n < length (conns (run jwt_verify es st)))%nat →
     n ∈ closed ∨ n ∈ closed_by es) →
  clients (run jwt_verify es st) = ∅ ∧
  authenticatedClients (run jwt_verify es st) = ∅ ∧
  pollSubscriptions (run jwt_verify es st) = ∅.
Proof.
  induction es as [|e es IH]; intros closed st Hl Ho Hall.
  { simpl in *. destruct Hl as [L1 L2 L3].
    assert (Hno : ∀ k, ¬ occurs st k).
    { intros k Hk. destruct (L2 k Hk) as (n & c & Hn & Hc & _).
      apply lookup_lt_Some in Hc.
      destruct (Hall n Hc) as [?|Hin]; [done|]. by apply elem_of_nil in Hin. }
    split; [|split]; apply map_eq; intros x; rewrite lookup_empty.
    - destruct (clients st !! x) eqn:E; [|done]. destruct (Hno x). left. eauto.
    - destruct (authenticatedClients st !! x) eqn:E; [|done].
      destruct (Hno x). right; left. eauto.
    - destruct (pollSubscriptions st !! x) eqn:E; [|done].
      destruct (L3 x) as (n & Hn & Hlt); [eauto|].
      destruct (Hall n Hlt) as [?|Hin]; [done|]. by apply elem_of_nil in Hin. }
  change (run jwt_verify (e :: es) st)
    with (run jwt_verify es (state_of (step jwt_verify e st))) in *.
  assert (Hkeep : ∀ st', shrunk st st' →
    orderly (length (conns st)) closed es = true →
    (∀ n, (n < length (conns (run jwt_verify es st')))%nat →
       n ∈ closed ∨ n ∈ closed_by es) →
    clients (run jwt_verify es st') = ∅ ∧
    authenticatedClients (run jwt_verify es st') = ∅ ∧
    pollSubscriptions (run jwt_verify es st') = ∅).
  { intros st' Hs Ho' Hall'. apply (IH closed); [by eapply live_shrunk| |done].
    by rewrite (same_ids_length _ _ (sh_ids _ _ Hs)). }
  destruct e; cbn [step state_of orderly closed_by omap] in *.
  - destruct (live_on_connection closed random36 remoteAddress ua now st Hl)
      as [Hl' Hlen].
    apply (IH closed); [done|by rewrite Hlen|done].
  - apply andb_prop in Ho as [Hn%bool_decide_eq_true Ho].
    destruct (conns st !! n) as [c|] eqn:Hc.
    + pose proof (adds_on_message n message now st c Hc) as Ha.
      apply (IH closed); [by eapply live_adds| |done].
      by rewrite (same_ids_length _ _ (ad_ids _ _ _ Ha)).
    + unfold on_message in *. rewrite Hc in *. by apply (IH closed).
  - apply andb_prop in Ho as [Hn%bool_decide_eq_true Ho].
    apply (IH (n :: closed)); [by apply live_on_close| |].
    + by rewrite (same_ids_length _ _ (sh_ids _ _ (shrunk_on_close n st))).
    + intros m Hm. rewrite elem_of_cons.
      destruct (Hall m Hm) as [?|[->|?]%elem_of_cons]; eauto.
  - apply Hkeep; [apply shrunk_on_pingInterval|done..].
  - apply Hkeep; [by apply shrunk_update_conn|done..].
  - apply Hkeep; [apply shrunk_cleanupInactiveConnections|done..].
  - apply Hkeep; [apply shrunk_broadcastPollUpdate|done..].
  - apply Hkeep; [by apply shrunk_update_conn|done..].
Qed.

(** X20. Nothing is left of the clients that are gone.  Take any run of the
    handler from its start in which close events are for accepted
    connections and no message arrives on a connection after its close
    event; publishes, sweeps, pings and failing transports may come at any
    point.  If the close event of every accepted connection is in the run,
    the three maps are empty at the end. *)
Theorem no_leak es :
  orderly 0 [] es = true →
  (∀ n, (n < length (conns (run jwt_verify es initial)))%nat → EClose n ∈ es) →
  clients (run jwt_verify es initial) = ∅ ∧
  authenticatedClients (run jwt_verify es initial) = ∅ ∧
  pollSubscriptions (run jwt_verify es initial) = ∅.
Proof.
  intros Ho Hall. apply (no_leak_from es []); [|done|].
  - split.
    + by intros n ?%elem_of_nil.
    + intros k [[x Hk]|[[x Hk]|(p & s & Hs & _)]]; simpl in *;
        by rewrite lookup_empty in *.
    + intros p [s Hs]. simpl in Hs. by rewrite lookup_empty in Hs.
  - intros n Hn. right. by apply elem_of_closed_by, Hall.
Qed.

End NoLeak.

(** ** Ids of different clocks *)

Lemma value36_digit36 d : 0 ≤ d < 36 → value36 (digit36 d) = d.
Proof.
  intros Hd. rewrite <- (Z2Nat.id d) at 2 by lia.
  assert (Hn : (Z.to_nat d < 36)%nat) by lia.
  unfold digit36. generalize dependent (Z.to_nat d). clear. intros n Hn.
  do 36 (destruct n as [|n]; [vm_compute; reflexivity|]). lia.
Qed.


Lemma append_cons c (s t : string) : String c s +:+ t = String c (s +:+ t).
Proof. done. Qed.

Lemma append_assoc (s1 s2 s3 : string) : (s1 +:+ s2) +:+ s3 = s1 +:+ (s2 +:+ s3).
Proof. induction s1 as [|c s1 IH]; [done|]. by rewrite !append_cons, IH. Qed.

Lemma append_nil_r (s : string) : s +:+ "" = s.
Proof. induction s as [|c s IH]; [done|]. by rewrite append_cons, IH. Qed.

Lemma length_append_digit (s : string) c :
  String.length (s +:+ String c "") = S (String.length s).
Proof.
  induction s as [|c' s IH]; [done|]. rewrite append_cons. simpl. by rewrite IH.
Qed.

Lemma parse36_app s1 s2 a : parse36 (s1 +:+ s2) a = parse36 s2 (parse36 s1 a).
Proof.
  revert a. induction s1 as [|c s1 IH]; intros a; [done|].
  rewrite append_cons. simpl. apply IH.
Qed.

Lemma toString36_digits_spec fuel : ∀ n acc,
  0 ≤ n < 2 ^ Z.of_nat fuel →
  ∃ ds, toString36_digits fuel n acc = ds +:+ acc ∧
        ∀ a, parse36 ds a = a * 36 ^ Z.of_nat (String.length ds) + n.
Proof.
  induction fuel as [|fuel IH]; intros n acc Hn.
  { exists "". split; [done|]. intros a. simpl in *. lia. }
  cbn [toString36_digits].
  assert (Hmod : 0 ≤ n mod 36 < 36) by (apply Z.mod_pos_bound; lia).
  assert (Hdiv : n = 36 * (n / 36) + n mod 36) by (apply Z.div_mod; lia).
  destruct (n / 36 =? 0) eqn:Hq.
  - apply Z.eqb_eq in Hq. exists (String (digit36 (n mod 36)) "").
    split; [done|]. intros a. cbn [parse36 String.length].
    rewrite value36_digit36 by done. change (36 ^ Z.of_nat 1) with 36. lia.
  - apply Z.eqb_neq in Hq.
    destruct (IH (n / 36) (String (digit36 (n mod 36)) acc)) as (ds & Hds & Hp).
    { split; [apply Z.div_pos; lia|].
      rewrite Nat2Z.inj_succ, Z.pow_succ_r in Hn by lia.
      apply Z.div_lt_upper_bound; lia. }
    exists (ds +:+ String (digit36 (n mod 36)) ""). split.
    + by rewrite Hds, append_assoc.
    + intros a. rewrite parse36_app, Hp. cbn [parse36].
      rewrite value36_digit36 by done.
      rewrite length_append_digit, Nat2Z.inj_succ, Z.pow_succ_r by lia. lia.
Qed.

Lemma parse36_toString36 n : 0 ≤ n → parse36 (toString36 n) 0 = n.
Proof.
  intros Hn. unfold toString36.
  destruct (n <? 0) eqn:Hneg; [apply Z.ltb_lt in Hneg; lia|].
  destruct (toString36_digits_spec (S (Z.to_nat (Z.log2 n))) n "") as (ds & Hds & Hp).
  { split; [done|]. rewrite Nat2Z.inj_succ, Z2Nat.id by apply Z.log2_nonneg.
    destruct (decide (n = 0)) as [->|]; [done|]. apply Z.log2_spec. lia. }
  rewrite Hds, append_nil_r, Hp. lia.
Qed.

(** X21. With the same random draw, connections accepted at different
    (non-negative) millisecond clocks get different ids: the clock suffix of
    an id determines the clock. *)
Theorem generateClientId_different_clocks random36 now1 now2 :
  0 ≤ now1 → 0 ≤ now2 → now1 ≠ now2 →
  generateClientId random36 now1 ≠ generateClientId random36 now2.
Proof.
  intros H1 H2 Hne Heq. apply Hne. unfold generateClientId in Heq.
  apply (inj (String.app _)) in Heq.
  rewrite <- (parse36_toString36 now1), <- (parse36_toString36 now2) by done.
  by rewrite Heq.
Qed.

Lemma generateClientId_different_clocks_witness :
  0 ≤ 1700000000000 ∧
  generateClientId "0.4fzyo82mvyr" 1700000000000
  ≠ generateClientId "0.4fzyo82mvyr" 1700000000001.
Proof.
  split; [lia|]. apply generateClientId_different_clocks; lia.
Defined.

(** ** One answer to every message *)

Lemma ws_send_one_answer n frame st st0 :
  can_send st0 n → (∀ m, sent_of st0 m = sent_of st m) →
  ∃ st', ws_send n frame st0 = Returned st' ∧ one_answer n st st'.
Proof.
  intros Hs Hsent. eexists. split; [by apply ws_send_can_send|]. split.
  - exists frame. by rewrite sent_of_push_can_send, Hsent.
  - intros m Hm. by rewrite sent_of_push_ne, Hsent.
Qed.

Lemma can_send_same_heap st st' n : conns st' = conns st → can_send st n → can_send st' n.
Proof. intros H (c & Hc & Ht). exists c. by rewrite H. Qed.

Section Answers.
Variable jwt_verify : Z → JsVal → option JsVal.

Lemma handleMessage_one_answer k type pollId token n now st :
  can_send st n →
  ∃ st', handleMessage jwt_verify k type pollId token n now st = Returned st' ∧
         one_answer n st st'.
Proof.
  intros Hs. unfold handleMessage.
  set (st1 := update_clientInfo k (set_lastActivity now) st).
  assert (Hs1 : can_send st1 n) by (by apply can_send_update_clientInfo).
  assert (Hsent1 : ∀ m, sent_of st1 m = sent_of st m)
    by (intros m; apply sent_of_update_clientInfo).
  clearbody st1.
  destruct (is_type type "authenticate").
  { unfold handleAuthentication.
    destruct (negb (truthy token)); [by apply ws_send_one_answer|].
    destruct (jwt_verify now token) as [uid|]; [|by apply ws_send_one_answer].
    match goal with |- context [try_catch (ws_send n ?f ?s) _] =>
      destruct (ws_send_one_answer n f st s) as (st' & Hst' & Ha) end.
    - apply (can_send_same_heap (update_clientInfo k (set_authenticated uid now) st1));
        [done|]. by apply can_send_update_clientInfo.
    - intros m. rewrite <- Hsent1.
      rewrite (sent_of_same_heap (update_clientInfo k (set_authenticated uid now) st1))
        by done.
      apply sent_of_update_clientInfo.
    - rewrite Hst'. simpl. eauto. }
  destruct (is_type type "subscribe").
  { destruct (negb (truthy pollId)); [by apply ws_send_one_answer|].
    destruct (negb (isClientAuthenticated st1 k)); [by apply ws_send_one_answer|].
    apply ws_send_one_answer.
    - by apply (can_send_same_heap st1); [apply conns_subscribeToPoll|].
    - intros m. rewrite <- Hsent1. apply sent_of_same_heap, conns_subscribeToPoll. }
  destruct (is_type type "unsubscribe").
  { destruct (negb (truthy pollId)); [by apply ws_send_one_answer|].
    apply ws_send_one_answer.
    - by apply (can_send_same_heap st1); [apply conns_unsubscribeFromPoll|].
    - intros m. rewrite <- Hsent1. apply sent_of_same_heap, conns_unsubscribeFromPoll. }
  repeat match goal with
  | |- context [if ?b then _ else _] => destruct b
  end; by apply ws_send_one_answer.
Qed.

(** X22. Every message that arrives on a connection whose socket accepts
    writes is answered with exactly one frame, whatever the message is
    (unparsable, of an unknown type, rejected or accepted); no frame goes to
    another socket, and the callback returns. *)
Theorem one_answer_per_message st n c message now :
  conns st !! n = Some c → sendThrows (ws c) = false →
  ∃ st', on_message jwt_verify n message now st = Returned st' ∧
         one_answer n st st'.
Proof.
  intros Hc Ht. assert (Hs : can_send st n) by (by exists c).
  unfold on_message. rewrite Hc.
  destruct message as [| |type pollId token]; cbn [try_catch].
  - by apply ws_send_one_answer.
  - by apply ws_send_one_answer.
  - destruct (handleMessage_one_answer (id (info c)) type pollId token n now st Hs)
      as (st' & -> & Ha). simpl. eauto.
Qed.

End Answers.

(** ** The further properties on concrete inputs *)


Lemma subscribe_unsubscribe_round_trip_witness :
  unsubscribeFromPoll "z9" (JStr "T") (subscribeToPoll "z9" (JStr "T") example_state)
    = example_state ∧
  subscribeToPoll "a1" (JStr "T") (unsubscribeFromPoll "a1" (JStr "T") example_state)
    = example_state.
Proof.
  split.
  - apply (proj1 (subscribe_unsubscribe_round_trip "z9" (JStr "T") example_state)).
    + refine (bool_decide_unpack _ _). vm_compute. exact I.
    + refine (bool_decide_unpack _ _). vm_compute. exact I.
  - apply (proj2 (subscribe_unsubscribe_round_trip "a1" (JStr "T") example_state)).
    refine (bool_decide_unpack _ _). vm_compute. exact I.
Defined.

Lemma missing_pollId_witness :
  on_message example_verify 0 (PData (JStr "subscribe") JUndefined JUndefined) 2
    one_client =
  Returned
    (update_conn 0
       (push_frames
          [FError (if decide (JStr "subscribe" = JStr "subscribe")
                   then "Poll ID is required for subscription"
                   else "Poll ID is required for unsubscription")])
       (update_clientInfo (id (info one_client_conn)) (set_lastActivity 2)
          one_client)).
Proof.
  refine (missing_pollId example_verify one_client 0 one_client_conn
            (JStr "subscribe") JUndefined JUndefined 2 _ _ _ _).
  - vm_compute. reflexivity.
  - reflexivity.
  - reflexivity.
  - left. reflexivity.
Defined.

Lemma ping_and_getStats_witness :
  on_message example_verify 0 (PData (JStr "ping") JUndefined JUndefined) 8
    example_state =
    Returned (update_conn 0 (push_frames [FPong 8])
                (update_clientInfo (id (info example_conn)) (set_lastActivity 8)
                   example_state)) ∧
  on_message example_verify 0 (PData (JStr "getStats") JUndefined JUndefined) 8
    example_state =
    Returned
      (update_conn 0
         (push_frames
            [if isClientAuthenticated example_state (id (info example_conn))
             then FStats (getConnectionStats 8
                    (update_clientInfo (id (info example_conn))
                       (set_lastActivity 8) example_state))
             else FError "Authentication required"])
         (update_clientInfo (id (info example_conn)) (set_lastActivity 8)
            example_state)).
Proof.
  refine (ping_and_getStats example_verify example_state 0 example_conn
            JUndefined JUndefined 8 _ _).
  - vm_compute. reflexivity.
  - reflexivity.
Defined.

Lemma subscribe_on_dead_transport_witness :
  ∃ st',
    on_message example_verify 1 (PData (JStr "subscribe") (JStr "V") JUndefined) 8
      example_state = Thrown st' ∧
    subscribers_of st' (JStr "V")
      = {[id (info example_conn_b)]} ∪ subscribers_of example_state (JStr "V") ∧
    sent_of st' 1 = sent_of example_state 1.
Proof.
  refine (subscribe_on_dead_transport example_verify example_state 1
            example_conn_b (JStr "V") JUndefined 8 _ _ _ _).
  - vm_compute. reflexivity.
  - reflexivity.
  - vm_compute. reflexivity.
  - reflexivity.
Defined.

Lemma authenticate_without_registry_entry_witness :
  ∃ st1 st2,
    on_message example_verify 1
      (PData (JStr "authenticate") JUndefined (JStr "valid")) 8 example_recovered
      = Returned st1 ∧
    sent_of st1 1 = sent_of example_recovered 1 ++ [FAuthenticated (JStr "u1")] ∧
    authenticatedClients st1 !! id (info example_recovered_conn)
      = Some (JStr "u1", 8) ∧
    isClientAuthenticated st1 (id (info example_recovered_conn)) = false ∧
    on_message example_verify 1 (PData (JStr "subscribe") (JStr "T") JUndefined) 9
      st1 = Returned st2 ∧
    sent_of st2 1 = sent_of st1 1 ++
      [FError "Authentication required for poll subscriptions"] ∧
    pollSubscriptions st2 = pollSubscriptions example_recovered.
Proof.
  refine (authenticate_without_registry_entry example_verify example_recovered 1
            example_recovered_conn (JStr "T") (JStr "valid") (JStr "u1")
            JUndefined 8 9 _ _ _ _ _ _).
  - vm_compute. reflexivity.
  - reflexivity.
  - vm_compute. reflexivity.
  - reflexivity.
  - reflexivity.
  - reflexivity.
Defined.

Lemma no_empty_topic_example_state : no_empty_topic example_state.
Proof.
  change (map_Forall (λ _ s, s ≠ ∅) (pollSubscriptions example_state)).
  refine (bool_decide_unpack _ _). vm_compute. exact I.
Qed.

Lemma getConnectionStats_bounds_witness :
  (activePolls (getConnectionStats 7 example_state)
     ≤ totalSubscriptions (getConnectionStats 7 example_state))%nat.
Proof.
  apply (getConnectionStats_bounds 7 example_state).
  exact no_empty_topic_example_state.
Defined.

Lemma registered_in_example_state k r :
  clients example_state !! k = Some r → (r < 3)%nat.
Proof.
  intros Hk. destruct (wf_example_state _ _ Hk) as (c & Hc & _).
  apply lookup_lt_Some in Hc. exact Hc.
Qed.

Lemma cleanup_idempotent_witness :
  cleanupInactiveConnections 7 example_state = example_state ∧
  cleanupInactiveConnections 400000 (cleanupInactiveConnections 400000 example_state)
    = cleanupInactiveConnections 400000 example_state.
Proof.
  split.
  - apply (proj1 (cleanup_idempotent 7 example_state)).
    intros k r Hk. apply registered_in_example_state in Hk.
    destruct r as [|[|[|r]]]; [vm_compute; reflexivity..|lia].
  - apply (proj2 (cleanup_idempotent 400000 example_state)).
    exact wf_example_state.
Defined.

Lemma cleanup_spares_witness :
  clients (cleanupInactiveConnections 300006 example_state) !! "b2"
    = clients example_state !! "b2" ∧
  authenticatedClients (cleanupInactiveConnections 300006 example_state) !! "b2"
    = authenticatedClients example_state !! "b2" ∧
  ∀ p s, pollSubscriptions example_state !! p = Some s → "b2" ∈ s →
    ∃ s', pollSubscriptions (cleanupInactiveConnections 300006 example_state) !! p
            = Some s' ∧ "b2" ∈ s'.
Proof.
  refine (cleanup_spares 300006 example_state "b2" _).
  intros r Hr. vm_compute in Hr. injection Hr as <-. vm_compute. reflexivity.
Defined.

Lemma publish_frame_witness :
  ∃ st',
    broadcastPollUpdate (JStr "T") (Some "{}") 7 example_state = Returned st' ∧
    (∀ p, p ≠ JStr "T" →
       pollSubscriptions st' !! p = pollSubscriptions example_state !! p) ∧
    authenticatedClients st' = authenticatedClients example_state ∧
    (∀ k, clients st' !! k =
            if decide (k ∈ ({[ "a1"; "b2"; "c3" ]} : gset string) ∧
                       delivery example_state k = Raises) then None
            else clients example_state !! k) ∧
    (∀ n, readyState ∘ ws <$> conns st' !! n
          = readyState ∘ ws <$> conns example_state !! n) ∧
    (∀ n, sent_of st' n =
            sent_of example_state n ++
            (if decide (∃ k, k ∈ ({[ "a1"; "b2"; "c3" ]} : gset string) ∧
                             clients example_state !! k = Some n ∧
                             delivery example_state k = Delivers)
             then [FPollUpdate (JStr "T") "{}" 7] else [])).
Proof.
  refine (publish_frame example_state (JStr "T") "{}" 7 {[ "a1"; "b2"; "c3" ]} _ _).
  - exact wf_example_state.
  - vm_compute. reflexivity.
Defined.

Lemma publish_counts_witness :
  ((broadcast_loop (JStr "T") (FPollUpdate (JStr "T") "{}" 7)
      {[ "a1"; "b2"; "c3" ]} example_state).1.2
   + (broadcast_loop (JStr "T") (FPollUpdate (JStr "T") "{}" 7)
        {[ "a1"; "b2"; "c3" ]} example_state).2)%nat
    = size ({[ "a1"; "b2"; "c3" ]} : gset string) ∧
  size (subscribers_of
          (broadcast_loop (JStr "T") (FPollUpdate (JStr "T") "{}" 7)
             {[ "a1"; "b2"; "c3" ]} example_state).1.1 (JStr "T"))
    = (broadcast_loop (JStr "T") (FPollUpdate (JStr "T") "{}" 7)
         {[ "a1"; "b2"; "c3" ]} example_state).1.2 ∧
  (broadcast_loop (JStr "T") (FPollUpdate (JStr "T") "{}" 7)
     {[ "a1"; "b2"; "c3" ]} example_state).1.2
    = size (filter (λ k, delivery example_state k = Delivers)
              ({[ "a1"; "b2"; "c3" ]} : gset string)).
Proof.
  refine (publish_counts example_state (JStr "T") (FPollUpdate (JStr "T") "{}" 7)
            {[ "a1"; "b2"; "c3" ]} _ _).
  - exact wf_example_state.
  - vm_compute. reflexivity.
Defined.

Lemma reused_id_inherits_subscriptions_witness :
  ∃ st1 st2,
    on_connection "0.a" "10.0.0.9" "ua" 1 example_state = Returned st1 ∧
    isClientAuthenticated st1 (generateClientId "0.a" 1) = false ∧
    broadcastPollUpdate (JStr "T") (Some "{}") 9 st1 = Returned st2 ∧
    sent_of st2 (length (conns example_state))
      = [FConnected (generateClientId "0.a" 1); FPollUpdate (JStr "T") "{}" 9].
Proof.
  refine (reused_id_inherits_subscriptions example_state "0.a" "10.0.0.9" "ua" 1
            (JStr "T") "{}" 9 {[ "a1"; "b2"; "c3" ]} _ _ _).
  - exact wf_example_state.
  - vm_compute. reflexivity.
  - refine (bool_decide_unpack _ _). vm_compute. exact I.
Defined.

Lemma disconnect_repairs_index_witness :
  no_empty_topic (on_close 1 example_after_raise) ∧
  no_empty_topic (cleanupInactiveConnections 400000 example_after_raise).
Proof.
  split.
  - apply (proj1 (disconnect_repairs_index example_after_raise) 1%nat example_conn_b).
    vm_compute. reflexivity.
  - apply (proj2 (disconnect_repairs_index example_after_raise) 400000 "a1" 0%nat).
    + vm_compute. reflexivity.
    + vm_compute. reflexivity.
Defined.

Lemma close_after_eviction_witness :
  clients (on_close 0 (cleanupInactiveConnections 400000 example_state))
    = clients (cleanupInactiveConnections 400000 example_state) ∧
  authenticatedClients (on_close 0 (cleanupInactiveConnections 400000 example_state))
    = authenticatedClients (cleanupInactiveConnections 400000 example_state) ∧
  pollSubscriptions (on_close 0 (cleanupInactiveConnections 400000 example_state))
    = pollSubscriptions (cleanupInactiveConnections 400000 example_state).
Proof.
  refine (close_after_eviction 400000 example_state "a1" 0 _ _ _).
  - exact wf_example_state.
  - vm_compute. reflexivity.
  - vm_compute. reflexivity.
Defined.

Lemma connection_fields_fixed_witness :
  ∃ c', conns (run example_verify example_session one_client) !! 0%nat = Some c' ∧
    id (info c') = id (info one_client_conn) ∧
    ip (info c') = ip (info one_client_conn) ∧
    userAgent (info c') = userAgent (info one_client_conn) ∧
    connectedAt (info c') = connectedAt (info one_client_conn).
Proof.
  refine (connection_fields_fixed example_verify example_session one_client 0
            one_client_conn _).
  vm_compute. reflexivity.
Defined.

Lemma authenticated_stays_witness :
  ∃ c',
    conns (run example_verify
             [EMessage 0 (PData (JStr "authenticate") JUndefined (JStr "bad")) 8;
              ECleanup 400000; EClose 0] example_state) !! 0%nat = Some c' ∧
    authenticated (info c') = true.
Proof.
  refine (authenticated_stays example_verify _ example_state 0 example_conn _ _).
  - vm_compute. reflexivity.
  - reflexivity.
Defined.

Lemma ping_timer_stops_witness :
  ∃ c',
    conns (run example_verify [ETransport 1 OPEN false; EPingInterval 1 60000]
             (on_pingInterval 1 30000 example_closing)) !! 1%nat = Some c' ∧
    pingInterval c' = false ∧ pings (ws c') = pings (ws example_closing_conn).
Proof.
  refine (ping_timer_stops example_verify _ example_closing 1 example_closing_conn
            30000 _ _).
  - vm_compute. reflexivity.
  - vm_compute. discriminate.
Defined.

Lemma one_answer_per_message_witness :
  ∃ st', on_message example_verify 0 ParseError 8 example_state = Returned st' ∧
         one_answer 0 example_state st'.
Proof.
  refine (one_answer_per_message example_verify example_state 0 example_conn
            ParseError 8 _ _).
  - vm_compute. reflexivity.
  - reflexivity.
Defined.


Lemma no_leak_witness :
  clients (run example_verify example_session initial) = ∅ ∧
  authenticatedClients (run example_verify example_session initial) = ∅ ∧
  pollSubscriptions (run example_verify example_session initial) = ∅.
Proof.
  refine (no_leak example_verify example_session _ _).
  - vm_compute. reflexivity.
  - intros n Hn. change (n < 3)%nat in Hn.
    rewrite list_elem_of_In. unfold example_session, example_trace.
    destruct n as [|[|[|n]]]; [..|lia];
      simpl; repeat (first [left; reflexivity | right]).
Defined.
